(** * Platform detection and adapter layer of Auto-Claude

    A shallow embedding of

      - [auto-claude-ui/src/main/git-platform-detector.ts]
          (remote URL parser, detector, detection cache)
      - [auto-claude-ui/src/main/platform-adapters/factory.ts]
      - [auto-claude-ui/src/main/platform-adapters/base-adapter.ts]
      - [auto-claude-ui/src/main/platform-adapters/github-adapter.ts]
      - [auto-claude-ui/src/main/platform-adapters/gitlab-adapter.ts]
      - [auto-claude-ui/src/main/ipc-handlers/platform/release-handlers.ts]
          (the create-release handler)

    Pure functions are functions; code that reads or writes the caches, the
    file system or starts child processes is a computation over an explicit
    [World], with exceptions as results; what lies outside the repository
    (child processes, Node and JavaScript library functions) is a parameter,
    the class [Environment].

    JavaScript strings are modelled as [string]; a character is one code unit
    in the Latin-1 range (0..255), which covers every remote URL, host name
    and CLI output the literals of the source talk about.  A number read
    by [parseInt] or written into a text is a double: an integer is rounded
    to the nearest one ([toNumber]) and written as [Number::toString]
    writes it ([showNumber]). *)

From Stdlib Require Import ZArith Ascii String List Lia Bool DecimalString DecimalZ.
From stdpp Require Import base option list strings gmap.

Set Warnings "-register-all".
Local Open Scope string_scope.

(** ** JavaScript string primitives *)

Module Js.

(** [String.prototype.toLowerCase] on one Latin-1 code unit: A-Z and the
    accented capitals U+00C0..U+00DE (U+00D7 is the multiplication sign). *)
Definition lowerChar (c : ascii) : ascii :=
  let n := N_of_ascii c in
  if ((65 <=? n) && (n <=? 90) ||
      (192 <=? n) && (n <=? 222) && negb (n =? 215))%N
  then ascii_of_N (n + 32) else c.

Fixpoint toLowerCase (s : string) : string :=
  match s with
  | EmptyString => EmptyString
  | String c s' => String (lowerChar c) (toLowerCase s')
  end.

(** White space and line terminators removed by [String.prototype.trim]:
    TAB, LF, VT, FF, CR, SP and NBSP. *)
Definition isSpace (c : ascii) : bool :=
  let n := N_of_ascii c in
  ((9 <=? n) && (n <=? 13) || (n =? 32) || (n =? 160))%N.

Fixpoint trimStart (s : string) : string :=
  match s with
  | String c s' => if isSpace c then trimStart s' else s
  | EmptyString => EmptyString
  end.

(** [trimEnd] keeps a character when something non-blank follows it. *)
Fixpoint trimEnd (s : string) : string :=
  match s with
  | EmptyString => EmptyString
  | String c s' =>
      match trimEnd s' with
      | EmptyString => if isSpace c then EmptyString else String c EmptyString
      | t => String c t
      end
  end.

Definition trim (s : string) : string := trimEnd (trimStart s).

(** [s.startsWith(p)] *)
Fixpoint startsWith (p s : string) : bool :=
  match p, s with
  | EmptyString, _ => true
  | String a p', String b s' => Ascii.eqb a b && startsWith p' s'
  | String _ _, EmptyString => false
  end.

(** [s.includes(sub)] *)
Fixpoint includes (s sub : string) : bool :=
  startsWith sub s ||
  match s with
  | String _ s' => includes s' sub
  | EmptyString => false
  end.

(** The first [n] code units of [s]. *)
Fixpoint take (n : nat) (s : string) : string :=
  match n, s with
  | S n', String c s' => String c (take n' s')
  | _, _ => EmptyString
  end.

(** [a === b] on strings. *)
Definition seq (a b : string) : bool := String.eqb a b.

(** Truthiness of a string: only the empty string is falsy. *)
Definition truthy (s : string) : bool := negb (String.eqb s "").

End Js.

(** Every character of [s] satisfies [p]. *)
Fixpoint allChars (p : ascii -> bool) (s : string) : bool :=
  match s with
  | EmptyString => true
  | String c s' => p c && allChars p s'
  end.

(** ** Regular expressions

    The fragment of ECMAScript regular expressions the source uses, with
    the priorities of the backtracking matcher: [run] lists every way a
    pattern can match at the current position, best first, so the match
    JavaScript reports is the head of the list. *)

Module Re.

Inductive regex : Type :=
| Lit (s : string)              (* literal text *)
| Cls (p : ascii -> bool)       (* one character of a class *)
| PlusG (p : ascii -> bool)     (* [..]+   greedy *)
| PlusL (p : ascii -> bool)     (* [..]+?  lazy *)
| StarG (p : ascii -> bool)     (* [..]*   greedy *)
| Opt (r : regex)               (* (?:r)?  greedy *)
| Alt (r1 r2 : regex)           (* r1|r2 *)
| Seq (r1 r2 : regex)           (* r1r2 *)
| Grp (i : nat) (r : regex)     (* i-th capturing group *)
| Eol.                          (* $ without the m flag *)

(** A compiled pattern: [anchored] is a leading [^], [ignoreCase] the
    [i] flag (class predicates of such a pattern are closed under case). *)
Record pattern : Type := Pattern {
  anchored : bool;
  ignoreCase : bool;
  body : regex
}.

(** Captures: group number to captured text; an absent key is [undefined]. *)
Abbreviation captures := (gmap nat string).

Definition sameChar (ci : bool) (a b : ascii) : bool :=
  if ci then Ascii.eqb (Js.lowerChar a) (Js.lowerChar b) else Ascii.eqb a b.

(** The rest of [s] after the literal [l], when [s] starts with it. *)
Fixpoint afterLit (ci : bool) (l s : string) : option string :=
  match l, s with
  | EmptyString, _ => Some s
  | String a l', String b s' =>
      if sameChar ci a b then afterLit ci l' s' else None
  | String _ _, EmptyString => None
  end.

(** The rests of [s] after one, two, ... characters of the class [p],
    shortest run first. *)
Fixpoint spans (p : ascii -> bool) (s : string) : list string :=
  match s with
  | String c s' => if p c then s' :: spans p s' else []
  | EmptyString => []
  end.

(** What was consumed between [s] and its suffix [rest]. *)
Definition consumed (s rest : string) : string :=
  Js.take (String.length s - String.length rest) s.

Fixpoint run (ci : bool) (r : regex) (s : string) (c : captures)
  : list (captures * string) :=
  match r with
  | Lit l => match afterLit ci l s with Some s' => [(c, s')] | None => [] end
  | Cls p => match s with
             | String a s' => if p a then [(c, s')] else []
             | EmptyString => []
             end
  | PlusG p => (fun s' => (c, s')) <$> reverse (spans p s)
  | PlusL p => (fun s' => (c, s')) <$> spans p s
  | StarG p => (fun s' => (c, s')) <$> reverse (s :: spans p s)
  | Opt r1 => run ci r1 s c ++ [(c, s)]
  | Alt r1 r2 => run ci r1 s c ++ run ci r2 s c
  | Seq r1 r2 => run ci r1 s c ≫= (fun '(c1, s1) => run ci r2 s1 c1)
  | Grp i r1 =>
      (fun '(c1, s1) => (<[i := consumed s s1]> c1, s1)) <$> run ci r1 s c
  | Eol => match s with EmptyString => [(c, s)] | _ => [] end
  end.

(** A match attempt at the start of [s]; group 0 is the whole match. *)
Definition matchHere (ci : bool) (r : regex) (s : string) : option captures :=
  fst <$> head (run ci (Grp 0 r) s ∅).

(** Leftmost match: try every start position in turn. *)
Fixpoint search (ci : bool) (r : regex) (s : string) : option captures :=
  match matchHere ci r s with
  | Some m => Some m
  | None => match s with
            | String _ s' => search ci r s'
            | EmptyString => None
            end
  end.

(** [s.match(re)] for a pattern without the [g] flag; [None] is [null]. *)
Definition exec (re : pattern) (s : string) : option captures :=
  if anchored re then matchHere (ignoreCase re) (body re) s
  else search (ignoreCase re) (body re) s.

(** [re.test(s)] *)
Definition test (re : pattern) (s : string) : bool :=
  bool_decide (is_Some (exec re s)).

(** Character classes of the source. *)
Definition notChar (x : ascii) : ascii -> bool := fun a => negb (Ascii.eqb a x).
Definition inRange (lo hi : N) (a : ascii) : bool :=
  let n := N_of_ascii a in ((lo <=? n) && (n <=? hi))%N.

(** The declarative reading of a pattern: [den ci r s c c' rest] says that
    [r] can match a prefix of [s], leaving [rest] and turning the captures
    [c] into [c']. *)
Fixpoint den (ci : bool) (r : regex) (s : string) (c c' : captures) (rest : string)
  : Prop :=
  match r with
  | Lit l => afterLit ci l s = Some rest ∧ c' = c
  | Cls p => (∃ a, s = String a rest ∧ p a = true) ∧ c' = c
  | PlusG p | PlusL p =>
      (∃ u, u ≠ "" ∧ s = u ++ rest ∧ allChars p u = true) ∧ c' = c
  | StarG p => (∃ u, s = u ++ rest ∧ allChars p u = true) ∧ c' = c
  | Opt r1 => den ci r1 s c c' rest ∨ (c' = c ∧ rest = s)
  | Alt r1 r2 => den ci r1 s c c' rest ∨ den ci r2 s c c' rest
  | Seq r1 r2 => ∃ c1 s1, den ci r1 s c c1 s1 ∧ den ci r2 s1 c1 c' rest
  | Grp i r1 => ∃ c1, den ci r1 s c c1 rest ∧ c' = <[i := consumed s rest]> c1
  | Eol => s = "" ∧ rest = "" ∧ c' = c
  end.

End Re.

(** ** git-platform-detector.ts *)

(** [interface GitPlatform].  [type] is declared as ['github' | 'gitlab'];
    at run time it is a string, and the factory has a default branch for
    any other value, so it is kept as a string here. *)
Record GitPlatform : Type := mkGitPlatform {
  type : string;
  host : string;
  owner : string;
  repo : string;
  fullName : string;
  isGitHub : bool;
  isGitLab : bool;
  isSelfHosted : bool
}.

Global Instance GitPlatform_eq_dec : EqDecision GitPlatform.
Proof. solve_decision. Defined.

(** [function createPlatform(host, owner, repo)] *)
Definition createPlatform (host owner repo : string) : GitPlatform :=
  let normalizedHost := Js.toLowerCase host in
  let isGitHub :=
    Js.seq normalizedHost "github.com" || Js.includes normalizedHost "github" in
  let isGitLab :=
    Js.seq normalizedHost "gitlab.com" ||
    Js.includes normalizedHost "gitlab" ||
    (negb isGitHub && negb (Js.seq normalizedHost "github.com")) in
  let isSelfHosted :=
    negb (Js.seq normalizedHost "github.com") &&
    negb (Js.seq normalizedHost "gitlab.com") in
  {| type := if isGitHub then "github" else "gitlab";
     host := normalizedHost;
     owner := owner;
     repo := repo;
     fullName := owner ++ "/" ++ repo;
     isGitHub := isGitHub;
     isGitLab := isGitLab;
     isSelfHosted := isSelfHosted |}.

(** [/^https?:\/\/([^/]+)\/([^/]+)\/([^/]+?)(?:\.git)?$/] *)
Definition httpsRe : Re.pattern :=
  Re.Pattern true false
    (Re.Seq (Re.Lit "http")
    (Re.Seq (Re.Opt (Re.Lit "s"))
    (Re.Seq (Re.Lit "://")
    (Re.Seq (Re.Grp 1 (Re.PlusG (Re.notChar "/")))
    (Re.Seq (Re.Lit "/")
    (Re.Seq (Re.Grp 2 (Re.PlusG (Re.notChar "/")))
    (Re.Seq (Re.Lit "/")
    (Re.Seq (Re.Grp 3 (Re.PlusL (Re.notChar "/")))
    (Re.Seq (Re.Opt (Re.Lit ".git"))
            Re.Eol))))))))).

(** [/^git@([^:]+):([^/]+)\/([^/]+?)(?:\.git)?$/] *)
Definition sshRe : Re.pattern :=
  Re.Pattern true false
    (Re.Seq (Re.Lit "git@")
    (Re.Seq (Re.Grp 1 (Re.PlusG (Re.notChar ":")))
    (Re.Seq (Re.Lit ":")
    (Re.Seq (Re.Grp 2 (Re.PlusG (Re.notChar "/")))
    (Re.Seq (Re.Lit "/")
    (Re.Seq (Re.Grp 3 (Re.PlusL (Re.notChar "/")))
    (Re.Seq (Re.Opt (Re.Lit ".git"))
            Re.Eol))))))).

(** [const [, host, owner, repo] = m; return createPlatform(host, owner, repo)].
    The three groups take part in every match of the two patterns
    ([httpsRe_groups], [sshRe_groups] below), so the last branch is dead. *)
Definition platformOfMatch (m : Re.captures) : option GitPlatform :=
  match m !! 1%nat, m !! 2%nat, m !! 3%nat with
  | Some host, Some owner, Some repo => Some (createPlatform host owner repo)
  | _, _, _ => None
  end.

(** [export function parseGitRemoteUrl(remoteUrl)]; [None] is [null]. *)
Definition parseGitRemoteUrl (remoteUrl : string) : option GitPlatform :=
  let url := Js.trim remoteUrl in
  match Re.exec httpsRe url with
  | Some httpsMatch => platformOfMatch httpsMatch
  | None =>
      match Re.exec sshRe url with
      | Some sshMatch => platformOfMatch sshMatch
      | None => None
      end
  end.

(** ** Errors, JSON values and the outside world *)

(** Thrown values.  Every value the Node API throws or passes to an
    ['error'] listener is an [Error] instance, and so is every value the
    adapters throw themselves, so [error instanceof Error] always holds. *)
Inductive JsError : Type :=
| Error (name message : string)
| PlatformAdapterError (message platform : string) (originalError : option JsError).

(** [error.message] *)
Definition errorMessage (e : JsError) : string :=
  match e with
  | Error _ m => m
  | PlatformAdapterError m _ _ => m
  end.

(** [error.name] *)
Definition errorName (e : JsError) : string :=
  match e with
  | Error n _ => n
  | PlatformAdapterError _ _ _ => "PlatformAdapterError"
  end.

Definition TypeError (m : string) : JsError := Error "TypeError" m.

(** What [JSON.parse] and js-yaml's [load] produce. *)
Inductive Json : Type :=
| JNull
| JBool (b : bool)
| JNum (n : Z)
| JStr (s : string)
| JArr (items : list Json)
| JObj (fields : list (string * Json)).

(** Own property lookup in a field list: the last write wins in
    [JSON.parse], which is the first hit when fields are kept newest first. *)
Fixpoint lookupField (k : string) (fields : list (string * Json)) : option Json :=
  match fields with
  | [] => None
  | (k', v) :: rest => if String.eqb k k' then Some v else lookupField k rest
  end.

(** [v.k] for a value [v] that is not [null]/[undefined]; [None] is
    [undefined].  Primitives and arrays have none of the keys read here. *)
Definition getProp (v : Json) (k : string) : option Json :=
  match v with
  | JObj fields => lookupField k fields
  | _ => None
  end.

(** [v?.k]: [undefined] when [v] is [null] or [undefined]. *)
Definition optProp (v : option Json) (k : string) : option Json :=
  match v with
  | None | Some JNull => None
  | Some v' => getProp v' k
  end.

(** Truthiness of a value that may be [undefined]. *)
Definition jsonTruthy (v : option Json) : bool :=
  match v with
  | None | Some JNull => false
  | Some (JBool b) => b
  | Some (JNum n) => negb (n =? 0)%Z
  | Some (JStr s) => Js.truthy s
  | Some (JArr _) | Some (JObj _) => true
  end.

(** A started child process. *)
Inductive Invocation : Type :=
| ExecSync (command : string) (cwd : option string)
| ExecFileSync (file : string) (args : list string) (cwd : option string)
| Spawn (file : string) (args : list string) (cwd : option string).

(** A JavaScript number that came out of [parseInt]: [NaN], an integer (one
    that a double holds exactly), or an infinity. *)
Inductive JsNumber : Type :=
| NaN
| Int (n : Z)
| Infinity (negative : bool).

(** The mutable state the subsystem reads and writes: the two module-level
    caches, the file system, and the child processes started so far. *)
Record World : Type := mkWorld {
  platformCache : gmap string (option GitPlatform);
  projectIdCache : gmap string JsNumber;
  files : gmap string string;
  trace : list Invocation
}.

Definition setPlatformCache (c : gmap string (option GitPlatform)) (w : World) : World :=
  mkWorld c (projectIdCache w) (files w) (trace w).
Definition setProjectIdCache (c : gmap string JsNumber) (w : World) : World :=
  mkWorld (platformCache w) c (files w) (trace w).
Definition setFiles (f : gmap string string) (w : World) : World :=
  mkWorld (platformCache w) (projectIdCache w) f (trace w).
Definition logInvocation (i : Invocation) (w : World) : World :=
  mkWorld (platformCache w) (projectIdCache w) (files w) (trace w ++ [i]).

(** How a spawned child ends, as [createRelease] observes it: an ['exit']
    event with the exit code ([None] is [null], the child was killed) after
    the collected output, or an ['error'] event. *)
Inductive ChildEnd : Type :=
| Exited (code : option Z) (stdout stderr : string)
| Failed (error : JsError).

(** Everything outside the repository: child processes, the Node and
    JavaScript library functions, the clock and the process environment.
    A child may change the files; it cannot reach the caches. *)
Class Environment : Type := {
  (** [execSync] / [execFileSync]: stdout, or the thrown error *)
  runSync : Invocation -> World -> (JsError + string) * gmap string string;
  (** [spawn] followed by the child's events *)
  runChild : Invocation -> World -> ChildEnd * gmap string string;
  (** [fs.writeFileSync], [fs.unlinkSync], [fs.readFileSync] may fail *)
  writeError : string -> World -> option JsError;
  unlinkError : string -> World -> option JsError;
  readError : string -> World -> option JsError;
  path_resolve : string -> string;
  path_join : list string -> string;
  (** [path.join] returns ['.'] rather than a zero-length string *)
  path_join_nonempty : forall parts, path_join parts <> EmptyString;
  os_tmpdir : string;
  Date_now : World -> N;
  env_HOME : option string;
  env_USERPROFILE : option string;
  JSON_parse : string -> JsError + Json;
  loadYaml : string -> JsError + Json;
  (** [new RegExp(source, flags)] *)
  newRegExp : string -> string -> JsError + Re.pattern
}.

(** ** Computations: state and exceptions *)

Definition Result (A : Type) : Type := (JsError + A)%type.

Definition M (A : Type) : Type := World -> Result A * World.

Definition ret {A} (a : A) : M A := fun w => (inr a, w).

Definition throw {A} (e : JsError) : M A := fun w => (inl e, w).

Definition bind {A B} (m : M A) (f : A -> M B) : M B :=
  fun w => match m w with
           | (inr a, w') => f a w'
           | (inl e, w') => (inl e, w')
           end.

(** [try { body } catch (error) { handler }] *)
Definition tryCatch {A} (body : M A) (handler : JsError -> M A) : M A :=
  fun w => match body w with
           | (inl e, w') => handler e w'
           | (inr a, w') => (inr a, w')
           end.

(** [try { body } finally { cleanup }] for a cleanup without a [return]
    statement: the completion of the body stands unless the cleanup
    throws. *)
Definition tryFinally {A} (body : M A) (cleanup : M unit) : M A :=
  fun w => match body w with
           | (r, w') => match cleanup w' with
                        | (inr _, w'') => (r, w'')
                        | (inl e, w'') => (inl e, w'')
                        end
           end.

Definition getWorld : M World := fun w => (inr w, w).
Definition modify (f : World -> World) : M unit := fun w => (inr tt, f w).
Definition liftResult {A} (r : Result A) : M A := fun w => (r, w).

Declare Scope js_scope.
Delimit Scope js_scope with js.
Notation "x <- m ;; k" := (bind m (fun x => k))
  (at level 100, m at next level, right associativity) : js_scope.
Notation "m ;;; k" := (bind m (fun _ => k))
  (at level 100, right associativity) : js_scope.
Local Open Scope js_scope.

Section Primitives.
Context `{Environment}.

(** [execSync(command, { cwd })] *)
Definition execSync (command : string) (cwd : option string) : M string :=
  fun w => let i := ExecSync command cwd in
           let '(out, fs) := runSync i w in
           (out, setFiles fs (logInvocation i w)).

(** [execFileSync(file, args, { cwd })] *)
Definition execFileSync (file : string) (args : list string) (cwd : option string)
  : M string :=
  fun w => let i := ExecFileSync file args cwd in
           let '(out, fs) := runSync i w in
           (out, setFiles fs (logInvocation i w)).

(** [spawn(file, args, { cwd })] and waiting for the child to end *)
Definition spawnAndWait (file : string) (args : list string) (cwd : option string)
  : M ChildEnd :=
  fun w => let i := Spawn file args cwd in
           let '(e, fs) := runChild i w in
           (inr e, setFiles fs (logInvocation i w)).

(** [writeFileSync(path, data, 'utf-8')] *)
Definition writeFileSync (path data : string) : M unit :=
  fun w => match writeError path w with
           | Some e => (inl e, w)
           | None => (inr tt, setFiles (<[path := data]> (files w)) w)
           end.

(** [existsSync(path)] *)
Definition existsSync (path : string) : M bool :=
  fun w => (inr (bool_decide (is_Some (files w !! path))), w).

(** [unlinkSync(path)]: removing a missing file is an [ENOENT] error. *)
Definition unlinkSync (path : string) : M unit :=
  fun w => match unlinkError path w with
           | Some e => (inl e, w)
           | None =>
               match files w !! path with
               | Some _ => (inr tt, setFiles (delete path (files w)) w)
               | None => (inl (Error "Error" "ENOENT: no such file or directory"), w)
               end
           end.

(** [readFileSync(path, 'utf-8')] *)
Definition readFileSync (path : string) : M string :=
  fun w => match readError path w with
           | Some e => (inl e, w)
           | None =>
               match files w !! path with
               | Some data => (inr data, w)
               | None => (inl (Error "Error" "ENOENT: no such file or directory"), w)
               end
           end.

End Primitives.

(** ** The detector (git-platform-detector.ts, continued) *)

(** The [options] argument of [detectGitPlatform]; [None] is a missing key. *)
Record DetectOptions : Type := mkDetectOptions {
  remoteName : option string;
  forceRefresh : option bool
}.

Definition noOptions : DetectOptions := mkDetectOptions None None.

Section Detector.
Context `{Environment}.

(** [export function clearPlatformCache()] *)
Definition clearPlatformCache : M unit :=
  modify (setPlatformCache ∅).

(** [export function clearProjectPlatformCache(projectPath)] *)
Definition clearProjectPlatformCache (projectPath : string) : M unit :=
  let normalizedPath := path_resolve projectPath in
  modify (fun w => setPlatformCache (delete normalizedPath (platformCache w)) w).

(** [export function getGitRemoteUrl(projectPath, remoteName = 'origin')] *)
Definition getGitRemoteUrl (projectPath remoteName : string) : M (option string) :=
  tryCatch
    (out <- execSync ("git remote get-url " ++ remoteName) (Some projectPath) ;;
     let remoteUrl := Js.trim out in
     ret (if Js.truthy remoteUrl then Some remoteUrl else None))
    (fun _ => ret None).

(** [export function detectGitPlatform(projectPath, options = {})] *)
Definition detectGitPlatform (projectPath : string) (options : DetectOptions)
  : M (option GitPlatform) :=
  let remoteName := default "origin" (remoteName options) in
  let forceRefresh := default false (forceRefresh options) in
  let normalizedPath := path_resolve projectPath in
  w <- getWorld ;;
  if negb forceRefresh && bool_decide (is_Some (platformCache w !! normalizedPath)) then
    (* platformCache.get(normalizedPath) || null *)
    ret (mjoin (platformCache w !! normalizedPath))
  else
    remoteUrl <- getGitRemoteUrl normalizedPath remoteName ;;
    match remoteUrl with
    | None =>
        modify (fun w => setPlatformCache (<[normalizedPath := None]> (platformCache w)) w) ;;;
        ret None
    | Some remoteUrl =>
        let platform := parseGitRemoteUrl remoteUrl in
        modify (fun w => setPlatformCache (<[normalizedPath := platform]> (platformCache w)) w) ;;;
        ret platform
    end.

(** [export function isGitHubProject(projectPath)] *)
Definition isGitHubProject (projectPath : string) : M bool :=
  platform <- detectGitPlatform projectPath noOptions ;;
  ret (default false (isGitHub <$> platform)).

(** [export function isGitLabProject(projectPath)] *)
Definition isGitLabProject (projectPath : string) : M bool :=
  platform <- detectGitPlatform projectPath noOptions ;;
  ret (default false (isGitLab <$> platform)).

End Detector.

(** [typeof platform === 'string' ? platform : platform.type] for an
    argument of type [PlatformType | GitPlatform]. *)
Definition typeOf (platform : string + GitPlatform) : string :=
  match platform with
  | inl platformType => platformType
  | inr descriptor => type descriptor
  end.

(** [export function getPlatformDisplayName(platform)] *)
Definition getPlatformDisplayName (platform : string + GitPlatform) : string :=
  let type := typeOf platform in
  if Js.seq type "github" then "GitHub"
  else if Js.seq type "gitlab" then "GitLab"
  else "Git Platform".

(** [export function getPlatformCliName(platform)] *)
Definition getPlatformCliName (platform : string + GitPlatform) : string :=
  let type := typeOf platform in
  if Js.seq type "github" then "gh"
  else if Js.seq type "gitlab" then "glab"
  else "unknown".

(** ** The factory (platform-adapters/factory.ts) *)

(** The two classes implementing [PlatformAdapter]; an instance holds the
    descriptor it was constructed with. *)
Inductive PlatformAdapter : Type :=
| GitHubAdapter (platform : GitPlatform)
| GitLabAdapter (platform : GitPlatform).

Definition getPlatform (a : PlatformAdapter) : GitPlatform :=
  match a with GitHubAdapter p | GitLabAdapter p => p end.

Definition getPlatformType (a : PlatformAdapter) : string :=
  match a with GitHubAdapter _ => "github" | GitLabAdapter _ => "gitlab" end.

Definition getCliName (a : PlatformAdapter) : string :=
  match a with GitHubAdapter _ => "gh" | GitLabAdapter _ => "glab" end.

(** [static createAdapter(platform)] *)
Definition createAdapter (platform : GitPlatform) : Result PlatformAdapter :=
  if Js.seq (type platform) "github" then inr (GitHubAdapter platform)
  else if Js.seq (type platform) "gitlab" then inr (GitLabAdapter platform)
  else inl (Error "Error" ("Unsupported platform type: " ++ type platform)).

(** [static createAdapterForType(platformType, host, owner, repo)] *)
Definition createAdapterForType (platformType host owner repo : string)
  : Result PlatformAdapter :=
  let platform :=
    {| type := platformType;
       host := host;
       owner := owner;
       repo := repo;
       fullName := owner ++ "/" ++ repo;
       isGitHub := Js.seq platformType "github";
       isGitLab := Js.seq platformType "gitlab";
       isSelfHosted := negb (Js.seq host "github.com") && negb (Js.seq host "gitlab.com") |} in
  createAdapter platform.

Section Factory.
Context `{Environment}.

(** [static async getAdapter(projectPath)]; a rejected promise is a throw. *)
Definition getAdapter (projectPath : string) : M PlatformAdapter :=
  platform <- detectGitPlatform projectPath noOptions ;;
  match platform with
  | None =>
      throw (Error "Error"
        "Could not detect git platform. Make sure the project has a git remote configured.")
  | Some platform => liftResult (createAdapter platform)
  end.

(** [export async function getAdapterForProject(projectPath)] *)
Definition getAdapterForProject (projectPath : string) : M PlatformAdapter :=
  getAdapter projectPath.

End Factory.

(** ** More JavaScript built-ins used by the adapters *)

Definition LF : ascii := "010"%char.

(** [s.split('\n')]: the pieces between line feeds; never empty. *)
Fixpoint splitLines (s : string) : list string :=
  match s with
  | EmptyString => [EmptyString]
  | String c s' =>
      if Ascii.eqb c LF then EmptyString :: splitLines s'
      else match splitLines s' with
           | l :: ls => String c l :: ls
           | [] => [String c EmptyString]
           end
  end.

(** [s.replace(' ', '-')] with a string pattern: the first blank only. *)
Fixpoint replaceFirstSpace (s : string) : string :=
  match s with
  | EmptyString => EmptyString
  | String c s' => if Ascii.eqb c " " then String "-" s' else String c (replaceFirstSpace s')
  end.

(** [s.replace(/\./g, '\\.')]: a backslash before every dot. *)
Fixpoint escapeDots (s : string) : string :=
  match s with
  | EmptyString => EmptyString
  | String c s' =>
      if Ascii.eqb c "." then String "\" (String "." (escapeDots s'))
      else String c (escapeDots s')
  end.

(** Decimal text of an integer, as in a template literal. *)
Definition showZ (n : Z) : string := NilEmpty.string_of_int (Z.to_int n).

(** The double nearest to the integer [z >= 0], as an integer: 53
    significant bits are kept, and a value half way between two doubles
    goes to the one with the even significand. *)
Definition roundDouble (z : Z) : Z :=
  if (z <? 2 ^ 53)%Z then z
  else
    let e := (Z.log2 z - 52)%Z in
    let q := (z / 2 ^ e)%Z in
    let r := (z mod 2 ^ e)%Z in
    let half := (2 ^ (e - 1))%Z in
    let q' := if (half <? r)%Z || ((r =? half)%Z && Z.odd q) then (q + 1)%Z else q in
    (q' * 2 ^ e)%Z.

(** The Number value for the mathematical integer [z]: the nearest double,
    an infinity from [2^1024] on. *)
Definition toNumber (z : Z) : JsNumber :=
  let m := roundDouble (Z.abs z) in
  if (2 ^ 1024 <=? m)%Z then Infinity (z <? 0)%Z else Int (Z.sgn z * m).

(** [v] reads back as the double [x]. *)
Definition roundTrips (x v : Z) : bool :=
  match toNumber v with
  | Int y => (y =? x)%Z
  | _ => false
  end.

(** The decimal number with [k] significant digits that reads back as
    [x > 0], if there is one: of the two numbers next to [x] the nearer,
    and the one with the even last digit when they are as near. *)
Definition shortestAt (x k : Z) : option Z :=
  let p := (10 ^ (Z.of_nat (String.length (showZ x)) - k))%Z in
  let lo := (x / p * p)%Z in
  let hi := (lo + p)%Z in
  match roundTrips x lo, roundTrips x hi with
  | true, true =>
      Some (if (x - lo <? hi - x)%Z then lo
            else if (hi - x <? x - lo)%Z then hi
            else if Z.even (x / p) then lo else hi)
  | true, false => Some lo
  | false, true => Some hi
  | false, false => None
  end.

Fixpoint shortestFrom (x k : Z) (fuel : nat) : Z :=
  match fuel with
  | O => x
  | S fuel' =>
      match shortestAt x k with
      | Some v => v
      | None => shortestFrom x (k + 1) fuel'
      end
  end.

(** The decimal number with the fewest significant digits that reads back
    as the double [x > 0]; it has as many digits as [x] or one more. *)
Definition shortest (x : Z) : Z := shortestFrom x 1 (String.length (showZ x)).

(** [digits] without the zeros at its end. *)
Fixpoint stripZeros (digits : string) : string :=
  match digits with
  | EmptyString => EmptyString
  | String c rest =>
      match stripZeros rest with
      | EmptyString => if Ascii.eqb c "0" then EmptyString else String c EmptyString
      | kept => String c kept
      end
  end.

(** [Number::toString] for a positive integer: the digits of [shortest],
    in full below 1e21 and in exponent form from there on. *)
Definition showPositive (x : Z) : string :=
  let digits := showZ (shortest x) in
  if (shortest x <? 10 ^ 21)%Z then digits
  else
    let exponent := "e+" ++ showZ (Z.of_nat (String.length digits) - 1) in
    match stripZeros digits with
    | String d EmptyString => String d exponent
    | String d more => String d ("." ++ more ++ exponent)
    | EmptyString => digits
    end.

(** [`${n}`] for a number. *)
Definition showNumber (n : JsNumber) : string :=
  match n with
  | NaN => "NaN"
  | Infinity negative => if negative then "-Infinity" else "Infinity"
  | Int z =>
      if (z =? 0)%Z then "0"
      else if (z <? 0)%Z then "-" ++ showPositive (- z)
      else showPositive z
  end.

(** [`${z}`] for the number that holds the integer [z]. *)
Definition numberText (z : Z) : string := showNumber (toNumber z).

(** [`${code}`] for an exit code that may be [null]. *)
Definition showCode (code : option Z) : string :=
  match code with None => "null" | Some z => showZ z end.

Definition isDigit (c : ascii) : bool := Re.inRange 48 57 c.

Definition digitValue (c : ascii) : Z := Z.of_N (N_of_ascii c) - 48.

(** The digits at the front of [s], read in base ten from [acc]. *)
Fixpoint readDigits (acc : Z) (s : string) : Z :=
  match s with
  | String c s' => if isDigit c then readDigits (10 * acc + digitValue c) s' else acc
  | EmptyString => acc
  end.

Definition startsWithDigit (s : string) : bool :=
  match s with String c _ => isDigit c | EmptyString => false end.

(** [parseInt(s, 10)]: blanks, an optional sign, then as many digits as
    there are; [NaN] without a digit, and otherwise the Number value for
    the integer the digits write, which is that integer up to 2^53 and the
    nearest double beyond. *)
Definition parseInt (s : string) : JsNumber :=
  let t := Js.trimStart s in
  match t with
  | String "-" t' => if startsWithDigit t' then toNumber (- readDigits 0 t') else NaN
  | String "+" t' => if startsWithDigit t' then toNumber (readDigits 0 t') else NaN
  | _ => if startsWithDigit t then toNumber (readDigits 0 t) else NaN
  end.

Definition hexDigit (n : N) : ascii :=
  if (n <? 10)%N then ascii_of_N (48 + n) else ascii_of_N (55 + n).

Definition percentByte (n : N) : string :=
  String "%" (String (hexDigit (n / 16)) (String (hexDigit (n mod 16)) EmptyString)).

(** Characters [encodeURIComponent] leaves alone: letters, digits and
    [- _ . ! ~ * ' ( )]. *)
Definition uriUnreserved (c : ascii) : bool :=
  Re.inRange 65 90 c || Re.inRange 97 122 c || isDigit c ||
  Js.includes "-_.!~*'()" (String c EmptyString).

(** [encodeURIComponent] on Latin-1 text: other characters become the
    percent-escapes of their UTF-8 bytes. *)
Fixpoint encodeURIComponent (s : string) : string :=
  match s with
  | EmptyString => EmptyString
  | String c s' =>
      let n := N_of_ascii c in
      (if uriUnreserved c then String c EmptyString
       else if (n <? 128)%N then percentByte n
       else percentByte (192 + n / 64) ++ percentByte (128 + n mod 64))
      ++ encodeURIComponent s'
  end.

(** ** Result shapes (platform-adapters/base-adapter.ts)

    Fields the adapters copy out of parsed JSON hold whatever was parsed;
    [None] is [undefined]. *)

Record CliCheckResult : Type := mkCliCheckResult {
  installed : bool;
  cliVersion : option string
}.

Record AuthCheckResult : Type := mkAuthCheckResult {
  authenticated : bool;
  authUsername : option string
}.

Record Repository : Type := mkRepository {
  listedFullName : option Json;
  listedDescription : option Json;
  listedIsPrivate : option Json;
  listedUrl : option string
}.

Record PlatformUser : Type := mkPlatformUser {
  username : option Json;
  name : option Json;
  avatarUrl : option Json
}.

Record Organization : Type := mkOrganization {
  login : option Json;
  orgAvatarUrl : option Json
}.

Record CreateRepoOptions : Type := mkCreateRepoOptions {
  repoName : string;
  description : option string;
  isPrivate : option bool;
  repoProjectPath : string;
  repoOwner : option string
}.

Record CreateRepoResult : Type := mkCreateRepoResult {
  createdFullName : string;
  url : string
}.

Record CreateReleaseOptions : Type := mkCreateReleaseOptions {
  projectPath : string;
  version : string;
  tagName : string;
  title : string;
  body : string;
  draft : option bool;
  prerelease : option bool
}.

Record CreateReleaseResult : Type := mkCreateReleaseResult {
  success : bool;
  releaseUrl : option string;
  releaseTagName : option string;
  error : option string
}.

Record AuthStartResult : Type := mkAuthStartResult {
  authSuccess : bool;
  message : option string;
  deviceCode : option string;
  authUrl : option string;
  browserOpened : option bool;
  fallbackUrl : option string
}.

(** [`${a} || ${b}`] on optional strings: the first truthy one. *)
Definition orElse (a : option string) (b : string) : string :=
  match a with
  | Some x => if Js.truthy x then x else b
  | None => b
  end.

Definition optTruthy (a : option string) : bool :=
  match a with Some x => Js.truthy x | None => false end.

(** [if (flag)] on an optional boolean. *)
Definition flagSet (b : option bool) : bool := default false b.

(** [a || undefined] on a string. *)
Definition orUndefined (a : string) : option string :=
  if Js.truthy a then Some a else None.

(** [user.k] on a parsed value: a [TypeError] when [user] is [null]. *)
Definition member (v : Json) (k : string) : Result (option Json) :=
  match v with
  | JNull => inl (TypeError ("Cannot read properties of null (reading '" ++ k ++ "')"))
  | _ => inr (getProp v k)
  end.

(** Text of a parsed value inside a template literal ([String(v)]). *)
Fixpoint showJson (v : Json) : string :=
  match v with
  | JNull => "null"
  | JBool b => if b then "true" else "false"
  | JNum n => numberText n
  | JStr s => s
  | JArr items =>
      (fix joinItems (l : list Json) : string :=
         match l with
         | [] => ""
         | [x] => match x with JNull => "" | _ => showJson x end
         | x :: rest =>
             (match x with JNull => "" | _ => showJson x end) ++ "," ++ joinItems rest
         end) items
  | JObj _ => "[object Object]"
  end.

Definition showValue (v : option Json) : string :=
  match v with None => "undefined" | Some v' => showJson v' end.

(** [output.trim().split('\n').filter(b => b.length > 0)] *)
Definition nonEmptyLines (output : string) : list string :=
  filter (fun b => (0 <? String.length b)%nat = true) (splitLines (Js.trim output)).

(** [output.trim().split('\n').filter(line => line.trim())] *)
Definition nonBlankLines (output : string) : list string :=
  filter (fun line => Js.truthy (Js.trim line) = true) (splitLines (Js.trim output)).

(** [array.map(f)] for a callback that may throw. *)
Fixpoint mapM {A B} (f : A -> M B) (l : list A) : M (list B) :=
  match l with
  | [] => ret []
  | x :: rest => y <- f x ;; ys <- mapM f rest ;; ret (y :: ys)
  end.

(** [value.map(f)] on a parsed value: only an array has the method. *)
Definition arrayMap {B} (value : Json) (f : Json -> M B) : M (list B) :=
  match value with
  | JArr items => mapM f items
  | JNull => throw (TypeError "Cannot read properties of null (reading 'map')")
  | _ => throw (TypeError "repos.map is not a function")
  end.

(** [lines.slice(0, limit)]: a negative [limit] counts from the end. *)
Definition sliceTo {A} (limit : Z) (l : list A) : list A :=
  if (limit <? 0)%Z then firstn (Z.to_nat (Z.of_nat (length l) + limit)) l
  else firstn (Z.to_nat limit) l.

(** [[/:]] *)
Definition slashOrColon (c : ascii) : bool := Ascii.eqb c "/" || Ascii.eqb c ":".

(** [/github\.com[/:]([^/]+\/[^/]+?)(?:\.git)?$/] *)
Definition githubRepoRe : Re.pattern :=
  Re.Pattern false false
    (Re.Seq (Re.Lit "github.com")
    (Re.Seq (Re.Cls slashOrColon)
    (Re.Seq (Re.Grp 1 (Re.Seq (Re.PlusG (Re.notChar "/"))
                      (Re.Seq (Re.Lit "/")
                              (Re.PlusL (Re.notChar "/")))))
    (Re.Seq (Re.Opt (Re.Lit ".git"))
            Re.Eol)))).

(** ** The interactive login flow

    [startAuth] returns a promise and then reacts to events: output chunks
    of the child, the end of the awaited [shell.openExternal], and the
    child's ['close'] or ['error'].  Each event is one step of a state
    machine over the closure's variables. *)

Inductive AuthEvent : Type :=
| StdoutData (chunk : string)
| StderrData (chunk : string)
| OpenSettled (opened : bool)   (* the awaited shell.openExternal ends *)
| Close (code : option Z)
| ChildError (e : JsError).

Inductive Promise (A : Type) : Type :=
| Pending
| Fulfilled (value : A)
| Rejected (reason : JsError).
Arguments Pending {A}.
Arguments Fulfilled {A} value.
Arguments Rejected {A} reason.

(** [resolve(value)]: only the first settlement counts. *)
Definition resolve {A} (value : A) (p : Promise A) : Promise A :=
  match p with
  | Pending => Fulfilled value
  | settled => settled
  end.

(** [m[0]], the whole match ([Re.exec] always records it). *)
Definition wholeMatch (m : Re.captures) : string := default "" (m !! 0%nat).

(** Letters and digits: [[A-Z0-9]] under the [i] flag. *)
Definition alnumChar (c : ascii) : bool :=
  Re.inRange 65 90 c || Re.inRange 97 122 c || Re.inRange 48 57 c.

(** [[-\s]] *)
Definition dashOrSpace (c : ascii) : bool := Ascii.eqb c "-" || Js.isSpace c.

(** [/(?:one-time code|verification code|code):\s*([A-Z0-9]{4}[-\s][A-Z0-9]{4})/i] *)
Definition deviceCodeRe : Re.pattern :=
  let four := Re.Seq (Re.Cls alnumChar) (Re.Seq (Re.Cls alnumChar)
              (Re.Seq (Re.Cls alnumChar) (Re.Cls alnumChar))) in
  Re.Pattern false true
    (Re.Seq (Re.Alt (Re.Lit "one-time code")
            (Re.Alt (Re.Lit "verification code") (Re.Lit "code")))
    (Re.Seq (Re.Lit ":")
    (Re.Seq (Re.StarG Js.isSpace)
            (Re.Grp 1 (Re.Seq four (Re.Seq (Re.Cls dashOrSpace) four)))))).

(** [/https:\/\/github\.com\/login\/device/i] *)
Definition deviceUrlRe : Re.pattern :=
  Re.Pattern false true (Re.Lit "https://github.com/login/device").

(** ** GitHub adapter (platform-adapters/github-adapter.ts) *)

(** [[A-Za-z0-9_.-]] *)
Definition nameChar (c : ascii) : bool :=
  Re.inRange 65 90 c || Re.inRange 97 122 c || Re.inRange 48 57 c ||
  Ascii.eqb c "_" || Ascii.eqb c "." || Ascii.eqb c "-".

(** [/^[A-Za-z0-9_.-]+\/[A-Za-z0-9_.-]+$/] *)
Definition repoFormatRe : Re.pattern :=
  Re.Pattern true false
    (Re.Seq (Re.PlusG nameChar)
    (Re.Seq (Re.Lit "/")
    (Re.Seq (Re.PlusG nameChar)
            Re.Eol))).

(** [/^[A-Za-z0-9_.-]+$/] *)
Definition repoNameRe : Re.pattern :=
  Re.Pattern true false (Re.Seq (Re.PlusG nameChar) Re.Eol).

Module GitHub.
Section Adapter.
Context `{Environment}.

(** [async getToken()] *)
Definition getToken : M string :=
  tryCatch
    (out <- execSync "gh auth token" None ;;
     let token := Js.trim out in
     if negb (Js.truthy token) then
       throw (PlatformAdapterError "No token found. Please authenticate first." "github" None)
     else ret token)
    (fun error =>
       throw (PlatformAdapterError "Failed to get GitHub token" "github" (Some error))).

(** [async getUser()] *)
Definition getUser : M PlatformUser :=
  tryCatch
    (userJson <- execSync "gh api user" None ;;
     user <- liftResult (JSON_parse userJson) ;;
     username <- liftResult (member user "login") ;;
     name <- liftResult (member user "name") ;;
     avatarUrl <- liftResult (member user "avatar_url") ;;
     ret (mkPlatformUser username name avatarUrl))
    (fun error =>
       throw (PlatformAdapterError "Failed to get GitHub user info" "github" (Some error))).

(** [async getBranches(repo)] *)
Definition getBranches (repo : string) : M (list string) :=
  tryCatch
    (if negb (Re.test repoFormatRe repo) then
       throw (Error "Error" "Invalid repository format. Expected: owner/repo")
     else
       let apiEndpoint := "repos/" ++ repo ++ "/branches" in
       output <- execFileSync "gh" ["api"; apiEndpoint; "--paginate"; "--jq"; ".[].name"] None ;;
       ret (nonEmptyLines output))
    (fun error =>
       throw (PlatformAdapterError ("Failed to get branches for " ++ repo) "github"
                (Some error))).

(** [async createRepo(options)] *)
Definition createRepo (options : CreateRepoOptions) : M CreateRepoResult :=
  tryCatch
    (if negb (Re.test repoNameRe (repoName options)) then
       throw (Error "Error"
         "Invalid repository name. Use only letters, numbers, hyphens, underscores, and periods.")
     else
       out <- execSync "gh api user --jq .login" None ;;
       let username := Js.trim out in
       let owner := orElse (repoOwner options) username in
       let isOrgRepo := negb (Js.seq owner username) in
       let repoFullName :=
         if isOrgRepo then owner ++ "/" ++ repoName options else repoName options in
       let args := ["repo"; "create"; repoFullName; "--source"; repoProjectPath options] in
       let args := (args ++ if flagSet (isPrivate options) then ["--private"] else ["--public"])%list in
       let args := (args ++ if optTruthy (description options)
                            then ["--description"; default "" (description options)]
                            else [])%list in
       let args := (args ++ ["--push"])%list in
       execFileSync "gh" args (Some (repoProjectPath options)) ;;;
       let fullName := owner ++ "/" ++ repoName options in
       let url := "https://github.com/" ++ fullName in
       ret (mkCreateRepoResult fullName url))
    (fun error =>
       throw (PlatformAdapterError "Failed to create GitHub repository" "github"
                (Some error))).

(** The inner [try] of [addGitRemote]: drop [origin] when there is one. *)
Definition removeOrigin (projectPath : string) : M unit :=
  tryCatch
    (execSync "git remote get-url origin" (Some projectPath) ;;;
     execSync "git remote remove origin" (Some projectPath) ;;;
     ret tt)
    (fun _ => ret tt).

(** [async addGitRemote(projectPath, repoFullName)] *)
Definition addGitRemote (projectPath repoFullName : string) : M string :=
  tryCatch
    (if negb (Re.test repoFormatRe repoFullName) then
       throw (Error "Error" "Invalid repository format. Expected: owner/repo")
     else
       let remoteUrl := "https://github.com/" ++ repoFullName ++ ".git" in
       removeOrigin projectPath ;;;
       execFileSync "git" ["remote"; "add"; "origin"; remoteUrl] (Some projectPath) ;;;
       ret remoteUrl)
    (fun error =>
       throw (PlatformAdapterError "Failed to add git remote" "github" (Some error))).

(** The body of the [for] loop of [listOrganizations]: a line that does
    not parse is skipped. *)
Definition pushOrg (orgs : list Organization) (line : string) : M (list Organization) :=
  tryCatch
    (org <- liftResult (JSON_parse line) ;;
     login <- liftResult (member org "login") ;;
     avatarUrl <- liftResult (member org "avatarUrl") ;;
     ret (orgs ++ [mkOrganization login avatarUrl])%list)
    (fun _ => ret orgs).

Fixpoint collectOrgs (orgs : list Organization) (lines : list string)
  : M (list Organization) :=
  match lines with
  | [] => ret orgs
  | line :: rest => orgs' <- pushOrg orgs line ;; collectOrgs orgs' rest
  end.

(** [async listOrganizations()] *)
Definition listOrganizations : M (list Organization) :=
  tryCatch
    (output <- execSync
       "gh api user/orgs --jq '.[] | {login: .login, avatarUrl: .avatar_url}'" None ;;
     collectOrgs [] (nonBlankLines output))
    (fun _ => ret []).

(** The variables of the [startAuth] closure, the suspended
    [tryExtractAndOpenBrowser] if any, the URLs handed to
    [shell.openExternal], and the returned promise. *)
Record AuthState : Type := mkAuthState {
  output : string;
  errorOutput : string;
  deviceCodeExtracted : bool;
  extractedDeviceCode : option string;
  extractedAuthUrl : string;
  browserOpenedSuccessfully : bool;
  extractionInProgress : bool;
  awaitingOpen : bool;
  openedUrls : list string;
  promise : Promise AuthStartResult
}.

Definition startAuthInvocation : Invocation :=
  Spawn "gh" ["auth"; "login"; "--web"; "--scopes"; "repo"] None.

Definition authInit : AuthState :=
  mkAuthState "" "" false None "https://github.com/login/device" false false false []
    Pending.

(** [tryExtractAndOpenBrowser], up to its [await]. *)
Definition tryExtractAndOpenBrowser (st : AuthState) : AuthState :=
  if deviceCodeExtracted st || extractionInProgress st then st
  else
    let combinedOutput := output st ++ String LF EmptyString ++ errorOutput st in
    let deviceCodeMatch := Re.exec deviceCodeRe combinedOutput in
    let urlMatch := Re.exec deviceUrlRe combinedOutput in
    match deviceCodeMatch with
    | Some m =>
        let code := replaceFirstSpace (default "" (m !! 1%nat)) in
        let url := match urlMatch with
                   | Some u => wholeMatch u
                   | None => extractedAuthUrl st
                   end in
        mkAuthState (output st) (errorOutput st) true (Some code) url
          (browserOpenedSuccessfully st) true true (openedUrls st ++ [url])%list
          (promise st)
    | None => st
    end.

(** The rest of [tryExtractAndOpenBrowser], after the [await]. *)
Definition afterOpen (opened : bool) (st : AuthState) : AuthState :=
  if awaitingOpen st then
    mkAuthState (output st) (errorOutput st) (deviceCodeExtracted st)
      (extractedDeviceCode st) (extractedAuthUrl st) opened false false
      (openedUrls st) (promise st)
  else st.

Definition settle (r : AuthStartResult) (st : AuthState) : AuthState :=
  mkAuthState (output st) (errorOutput st) (deviceCodeExtracted st)
    (extractedDeviceCode st) (extractedAuthUrl st) (browserOpenedSuccessfully st)
    (extractionInProgress st) (awaitingOpen st) (openedUrls st)
    (resolve r (promise st)).

(** [extractedDeviceCode || undefined] *)
Definition deviceCodeOrUndefined (st : AuthState) : option string :=
  extractedDeviceCode st ≫= orUndefined.

(** The ['close'] listener. *)
Definition onClose (code : option Z) (st : AuthState) : AuthState :=
  match code with
  | Some 0%Z =>
      settle (mkAuthStartResult true
                (Some (if browserOpenedSuccessfully st
                       then "Successfully authenticated with GitHub"
                       else "Authentication successful. Browser could not be opened automatically."))
                (deviceCodeOrUndefined st)
                (Some (extractedAuthUrl st))
                (Some (browserOpenedSuccessfully st))
                (if negb (browserOpenedSuccessfully st)
                 then Some (extractedAuthUrl st) else None)) st
  | _ =>
      settle (mkAuthStartResult false
                (Some "Authentication failed. Please visit the URL manually to complete authentication.")
                (deviceCodeOrUndefined st)
                (Some (extractedAuthUrl st))
                (Some (browserOpenedSuccessfully st))
                (Some (extractedAuthUrl st))) st
  end.

(** The ['error'] listener. *)
Definition onError (st : AuthState) : AuthState :=
  settle (mkAuthStartResult false
            (Some "Failed to start GitHub CLI. Please visit the URL manually to authenticate.")
            None None (Some false) (Some "https://github.com/login/device")) st.

Definition appendOutput (chunk : string) (st : AuthState) : AuthState :=
  mkAuthState (output st ++ chunk) (errorOutput st) (deviceCodeExtracted st)
    (extractedDeviceCode st) (extractedAuthUrl st) (browserOpenedSuccessfully st)
    (extractionInProgress st) (awaitingOpen st) (openedUrls st) (promise st).

Definition appendErrorOutput (chunk : string) (st : AuthState) : AuthState :=
  mkAuthState (output st) (errorOutput st ++ chunk) (deviceCodeExtracted st)
    (extractedDeviceCode st) (extractedAuthUrl st) (browserOpenedSuccessfully st)
    (extractionInProgress st) (awaitingOpen st) (openedUrls st) (promise st).

Definition authStep (st : AuthState) (ev : AuthEvent) : AuthState :=
  match ev with
  | StdoutData chunk => tryExtractAndOpenBrowser (appendOutput chunk st)
  | StderrData chunk => tryExtractAndOpenBrowser (appendErrorOutput chunk st)
  | OpenSettled opened => afterOpen opened st
  | Close code => onClose code st
  | ChildError _ => onError st
  end.

(** [async startAuth()]: the state after the executor ran and the given
    events arrived.  [spawnThrows] is a synchronous failure of [spawn],
    caught by the executor's [catch]; no listener is attached then. *)
Definition startAuth (spawnThrows : option JsError) (events : list AuthEvent)
  : AuthState :=
  match spawnThrows with
  | Some _ =>
      settle (mkAuthStartResult false
                (Some "An unexpected error occurred. Please visit the URL manually to authenticate.")
                None None (Some false) (Some "https://github.com/login/device"))
             authInit
  | None => fold_left authStep events authInit
  end.

(** [process.platform], read by [checkCliInstalled]. *)
Variable process_platform : string.

(** [async checkCliInstalled()] *)
Definition checkCliInstalled : M CliCheckResult :=
  tryCatch
    (let checkCmd := if Js.seq process_platform "win32" then "where gh" else "which gh" in
     execSync checkCmd None ;;;
     versionOutput <- execSync "gh --version" None ;;
     let version := head (splitLines (Js.trim versionOutput)) in
     ret (mkCliCheckResult true version))
    (fun _ => ret (mkCliCheckResult false None)).

(** [async checkAuthentication()] *)
Definition checkAuthentication : M AuthCheckResult :=
  tryCatch
    (execSync "gh auth status" None ;;;
     tryCatch
       (out <- execSync "gh api user --jq .login" None ;;
        let username := Js.trim out in
        ret (mkAuthCheckResult true (Some username)))
       (fun _ => ret (mkAuthCheckResult true None)))
    (fun _ => ret (mkAuthCheckResult false None)).

(** The callback of [repos.map] in [listRepos]. *)
Definition toRepository (repo : Json) : M Repository :=
  fullName <- liftResult (member repo "nameWithOwner") ;;
  description <- liftResult (member repo "description") ;;
  isPrivate <- liftResult (member repo "isPrivate") ;;
  nameWithOwner <- liftResult (member repo "nameWithOwner") ;;
  ret (mkRepository fullName description isPrivate
         (Some ("https://github.com/" ++ showValue nameWithOwner))).

(** [async listRepos(limit = 100)] *)
Definition listRepos (limit : option Z) : M (list Repository) :=
  tryCatch
    (output <- execSync
       ("gh repo list --limit " ++ numberText (default 100%Z limit) ++
        " --json nameWithOwner,description,isPrivate") None ;;
     repos <- liftResult (JSON_parse output) ;;
     arrayMap repos toRepository)
    (fun error =>
       throw (PlatformAdapterError "Failed to list GitHub repositories" "github"
                (Some error))).

(** [async detectRepo(projectPath)] *)
Definition detectRepo (projectPath : string) : M (option string) :=
  tryCatch
    (out <- execSync "git remote get-url origin" (Some projectPath) ;;
     let remoteUrl := Js.trim out in
     match Re.exec githubRepoRe remoteUrl with
     | Some m => ret (m !! 1%nat)
     | None => ret None
     end)
    (fun _ => ret None).

(** [async getReleaseUrl(projectPath, tagName)]; [None] is [undefined]. *)
Definition getReleaseUrl (projectPath tagName : string) : M (option string) :=
  tryCatch
    (out <- execSync ("gh release view " ++ tagName ++ " --json url -q .url 2>/dev/null")
                     (Some projectPath) ;;
     ret (orUndefined (Js.trim out)))
    (fun _ => ret None).

(** The promise around the spawned [gh release create]. *)
Definition awaitChild (child : ChildEnd) : M string :=
  match child with
  | Exited (Some 0%Z) stdout _ => ret (Js.trim stdout)
  | Exited code _ stderr =>
      throw (Error "Error"
               (if Js.truthy stderr then stderr
                else "gh exited with code " ++ showCode code))
  | Failed e => throw e
  end.

(** The arguments [createRelease] hands to [gh]. *)
Definition releaseArgs (options : CreateReleaseOptions) : list string :=
  let args := ["release"; "create"; tagName options; "--title"; title options;
               "--notes"; body options] in
  let args := (args ++ if flagSet (draft options) then ["--draft"] else [])%list in
  (args ++ if flagSet (prerelease options) then ["--prerelease"] else [])%list.

(** [async createRelease(options)] *)
Definition createRelease (options : CreateReleaseOptions) : M CreateReleaseResult :=
  tryCatch
    (child <- spawnAndWait "gh" (releaseArgs options) (Some (projectPath options)) ;;
     result <- awaitChild child ;;
     releaseUrl <-
       (if negb (Js.startsWith "http" result) then
          found <- getReleaseUrl (projectPath options) (tagName options) ;;
          ret (default "" found)
        else ret result) ;;
     ret (mkCreateReleaseResult true (orUndefined releaseUrl) (Some (tagName options)) None))
    (fun error =>
       ret (mkCreateReleaseResult false None None (Some (errorMessage error)))).

End Adapter.
End GitHub.

(** ** GitLab adapter (platform-adapters/gitlab-adapter.ts) *)

Module GitLab.
Section Adapter.
Context `{Environment}.
Variable platform : GitPlatform.

(** [private getHost()] *)
Definition getHost : string := host platform.

(** [private getHostnameArgs()] *)
Definition getHostnameArgs : list string :=
  if isSelfHosted platform then ["--hostname"; getHost] else [].

(** [if (this.platform.isSelfHosted) args.push(...this.getHostnameArgs())] *)
Definition pushHostname (args : list string) : list string :=
  if isSelfHosted platform then (args ++ getHostnameArgs)%list else args.

(** [private async getProjectId(fullPath)] *)
Definition getProjectId (fullPath : string) : M JsNumber :=
  w <- getWorld ;;
  match projectIdCache w !! fullPath with
  | Some id => ret id
  | None =>
      tryCatch
        (let encodedPath := encodeURIComponent fullPath in
         let args := pushHostname ["api"; "projects/" ++ encodedPath; "--jq"; ".id"] in
         output <- execFileSync "glab" args None ;;
         let projectId := parseInt (Js.trim output) in
         modify (fun w => setProjectIdCache (<[fullPath := projectId]> (projectIdCache w)) w) ;;;
         ret projectId)
        (fun error =>
           throw (PlatformAdapterError ("Failed to get project ID for " ++ fullPath)
                    "gitlab" (Some error)))
  end.

(** [process.env.HOME || process.env.USERPROFILE] *)
Definition homeDir : option string :=
  if optTruthy env_HOME then env_HOME
  else if optTruthy env_USERPROFILE then env_USERPROFILE
  else None.

(** [async getToken()]; the token is whatever the YAML file holds. *)
Definition getToken : M Json :=
  tryCatch
    (match homeDir with
     | None => throw (Error "Error" "Could not determine home directory")
     | Some homeDir =>
         let configPath := path_join [homeDir; ".config"; "glab-cli"; "config.yml"] in
         present <- existsSync configPath ;;
         if negb present then
           throw (PlatformAdapterError
                    "GitLab config file not found. Please authenticate first." "gitlab" None)
         else
           configContent <- readFileSync configPath ;;
           config <- liftResult (loadYaml configContent) ;;
           let hostConfig := optProp (optProp (Some config) "hosts") getHost in
           match optProp hostConfig "token" with
           | Some token =>
               if jsonTruthy (Some token) then ret token
               else throw (PlatformAdapterError
                      ("No token found for " ++ getHost ++ ". Please authenticate first.")
                      "gitlab" None)
           | None =>
               throw (PlatformAdapterError
                      ("No token found for " ++ getHost ++ ". Please authenticate first.")
                      "gitlab" None)
           end
     end)
    (fun error =>
       throw (PlatformAdapterError "Failed to get GitLab token" "gitlab" (Some error))).

(** [async getUser()] *)
Definition getUser : M PlatformUser :=
  tryCatch
    (userJson <- execFileSync "glab" (pushHostname ["api"; "/user"]) None ;;
     user <- liftResult (JSON_parse userJson) ;;
     username <- liftResult (member user "username") ;;
     name <- liftResult (member user "name") ;;
     avatarUrl <- liftResult (member user "avatar_url") ;;
     ret (mkPlatformUser username name avatarUrl))
    (fun error =>
       throw (PlatformAdapterError "Failed to get GitLab user info" "gitlab" (Some error))).

(** [m?.[1]] *)
Definition group1 (m : option Re.captures) : option string := m ≫= (.!! 1%nat).

(** [async detectRepo(projectPath)]; the two patterns are built from the
    host at run time. *)
Definition detectRepo (projectPath : string) : M (option string) :=
  tryCatch
    (out <- execSync "git remote get-url origin" (Some projectPath) ;;
     let remoteUrl := Js.trim out in
     let hostEscaped := escapeDots getHost in
     sshRe <- liftResult
       (newRegExp ("git@" ++ hostEscaped ++ ":([^/]+\/[^/]+?)(?:\.git)?$") "") ;;
     let sshMatch := Re.exec sshRe remoteUrl in
     httpsRe <- liftResult
       (newRegExp ("https?://" ++ hostEscaped ++ "/([^/]+\/[^/]+?)(?:\.git)?$") "") ;;
     let httpsMatch := Re.exec httpsRe remoteUrl in
     ret (if optTruthy (group1 sshMatch) then group1 sshMatch
          else if optTruthy (group1 httpsMatch) then group1 httpsMatch
          else None))
    (fun _ => ret None).

(** [async getBranches(repo)] *)
Definition getBranches (repo : string) : M (list string) :=
  tryCatch
    (projectId <- getProjectId repo ;;
     let args := pushHostname
       ["api"; "projects/" ++ showNumber projectId ++ "/repository/branches";
        "--jq"; ".[].name"] in
     output <- execFileSync "glab" args None ;;
     ret (nonEmptyLines output))
    (fun error =>
       throw (PlatformAdapterError ("Failed to get branches for " ++ repo) "gitlab"
                (Some error))).

(** [async createRepo(options)] *)
Definition createRepo (options : CreateRepoOptions) : M CreateRepoResult :=
  tryCatch
    (let args := ["repo"; "create"; repoName options; "--source"; repoProjectPath options] in
     let args := (args ++ if flagSet (isPrivate options) then ["--private"] else ["--public"])%list in
     let args := (args ++ if optTruthy (description options)
                          then ["--description"; default "" (description options)]
                          else [])%list in
     let args := pushHostname args in
     execFileSync "glab" args (Some (repoProjectPath options)) ;;;
     user <- getUser ;;
     let owner := if optTruthy (repoOwner options)
                  then JStr <$> repoOwner options
                  else username user in
     let fullName := showValue owner ++ "/" ++ repoName options in
     let url := "https://" ++ getHost ++ "/" ++ fullName in
     ret (mkCreateRepoResult fullName url))
    (fun error =>
       throw (PlatformAdapterError "Failed to create GitLab repository" "gitlab"
                (Some error))).

(** The inner [try] of [addGitRemote]. *)
Definition removeOrigin (projectPath : string) : M unit :=
  tryCatch
    (execSync "git remote get-url origin" (Some projectPath) ;;;
     execSync "git remote remove origin" (Some projectPath) ;;;
     ret tt)
    (fun _ => ret tt).

(** [async addGitRemote(projectPath, repoFullName)] *)
Definition addGitRemote (projectPath repoFullName : string) : M string :=
  tryCatch
    (let remoteUrl := "https://" ++ getHost ++ "/" ++ repoFullName ++ ".git" in
     removeOrigin projectPath ;;;
     execFileSync "git" ["remote"; "add"; "origin"; remoteUrl] (Some projectPath) ;;;
     ret remoteUrl)
    (fun error =>
       throw (PlatformAdapterError "Failed to add git remote" "gitlab" (Some error))).

(** The body of the [for] loop of [listOrganizations]. *)
Definition pushOrg (orgs : list Organization) (line : string) : M (list Organization) :=
  tryCatch
    (org <- liftResult (JSON_parse line) ;;
     login <- liftResult (member org "login") ;;
     avatarUrl <- liftResult (member org "avatarUrl") ;;
     ret (orgs ++ [mkOrganization login avatarUrl])%list)
    (fun _ => ret orgs).

Fixpoint collectOrgs (orgs : list Organization) (lines : list string)
  : M (list Organization) :=
  match lines with
  | [] => ret orgs
  | line :: rest => orgs' <- pushOrg orgs line ;; collectOrgs orgs' rest
  end.

(** [async listOrganizations()] *)
Definition listOrganizations : M (list Organization) :=
  tryCatch
    (output <- execFileSync "glab"
       (pushHostname ["api"; "/groups"; "--jq"; ".[] | {login: .path, avatarUrl: .avatar_url}"])
       None ;;
     collectOrgs [] (nonBlankLines output))
    (fun _ => ret []).

(** [async getReleaseUrl(projectPath, tagName)]; [None] is [undefined]. *)
Definition getReleaseUrl (projectPath tagName : string) : M (option string) :=
  tryCatch
    (repo <- detectRepo projectPath ;;
     match repo with
     | None => ret None
     | Some repo =>
         if negb (Js.truthy repo) then ret None
         else
           projectId <- getProjectId repo ;;
           let args := pushHostname
             ["api"; "projects/" ++ showNumber projectId ++ "/releases/" ++ tagName;
              "--jq"; ".'_links'.self"] in
           out <- execFileSync "glab" args None ;;
           ret (orUndefined (Js.trim out))
     end)
    (fun _ => ret None).

(** The name [createRelease] gives its notes file at time [now]. *)
Definition notesFileName (now : N) : string :=
  "glab-release-notes-" ++ showZ (Z.of_N now) ++ ".md".

(** The promise around the spawned [glab release create]: fulfilled with
    the trimmed stdout on exit code 0, rejected otherwise. *)
Definition awaitChild (child : ChildEnd) : M string :=
  match child with
  | Exited (Some 0%Z) stdout _ => ret (Js.trim stdout)
  | Exited code _ stderr =>
      throw (Error "Error"
               (if Js.truthy stderr then stderr
                else "glab exited with code " ++ showCode code))
  | Failed e => throw e
  end.

(** The [finally] block of [createRelease]. *)
Definition cleanupNotes (notesFile : string) : M unit :=
  present <- (if Js.truthy notesFile then existsSync notesFile else ret false) ;;
  if present then tryCatch (unlinkSync notesFile) (fun _ => ret tt)
  else ret tt.

(** [async createRelease(options)].  [notesFile] is assigned by the first
    statement of the [try], which cannot throw, so it is bound up front. *)
Definition createRelease (options : CreateReleaseOptions) : M CreateReleaseResult :=
  w0 <- getWorld ;;
  let notesFile := path_join [os_tmpdir; notesFileName (Date_now w0)] in
  tryFinally
    (tryCatch
       (writeFileSync notesFile (body options) ;;;
        let args := pushHostname
          ["release"; "create"; tagName options; "--notes-file"; notesFile] in
        child <- spawnAndWait "glab" args (Some (projectPath options)) ;;
        awaitChild child ;;;
        releaseUrl <- getReleaseUrl (projectPath options) (tagName options) ;;
        ret (mkCreateReleaseResult true releaseUrl (Some (tagName options)) None))
       (fun error =>
          ret (mkCreateReleaseResult false None None (Some (errorMessage error)))))
    (cleanupNotes notesFile).

Record AuthState : Type := mkAuthState {
  output : string;
  errorOutput : string;
  authUrlExtracted : bool;
  extractedAuthUrl : string;
  browserOpenedSuccessfully : bool;
  extractionInProgress : bool;
  awaitingOpen : bool;
  openedUrls : list string;
  promise : Promise AuthStartResult
}.

Definition startAuthInvocation : Invocation :=
  Spawn "glab" (pushHostname ["auth"; "login"]) None.

Definition authInit : AuthState :=
  mkAuthState "" "" false ("https://" ++ getHost ++ "/oauth/authorize") false false
    false [] Pending.

(** [tryExtractAndOpenBrowser], up to its [await].  When the pattern built
    from the host does not compile, the function ends by a rejection nobody
    observes and [extractionInProgress] stays set. *)
Definition tryExtractAndOpenBrowser (st : AuthState) : AuthState :=
  if authUrlExtracted st || extractionInProgress st then st
  else
    let combinedOutput := output st ++ String LF EmptyString ++ errorOutput st in
    match newRegExp ("https://" ++ escapeDots getHost ++ "/[^\s]+") "i" with
    | inl _ =>
        mkAuthState (output st) (errorOutput st) (authUrlExtracted st)
          (extractedAuthUrl st) (browserOpenedSuccessfully st) true
          (awaitingOpen st) (openedUrls st) (promise st)
    | inr urlPattern =>
        match Re.exec urlPattern combinedOutput with
        | Some urlMatch =>
            let url := wholeMatch urlMatch in
            mkAuthState (output st) (errorOutput st) true url
              (browserOpenedSuccessfully st) true true (openedUrls st ++ [url])%list
              (promise st)
        | None => st
        end
    end.

(** The rest of [tryExtractAndOpenBrowser], after the [await]. *)
Definition afterOpen (opened : bool) (st : AuthState) : AuthState :=
  if awaitingOpen st then
    mkAuthState (output st) (errorOutput st) (authUrlExtracted st)
      (extractedAuthUrl st) opened false false (openedUrls st) (promise st)
  else st.

Definition settle (r : AuthStartResult) (st : AuthState) : AuthState :=
  mkAuthState (output st) (errorOutput st) (authUrlExtracted st)
    (extractedAuthUrl st) (browserOpenedSuccessfully st)
    (extractionInProgress st) (awaitingOpen st) (openedUrls st)
    (resolve r (promise st)).

(** The ['close'] listener. *)
Definition onClose (code : option Z) (st : AuthState) : AuthState :=
  match code with
  | Some 0%Z =>
      settle (mkAuthStartResult true
                (Some (if browserOpenedSuccessfully st
                       then "Successfully authenticated with GitLab"
                       else "Authentication successful. Browser could not be opened automatically."))
                None
                (Some (extractedAuthUrl st))
                (Some (browserOpenedSuccessfully st))
                (if negb (browserOpenedSuccessfully st)
                 then Some (extractedAuthUrl st) else None)) st
  | _ =>
      settle (mkAuthStartResult false
                (Some "Authentication failed. Please visit the URL manually to complete authentication.")
                None
                (Some (extractedAuthUrl st))
                (Some (browserOpenedSuccessfully st))
                (Some (extractedAuthUrl st))) st
  end.

(** The ['error'] listener. *)
Definition onError (st : AuthState) : AuthState :=
  settle (mkAuthStartResult false
            (Some "Failed to start GitLab CLI. Please visit the URL manually to authenticate.")
            None None (Some false)
            (Some ("https://" ++ getHost ++ "/oauth/authorize"))) st.

Definition appendOutput (chunk : string) (st : AuthState) : AuthState :=
  mkAuthState (output st ++ chunk) (errorOutput st) (authUrlExtracted st)
    (extractedAuthUrl st) (browserOpenedSuccessfully st)
    (extractionInProgress st) (awaitingOpen st) (openedUrls st) (promise st).

Definition appendErrorOutput (chunk : string) (st : AuthState) : AuthState :=
  mkAuthState (output st) (errorOutput st ++ chunk) (authUrlExtracted st)
    (extractedAuthUrl st) (browserOpenedSuccessfully st)
    (extractionInProgress st) (awaitingOpen st) (openedUrls st) (promise st).

Definition authStep (st : AuthState) (ev : AuthEvent) : AuthState :=
  match ev with
  | StdoutData chunk => tryExtractAndOpenBrowser (appendOutput chunk st)
  | StderrData chunk => tryExtractAndOpenBrowser (appendErrorOutput chunk st)
  | OpenSettled opened => afterOpen opened st
  | Close code => onClose code st
  | ChildError _ => onError st
  end.

(** [async startAuth()], as for GitHub. *)
Definition startAuth (spawnThrows : option JsError) (events : list AuthEvent)
  : AuthState :=
  match spawnThrows with
  | Some _ =>
      settle (mkAuthStartResult false
                (Some "An unexpected error occurred. Please visit the URL manually to authenticate.")
                None None (Some false)
                (Some ("https://" ++ getHost ++ "/oauth/authorize")))
             authInit
  | None => fold_left authStep events authInit
  end.

(** [process.platform], read by [checkCliInstalled]. *)
Variable process_platform : string.

(** [async checkCliInstalled()] *)
Definition checkCliInstalled : M CliCheckResult :=
  tryCatch
    (let checkCmd := if Js.seq process_platform "win32" then "where glab" else "which glab" in
     execSync checkCmd None ;;;
     versionOutput <- execSync "glab --version" None ;;
     let version := head (splitLines (Js.trim versionOutput)) in
     ret (mkCliCheckResult true version))
    (fun _ => ret (mkCliCheckResult false None)).

(** [async checkAuthentication()] *)
Definition checkAuthentication : M AuthCheckResult :=
  tryCatch
    (execFileSync "glab" (pushHostname ["auth"; "status"]) None ;;;
     tryCatch
       (out <- execFileSync "glab"
                 (pushHostname ["api"; "/user"; "--jq"; ".username"]) None ;;
        let username := Js.trim out in
        ret (mkAuthCheckResult true (Some username)))
       (fun _ => ret (mkAuthCheckResult true None)))
    (fun _ => ret (mkAuthCheckResult false None)).

(** The body of the [for] loop of [listRepos]. *)
Definition pushRepo (repos : list Repository) (line : string) : list Repository :=
  let fullName := Js.trim line in
  if Js.truthy fullName && Js.includes fullName "/" then
    let url := "https://" ++ getHost ++ "/" ++ fullName in
    (repos ++ [mkRepository (Some (JStr fullName)) (Some JNull) (Some (JBool false))
                 (Some url)])%list
  else repos.

(** [async listRepos(limit = 100)] *)
Definition listRepos (limit : option Z) : M (list Repository) :=
  tryCatch
    (output <- execFileSync "glab" (pushHostname ["repo"; "list"]) None ;;
     let lines := nonBlankLines output in
     ret (fold_left pushRepo (sliceTo (default 100%Z limit) lines) []))
    (fun error =>
       throw (PlatformAdapterError "Failed to list GitLab repositories" "gitlab"
                (Some error))).

End Adapter.
End GitLab.

(** ** The release handler (ipc-handlers/platform/release-handlers.ts) *)

(** What the handler reads of a project of the project store. *)
Record Project : Type := mkProject {
  path : string
}.

(** The [options] argument of the handler. *)
Record ReleaseOptions : Type := mkReleaseOptions {
  releaseDraft : option bool;
  releasePrerelease : option bool
}.

(** [IPCResult<{ url: string }>] *)
Record IPCResult : Type := mkIPCResult {
  ipcSuccess : bool;
  ipcUrl : option string;
  ipcError : option string
}.

(** A double quote, for the messages that hold one. *)
Definition quote : string := String "034"%char EmptyString.

Section ReleaseHandlers.
Context `{Environment}.
Variable process_platform : string.

(** [adapter.checkCliInstalled()] on either class. *)
Definition adapterCheckCliInstalled (adapter : PlatformAdapter) : M CliCheckResult :=
  match adapter with
  | GitHubAdapter _ => GitHub.checkCliInstalled process_platform
  | GitLabAdapter _ => GitLab.checkCliInstalled process_platform
  end.

(** [adapter.checkAuthentication()] *)
Definition adapterCheckAuthentication (adapter : PlatformAdapter) : M AuthCheckResult :=
  match adapter with
  | GitHubAdapter _ => GitHub.checkAuthentication
  | GitLabAdapter platform => GitLab.checkAuthentication platform
  end.

(** [adapter.createRelease(options)] *)
Definition adapterCreateRelease (adapter : PlatformAdapter)
    (options : CreateReleaseOptions) : M CreateReleaseResult :=
  match adapter with
  | GitHubAdapter _ => GitHub.createRelease options
  | GitLabAdapter platform => GitLab.createRelease platform options
  end.

(** [version.startsWith('v') ? version : `v${version}`] *)
Definition releaseTag (version : string) : string :=
  if Js.startsWith "v" version then version else "v" ++ version.

(** The options the handler hands to [adapter.createRelease]. *)
Definition releaseRequest (project : Project) (version releaseNotes : string)
    (options : option ReleaseOptions) : CreateReleaseOptions :=
  let tag := releaseTag version in
  mkCreateReleaseOptions (path project) version tag tag releaseNotes
    (options ≫= releaseDraft) (options ≫= releasePrerelease).

(** The handler [registerCreateRelease] installs; [project] is what
    [projectStore.getProject(projectId)] returned. *)
Definition createReleaseHandler (project : option Project)
    (version releaseNotes : string) (options : option ReleaseOptions) : M IPCResult :=
  match project with
  | None => ret (mkIPCResult false None (Some "Project not found"))
  | Some project =>
      tryCatch
        (platform <- detectGitPlatform (path project) noOptions ;;
         match platform with
         | None =>
             ret (mkIPCResult false None
                    (Some "Could not detect platform. Make sure the project has a git remote configured."))
         | Some platform =>
             let platformName := getPlatformDisplayName (inr platform) in
             let cliName := getPlatformCliName (inr platform) in
             adapter <- liftResult (createAdapter platform) ;;
             cliCheck <- adapterCheckCliInstalled adapter ;;
             if negb (installed cliCheck) then
               ret (mkIPCResult false None
                      (Some (platformName ++ " CLI (" ++ cliName ++
                             ") not found. Please install it first.")))
             else
               authCheck <- adapterCheckAuthentication adapter ;;
               if negb (authenticated authCheck) then
                 ret (mkIPCResult false None
                        (Some ("Not authenticated with " ++ platformName ++ ". Run " ++
                               quote ++ cliName ++ " auth login" ++ quote ++
                               " in terminal first.")))
               else
                 releaseResult <-
                   adapterCreateRelease adapter
                     (releaseRequest project version releaseNotes options) ;;
                 if negb (success releaseResult) then
                   ret (mkIPCResult false None
                          (Some (orElse (error releaseResult) "Failed to create release")))
                 else
                   ret (mkIPCResult true (Some (orElse (releaseUrl releaseResult) ""))
                          None)
         end)
        (fun error => ret (mkIPCResult false None (Some (errorMessage error))))
  end.

End ReleaseHandlers.

(** ** Vocabulary of the properties *)

(** [s] is one path segment: it has no [/]. *)
Definition noSlash (s : string) : bool := allChars (Re.notChar "/") s.

(** The number of occurrences of [c] in [s]. *)
Fixpoint countChar (c : ascii) (s : string) : nat :=
  match s with
  | EmptyString => 0
  | String x s' => (if Ascii.eqb x c then 1 else 0) + countChar c s'
  end.


(** Whatever [m] throws is a [PlatformAdapterError] for [platformName]
    that carries a cause. *)
Definition throwsOnlyFor {A} (platformName : string) (m : M A) : Prop :=
  ∀ w e w', m w = (inl e, w') →
    ∃ msg cause, e = PlatformAdapterError msg platformName (Some cause).

(** [m] never throws. *)
Definition neverThrows {A} (m : M A) : Prop :=
  ∀ w, ∃ a w', m w = (inr a, w').

Definition invalidFormat : JsError :=
  Error "Error" "Invalid repository format. Expected: owner/repo".


(** The world right after the child process [i] ended leaving files [fs]. *)
Definition after (i : Invocation) (fs : gmap string string) (w : World) : World :=
  setFiles fs (logInvocation i w).


(** The child processes a computation starts are added to the trace. *)
Definition traceGrows {A} (m : M A) : Prop :=
  ∀ w, ∃ later, trace (m w).2 = (trace w ++ later)%list.

(** The world once [data] was written to [path]. *)
Definition withFile (path data : string) (w : World) : World :=
  setFiles (<[path := data]> (files w)) w.

(** The result of a release that failed with [msg]. *)
Definition releaseFailure (msg : string) : CreateReleaseResult :=
  mkCreateReleaseResult false None None (Some msg).

(** The message of the error a child's end is turned into, if any. *)
Definition childFailureMessage (child : ChildEnd) : option string :=
  match child with
  | Exited (Some 0%Z) _ _ => None
  | Exited code _ stderr =>
      Some (if Js.truthy stderr then stderr
            else "glab exited with code " ++ showCode code)
  | Failed e => Some (errorMessage e)
  end.

(** An event that leaves the login child running: output, or the end of
    the browser launch. *)
Definition keepsRunning (ev : AuthEvent) : bool :=
  match ev with
  | Close _ | ChildError _ => false
  | StdoutData _ | StderrData _ | OpenSettled _ => true
  end.

(** [code === 0] *)
Definition exitedCleanly (code : option Z) : bool :=
  match code with Some 0%Z => true | _ => false end.

(** What the ['close'] listener resolves with, apart from the message and
    the device code: success by the exit code alone, the browser flag as
    it stands, and the URL to fall back on. *)
Definition closeOutcome (code : option Z) (opened : bool) (url : string)
    (r : AuthStartResult) : Prop :=
  authSuccess r = exitedCleanly code ∧
  authUrl r = Some url ∧
  browserOpened r = Some opened ∧
  fallbackUrl r = (if exitedCleanly code && opened then None else Some url).

Section Vocabulary.
Context `{Environment}.
Variable platform : GitPlatform.

(** The notes file of a [createRelease] that starts in world [w]. *)
Definition notesFileOf (w : World) : string :=
  path_join [os_tmpdir; GitLab.notesFileName (Date_now w)].

(** The [glab release create] child of [createRelease]. *)
Definition releaseInvocation (options : CreateReleaseOptions) (notesFile : string)
  : Invocation :=
  Spawn "glab"
    (GitLab.pushHostname platform
       ["release"; "create"; tagName options; "--notes-file"; notesFile])
    (Some (projectPath options)).

(** The one child process a detection starts. *)
Definition remoteQuery (projectPath : string) (options : DetectOptions) : Invocation :=
  ExecSync ("git remote get-url " ++ default "origin" (remoteName options))
           (Some (path_resolve projectPath)).

(** What a detection finds, from the outcome of that process. *)
Definition detected (outcome : JsError + string) : option GitPlatform :=
  match outcome with
  | inl _ => None
  | inr out => if Js.truthy (Js.trim out) then parseGitRemoteUrl (Js.trim out) else None
  end.



(** The first child process of [GitLab.getBranches] for a repository
    whose project id is not cached, and for one whose id is. *)
Definition gitlabFirstCall (repo : string) (w : World) : Invocation :=
  match projectIdCache w !! repo with
  | None =>
      ExecFileSync "glab"
        (GitLab.pushHostname platform
           ["api"; "projects/" ++ encodeURIComponent repo; "--jq"; ".id"]) None
  | Some projectId =>
      ExecFileSync "glab"
        (GitLab.pushHostname platform
           ["api"; "projects/" ++ showNumber projectId ++ "/repository/branches";
            "--jq"; ".[].name"]) None
  end.


Definition glabProjectQuery (repo : string) : Invocation :=
  ExecFileSync "glab"
    (GitLab.pushHostname platform
       ["api"; "projects/" ++ encodeURIComponent repo; "--jq"; ".id"]) None.



End Vocabulary.

(** The part of the last path segment [seg] that the lazy group
    [([^/]+?)] before [(?:\.git)?$] captures: the shortest non-empty
    prefix that leaves [.git] or nothing. *)
Fixpoint lazyCut (seg : string) : string :=
  match seg with
  | EmptyString => EmptyString
  | String a rest =>
      if String.eqb rest ".git" || String.eqb rest ""
      then String a EmptyString
      else String a (lazyCut rest)
  end.

(** Every descriptor in the detection cache was built by
    [createPlatform]: the only writer of the cache stores what the parser
    returned. *)
Definition cacheSound (w : World) : Prop :=
  ∀ k p, platformCache w !! k = Some (Some p) → ∃ h o r, p = createPlatform h o r.

Definition couldNotDetect : JsError :=
  Error "Error"
    "Could not detect git platform. Make sure the project has a git remote configured.".



(** A single line: no line feed in it. *)
Definition oneLine (s : string) : bool := allChars (Re.notChar LF) s.


(** The message of the error the end of a [cli] child is turned into. *)
Definition childFailure (cli : string) (child : ChildEnd) : option string :=
  match child with
  | Exited (Some 0%Z) _ _ => None
  | Exited code _ stderr =>
      Some (if Js.truthy stderr then stderr
            else cli ++ " exited with code " ++ showCode code)
  | Failed e => Some (errorMessage e)
  end.

Section Probes.
Context `{Environment}.


(** What [checkAuthentication] reports when [status] is its first command
    and [user] its second: authenticated exactly when the first succeeds,
    with the trimmed output of the second as user name when that one
    succeeds too. *)
Definition authProbed (status user : Invocation) (w : World) (r : AuthCheckResult)
  : Prop :=
  (authenticated r = true ↔ ∃ out fs, runSync status w = (inr out, fs)) ∧
  (∀ name, authUsername r = Some name ↔
     ∃ out fs out' fs',
       runSync status w = (inr out, fs) ∧
       runSync user (after status fs w) = (inr out', fs') ∧
       name = Js.trim out').

(** The release child of [GitHub.createRelease] and its follow-up query. *)
Definition ghReleaseInvocation (options : CreateReleaseOptions) : Invocation :=
  Spawn "gh" (GitHub.releaseArgs options) (Some (projectPath options)).

Definition ghReleaseQuery (options : CreateReleaseOptions) : Invocation :=
  ExecSync ("gh release view " ++ tagName options ++ " --json url -q .url 2>/dev/null")
           (Some (projectPath options)).

End Probes.

(** An entry of [GitLab.listRepos] for the instance [hostName]: a
    trimmed name with a slash, and the fields the code fills in blindly. *)
Definition listedFrom (hostName : string) (r : Repository) : Prop :=
  ∃ n, listedFullName r = Some (JStr n) ∧
       n ≠ "" ∧ Js.trim n = n ∧ Js.includes n "/" = true ∧
       listedUrl r = Some ("https://" ++ hostName ++ "/" ++ n) ∧
       listedDescription r = Some JNull ∧
       listedIsPrivate r = Some (JBool false).

(** An entry of [GitHub.listRepos] made from the parsed element [item]. *)
Definition listedOf (item : Json) (r : Repository) : Prop :=
  item ≠ JNull ∧
  listedFullName r = getProp item "nameWithOwner" ∧
  listedDescription r = getProp item "description" ∧
  listedIsPrivate r = getProp item "isPrivate" ∧
  listedUrl r = Some ("https://github.com/" ++ showValue (getProp item "nameWithOwner")).

Definition ghListQuery (limit : option Z) : Invocation :=
  ExecSync ("gh repo list --limit " ++ numberText (default 100%Z limit) ++
            " --json nameWithOwner,description,isPrivate") None.

(** A [glab] child started with an argument list names the instance
    when the list ends with [--hostname <host>]. *)
Definition namesHost (platform : GitPlatform) (i : Invocation) : Prop :=
  match i with
  | ExecFileSync file args _ | Spawn file args _ =>
      file = "glab" → ∃ pre, args = (pre ++ ["--hostname"; host platform])%list
  | ExecSync _ _ => True
  end.

(** Every child process [m] starts satisfies [P]. *)
Definition starts (P : Invocation → Prop) {A} (m : M A) : Prop :=
  ∀ w, ∃ later, trace (m w).2 = (trace w ++ later)%list ∧ Forall P later.

(** A device code as [gh] prints it and [startAuth] stores it: four
    letters or digits, a separator that is not a plain space, and four
    more. *)
Definition deviceCodeShape (code : string) : Prop :=
  ∃ a sep b,
    code = a ++ String sep b ∧
    String.length a = 4%nat ∧ String.length b = 4%nat ∧
    allChars alnumChar a = true ∧ allChars alnumChar b = true ∧
    dashOrSpace sep = true ∧ sep ≠ " "%char.

(** The device login page of GitHub, in any spelling of upper and lower
    case. *)
Definition devicePage (u : string) : Prop :=
  Js.toLowerCase u = "https://github.com/login/device".

(** What a settled login may tell its caller. *)
Definition loginResultOk (p : Promise AuthStartResult) : Prop :=
  ∀ r, p = Fulfilled r →
    (∀ code, deviceCode r = Some code → deviceCodeShape code) ∧
    (∀ u, authUrl r = Some u → devicePage u) ∧
    (∀ u, fallbackUrl r = Some u → devicePage u).

(** The browser was not opened, or was opened once with the URL kept. *)
Definition githubOpened (st : GitHub.AuthState) : Prop :=
  GitHub.openedUrls st = [] ∧ GitHub.deviceCodeExtracted st = false ∨
  GitHub.openedUrls st = [GitHub.extractedAuthUrl st] ∧
  GitHub.deviceCodeExtracted st = true.

Definition gitlabOpened (st : GitLab.AuthState) : Prop :=
  GitLab.openedUrls st = [] ∧ GitLab.authUrlExtracted st = false ∨
  GitLab.openedUrls st = [GitLab.extractedAuthUrl st] ∧
  GitLab.authUrlExtracted st = true.

(** What the GitHub login keeps true of its closure. *)
Definition githubLoginOk (st : GitHub.AuthState) : Prop :=
  devicePage (GitHub.extractedAuthUrl st) ∧
  Forall devicePage (GitHub.openedUrls st) ∧
  (∀ code, GitHub.extractedDeviceCode st = Some code → deviceCodeShape code) ∧
  loginResultOk (GitHub.promise st).

(** A child process that was not started with [spawn]. *)
Definition notSpawn (i : Invocation) : Prop :=
  match i with Spawn _ _ _ => False | _ => True end.

Section HandlerVocabulary.
Context `{Environment}.
Variable process_platform : string.

(** The handler got as far as asking for the release: the project is
    known, its platform was detected and has an adapter, and that
    adapter found its tool installed and the user authenticated.  [w3] is
    the state in which the release is then asked for. *)
Definition checksPassed (project : option Project) (w w3 : World)
    (adapter : PlatformAdapter) : Prop :=
  ∃ known platform w1 cliCheck w2 authCheck,
    project = Some known ∧
    detectGitPlatform (path known) noOptions w = (inr (Some platform), w1) ∧
    createAdapter platform = inr adapter ∧
    adapterCheckCliInstalled process_platform adapter w1 = (inr cliCheck, w2) ∧
    installed cliCheck = true ∧
    adapterCheckAuthentication adapter w2 = (inr authCheck, w3) ∧
    authenticated authCheck = true.

End HandlerVocabulary.

(** The visibility [createRepo] asks for: private only when
    [options.isPrivate] is true. *)
Definition visibilityFlag (options : CreateRepoOptions) : string :=
  if flagSet (isPrivate options) then "--private" else "--public".

(** A [repo create] command names the repository, its source directory
    and then the visibility asked for. *)
Definition statesVisibility (options : CreateRepoOptions) (i : Invocation) : Prop :=
  match i with
  | ExecFileSync _ ("repo" :: "create" :: rest) _ =>
      ∃ name more,
        rest = name :: "--source" :: repoProjectPath options ::
               visibilityFlag options :: more
  | _ => True
  end.

(** The browser launch of a GitHub login: not started; started and
    awaited, with the URL handed to it; ended, with its outcome. *)
Definition githubIdle (st : GitHub.AuthState) : Prop :=
  GitHub.deviceCodeExtracted st = false ∧ GitHub.awaitingOpen st = false ∧
  GitHub.browserOpenedSuccessfully st = false.

Definition githubAwaiting (url : string) (st : GitHub.AuthState) : Prop :=
  GitHub.deviceCodeExtracted st = true ∧ GitHub.awaitingOpen st = true ∧
  GitHub.browserOpenedSuccessfully st = false ∧ GitHub.extractedAuthUrl st = url.

Definition githubLaunched (opened : bool) (url : string) (st : GitHub.AuthState) : Prop :=
  GitHub.deviceCodeExtracted st = true ∧ GitHub.awaitingOpen st = false ∧
  GitHub.browserOpenedSuccessfully st = opened ∧ GitHub.extractedAuthUrl st = url.

(** The same for a GitLab login. *)
Definition gitlabIdle (st : GitLab.AuthState) : Prop :=
  GitLab.authUrlExtracted st = false ∧ GitLab.awaitingOpen st = false ∧
  GitLab.browserOpenedSuccessfully st = false.

Definition gitlabAwaiting (url : string) (st : GitLab.AuthState) : Prop :=
  GitLab.authUrlExtracted st = true ∧ GitLab.awaitingOpen st = true ∧
  GitLab.browserOpenedSuccessfully st = false ∧ GitLab.extractedAuthUrl st = url.

Definition gitlabLaunched (opened : bool) (url : string) (st : GitLab.AuthState) : Prop :=
  GitLab.authUrlExtracted st = true ∧ GitLab.awaitingOpen st = false ∧
  GitLab.browserOpenedSuccessfully st = opened ∧ GitLab.extractedAuthUrl st = url.

(** The awaited browser launch ended during [events], with [opened]:
    [shell.openExternal] settled at a moment when the login was waiting
    for it.  [awaiting] tells whether a state is waiting. *)
Definition launchEnded {S} (run : list AuthEvent → S) (awaiting : S → bool)
    (opened : bool) (events : list AuthEvent) : Prop :=
  ∃ pre post, events = (pre ++ OpenSettled opened :: post)%list ∧
              awaiting (run pre) = true.

(** ** Sample values for the examples *)

Definition emptyWorld : World := mkWorld ∅ ∅ ∅ [].

Definition githubSample : GitPlatform :=
  mkGitPlatform "github" "github.com" "owner" "repo" "owner/repo" true false false.

Definition gitlabSample : GitPlatform :=
  mkGitPlatform "gitlab" "gitlab.com" "acme" "widgets" "acme/widgets" false true false.

Definition releaseSample : CreateReleaseOptions :=
  mkCreateReleaseOptions "/repo" "1.0.0" "v1.0.0" "v1.0.0" "Release notes" None None.

Definition permissionDenied : JsError :=
  Error "Error" "EPERM: operation not permitted, unlink".

Definition commandFailed : JsError := Error "Error" "Command failed".

(** An environment whose child processes answer by [sync] and [child],
    with a working file system except that unlinking fails when
    [unlinkFails] is set; paths are kept as they are, parsers refuse
    every text. *)
Definition scripted (sync : Invocation -> JsError + string) (child : ChildEnd)
    (unlinkFails : bool) : Environment :=
  {| runSync := fun i w => (sync i, files w);
     runChild := fun _ w => (child, files w);
     writeError := fun _ _ => None;
     unlinkError := fun _ _ => if unlinkFails then Some permissionDenied else None;
     readError := fun _ _ => None;
     path_resolve := fun p => p;
     path_join := fun parts =>
       match String.concat "/" parts with
       | EmptyString => "."
       | joined => joined
       end;
     path_join_nonempty :=
       ltac:(intros parts; cbv beta; destruct (String.concat "/" parts); discriminate);
     os_tmpdir := "/tmp";
     Date_now := fun _ => 1700000000000%N;
     env_HOME := Some "/home/dev";
     env_USERPROFILE := None;
     JSON_parse := fun _ => inl (Error "SyntaxError" "Unexpected token");
     loadYaml := fun _ => inl (Error "YAMLException" "bad indentation");
     newRegExp := fun _ _ => inl (Error "SyntaxError" "Invalid regular expression") |}.

(** Every command fails. *)
Definition failing : Environment :=
  scripted (fun _ => inl commandFailed) (Failed commandFailed) false.

(** [git remote get-url origin] names a GitLab remote; [glab] answers
    project id 42 and two branches. *)
Definition answering : Environment :=
  scripted
    (fun i => match i with
              | ExecSync _ _ => inr "git@gitlab.com:acme/widgets.git
"
              | ExecFileSync _ ("api" :: endpoint :: _) _ =>
                  if Js.includes endpoint "branches" then inr "main
develop
" else inr "42
"
              | _ => inl commandFailed
              end)
    (Exited (Some 0%Z) "" "") false.

(** The release child exits with code 0, every other command fails, and
    the notes file cannot be unlinked. *)
Definition stuckNotes : Environment :=
  scripted (fun _ => inl commandFailed) (Exited (Some 0%Z) "" "") true.

(** A self-hosted GitLab instance. *)
Definition selfHostedSample : GitPlatform :=
  mkGitPlatform "gitlab" "git.lazy-ants.de" "owner" "repo" "owner/repo" false true true.

(** [git remote get-url origin] names a GitHub remote. *)
Definition githubOrigin : Environment :=
  scripted (fun _ => inr "git@github.com:owner/repo.git
") (Exited (Some 0%Z) "" "") false.

(** Every command succeeds and prints [out]; a spawned child exits with
    code 0 and prints nothing. *)
Definition printing (out : string) : Environment :=
  scripted (fun _ => inr out) (Exited (Some 0%Z) "" "") false.

(** * Properties *)

(** ** Strings *)

Lemma append_nil_r (s : string) : s ++ "" = s.
Proof. induction s as [|c s IH]; [done|]. change (String c (s ++ "") = String c s). by rewrite IH. Qed.

Lemma append_cons (c : ascii) (u r : string) : String c u ++ r = String c (u ++ r).
Proof. reflexivity. Qed.

Lemma append_assoc (a b c : string) : (a ++ b) ++ c = a ++ (b ++ c).
Proof.
  induction a as [|x a IH]; [done|].
  rewrite !append_cons. by rewrite IH.
Qed.

Lemma length_append (a b : string) :
  String.length (a ++ b) = (String.length a + String.length b)%nat.
Proof. induction a as [|x a IH]; [done|]. rewrite append_cons. simpl. by rewrite IH. Qed.

Lemma take_append (u r : string) : Js.take (String.length u) (u ++ r) = u.
Proof. induction u as [|x u IH]; [by destruct r|]. rewrite append_cons. simpl. by rewrite IH. Qed.

Lemma allChars_append (p : ascii -> bool) (a b : string) :
  allChars p (a ++ b) = allChars p a && allChars p b.
Proof.
  induction a as [|x a IH]; [done|].
  rewrite append_cons. simpl. rewrite IH. by rewrite andb_assoc.
Qed.

(** ** Regular expressions: what a match looks like *)

Module ReFacts.
Import Re.

Lemma consumed_append (u rest : string) : consumed (u ++ rest) rest = u.
Proof.
  unfold consumed. rewrite length_append.
  replace (String.length u + String.length rest - String.length rest)%nat
    with (String.length u) by lia.
  apply take_append.
Qed.

Lemma elem_of_spans (p : ascii -> bool) (s rest : string) :
  rest ∈ spans p s ↔ ∃ u, u ≠ "" ∧ s = u ++ rest ∧ allChars p u = true.
Proof.
  revert rest. induction s as [|c s IH]; intros rest; simpl.
  - rewrite elem_of_nil. split; [done|].
    intros ([|x u] & Hne & Heq & _); [done|]. by rewrite append_cons in Heq.
  - destruct (p c) eqn:Hc.
    + rewrite elem_of_cons, IH. split.
      * intros [-> | (u & Hne & -> & Hall)].
        -- exists (String c ""). split; [done|]. split; [reflexivity|].
           simpl. by rewrite Hc.
        -- exists (String c u). split; [done|]. split; [reflexivity|].
           simpl. by rewrite Hc.
      * intros ([|x u] & Hne & Heq & Hall); [done|].
        rewrite append_cons in Heq. injection Heq as -> ->.
        simpl in Hall. apply andb_prop in Hall as [_ Hall].
        destruct u as [|y u]; [by left|].
        right. by exists (String y u).
    + rewrite elem_of_nil. split; [done|].
      intros ([|x u] & Hne & Heq & Hall); [done|].
      rewrite append_cons in Heq. injection Heq as -> ->.
      simpl in Hall. by rewrite Hc in Hall.
Qed.

Lemma run_den (ci : bool) (r : regex) (s : string) (c c' : captures) (rest : string) :
  (c', rest) ∈ run ci r s c ↔ den ci r s c c' rest.
Proof.
  revert s c c' rest.
  induction r as [l|p|p|p|p|r1 IH1|r1 IH1 r2 IH2|r1 IH1 r2 IH2|i r1 IH1|];
    intros s c c' rest; simpl.
  - destruct (afterLit ci l s) as [s'|].
    + rewrite list_elem_of_singleton. split; [by intros [= -> ->]|by intros [[= ->] ->]].
    + rewrite elem_of_nil. split; [done|]. by intros [? _].
  - destruct s as [|a s].
    + rewrite elem_of_nil. split; [done|]. by intros [(? & ? & _) _].
    + destruct (p a) eqn:Ha.
      * rewrite list_elem_of_singleton. split.
        -- intros [= -> ->]. eauto.
        -- intros [(b & [= -> ->] & _) ->]. done.
      * rewrite elem_of_nil. split; [done|].
        intros [(b & [= -> ->] & Hb) _]. congruence.
  - rewrite list_elem_of_fmap. setoid_rewrite elem_of_reverse.
    setoid_rewrite elem_of_spans. split.
    + intros (s' & [= -> ->] & Hu). done.
    + intros [Hu ->]. eauto.
  - rewrite list_elem_of_fmap. setoid_rewrite elem_of_spans. split.
    + intros (s' & [= -> ->] & Hu). done.
    + intros [Hu ->]. eauto.
  - rewrite list_elem_of_fmap. setoid_rewrite elem_of_reverse.
    setoid_rewrite elem_of_cons. setoid_rewrite elem_of_spans. split.
    + intros (s' & [= -> ->] & [-> | (u & _ & -> & Hu)]).
      * split; [|done]. by exists "".
      * split; [|done]. by exists u.
    + intros [(u & -> & Hu) ->]. exists rest. split; [done|].
      destruct u as [|x u]; [by left|]. right. by exists (String x u).
  - rewrite elem_of_app, IH1, list_elem_of_singleton. split.
    + intros [?|[= -> ->]]; auto.
    + intros [?|[-> ->]]; auto.
  - by rewrite elem_of_app, IH1, IH2.
  - rewrite list_elem_of_bind. split.
    + intros ([c1 s1] & Hin2 & Hin1). exists c1, s1.
      by rewrite <- IH1, <- IH2.
    + intros (c1 & s1 & H1 & H2). exists (c1, s1).
      by rewrite IH1, IH2.
  - rewrite list_elem_of_fmap. split.
    + intros ([c1 s1] & [= -> ->] & Hin). exists c1. by rewrite <- IH1.
    + intros (c1 & H1 & ->). exists (c1, rest). by rewrite IH1.
  - destruct s; [rewrite list_elem_of_singleton|rewrite elem_of_nil].
    + split; [by intros [= -> ->]|by intros (_ & -> & ->)].
    + split; [done|]. by intros [? _].
Qed.

(** A successful anchored match is one of the ways the pattern can match,
    with the whole match in group 0. *)
Lemma matchHere_den (ci : bool) (r : regex) (s : string) (m : captures) :
  matchHere ci r s = Some m → ∃ rest, den ci (Grp 0 r) s ∅ m rest.
Proof.
  unfold matchHere. intros Hm.
  destruct (head (run ci (Grp 0 r) s ∅)) as [[c' rest]|] eqn:Hh; [|done].
  injection Hm as <-. exists rest. apply run_den.
  by apply head_Some_elem_of.
Qed.

(** Conversely the pattern matches as soon as it can. *)
Lemma den_matchHere (ci : bool) (r : regex) (s : string) (c' : captures) (rest : string) :
  den ci r s ∅ c' rest → is_Some (matchHere ci r s).
Proof.
  intros Hd. unfold matchHere.
  assert (Hin : (<[0%nat := consumed s rest]> c', rest) ∈ run ci (Grp 0 r) s ∅).
  { apply run_den. simpl. eauto. }
  destruct (run ci (Grp 0 r) s ∅) as [|x l]; [by apply elem_of_nil in Hin|].
  simpl. eauto.
Qed.

End ReFacts.

Example parse_github_ssh :
  parseGitRemoteUrl "git@github.com:owner/repo.git" =
  Some (mkGitPlatform "github" "github.com" "owner" "repo" "owner/repo" true false false).
Proof. vm_compute. reflexivity. Qed.

Example parse_github_https_nogit :
  parseGitRemoteUrl "https://github.com/owner/repo" =
  Some (mkGitPlatform "github" "github.com" "owner" "repo" "owner/repo" true false false).
Proof. vm_compute. reflexivity. Qed.

Example parse_selfhosted :
  parseGitRemoteUrl "  git@git.lazy-ants.de:owner/repo.git
" =
  Some (mkGitPlatform "gitlab" "git.lazy-ants.de" "owner" "repo" "owner/repo" false true true).
Proof. vm_compute. reflexivity. Qed.

(** ** The remote URL parser *)

Lemma afterLit_exact (l s rest : string) :
  Re.afterLit false l s = Some rest ↔ s = l ++ rest.
Proof.
  revert s. induction l as [|a l IH]; intros s; simpl.
  - split; [by intros [= ->]|by intros ->].
  - destruct s as [|b s]; [done|]. unfold Re.sameChar.
    destruct (Ascii.eqb_spec a b) as [->|Hne].
    + rewrite IH, append_cons. split; [by intros ->|by intros [= ->]].
    + rewrite append_cons. split; [done|]. intros [= ? _]. congruence.
Qed.

(** The shape of a URL accepted by the HTTPS pattern, with its captures. *)
Lemma httpsRe_inv (s : string) (m : Re.captures) :
  Re.exec httpsRe s = Some m →
  ∃ scheme h o r suffix,
    (scheme = "http" ∨ scheme = "https") ∧ (suffix = "" ∨ suffix = ".git") ∧
    s = scheme ++ "://" ++ h ++ "/" ++ o ++ "/" ++ r ++ suffix ∧
    (h ≠ "" ∧ noSlash h = true) ∧ (o ≠ "" ∧ noSlash o = true) ∧
    (r ≠ "" ∧ noSlash r = true) ∧
    m !! 1%nat = Some h ∧ m !! 2%nat = Some o ∧ m !! 3%nat = Some r.
Proof.
  unfold Re.exec, httpsRe. cbn [Re.anchored Re.ignoreCase Re.body].
  intros Hm. apply ReFacts.matchHere_den in Hm as [rest Hd].
  cbn [Re.den] in Hd.
  destruct Hd as (c9 & Hd & ->).
  destruct Hd as (c1 & s1 & [Hl1 ->] & Hd).
  destruct Hd as (c2 & s2 & Hopt & Hd).
  destruct Hd as (c3 & s3 & [Hl3 ->] & Hd).
  destruct Hd as (c4 & s4 & (c4' & [(h & Hh & -> & Hhs) ->] & ->) & Hd).
  destruct Hd as (c5 & s5 & [Hl5 ->] & Hd).
  destruct Hd as (c6 & s6 & (c6' & [(o & Ho & -> & Hos) ->] & ->) & Hd).
  destruct Hd as (c7 & s7 & [Hl7 ->] & Hd).
  destruct Hd as (c8 & s8 & (c8' & [(r & Hr & -> & Hrs) ->] & ->) & Hd).
  destruct Hd as (c10 & s10 & Hgit & (-> & -> & ->)).
  apply afterLit_exact in Hl1, Hl3, Hl5, Hl7. subst.
  rewrite !ReFacts.consumed_append in Hgit.
  assert (Hsuf : (s8 = "" ∨ s8 = ".git") ∧
                 c10 = <[3%nat := r]> (<[2%nat := o]> (<[1%nat := h]> c2))).
  { destruct Hgit as [[Hg ->]|[-> <-]]; [|by auto].
    apply afterLit_exact in Hg. rewrite append_nil_r in Hg. by auto. }
  destruct Hsuf as [Hs8 ->].
  assert (Hsch : ("http" ++ s1 = "http" ++ "://" ++ h ++ "/" ++ o ++ "/" ++ r ++ s8 ∨
                  "http" ++ s1 = "https" ++ "://" ++ h ++ "/" ++ o ++ "/" ++ r ++ s8)).
  { destruct Hopt as [[Hs _]|[_ <-]]; [|by left].
    apply afterLit_exact in Hs. subst s1. by right. }
  assert (Hcaps : ∀ w : string,
    <[0%nat := w]> (<[3%nat := r]> (<[2%nat := o]> (<[1%nat := h]> c2))) !! 1%nat = Some h ∧
    <[0%nat := w]> (<[3%nat := r]> (<[2%nat := o]> (<[1%nat := h]> c2))) !! 2%nat = Some o ∧
    <[0%nat := w]> (<[3%nat := r]> (<[2%nat := o]> (<[1%nat := h]> c2))) !! 3%nat = Some r)
    by (intros; by simplify_map_eq).
  destruct Hsch as [Hs|Hs].
  - exists "http", h, o, r, s8. repeat split; auto; apply Hcaps.
  - exists "https", h, o, r, s8. repeat split; auto; apply Hcaps.
Qed.

(** The shape of a URL accepted by the SSH pattern, with its captures. *)
Lemma sshRe_inv (s : string) (m : Re.captures) :
  Re.exec sshRe s = Some m →
  ∃ h o r suffix,
    (suffix = "" ∨ suffix = ".git") ∧
    s = "git@" ++ h ++ ":" ++ o ++ "/" ++ r ++ suffix ∧
    (h ≠ "" ∧ allChars (Re.notChar ":") h = true) ∧ (o ≠ "" ∧ noSlash o = true) ∧
    (r ≠ "" ∧ noSlash r = true) ∧
    m !! 1%nat = Some h ∧ m !! 2%nat = Some o ∧ m !! 3%nat = Some r.
Proof.
  unfold Re.exec, sshRe. cbn [Re.anchored Re.ignoreCase Re.body].
  intros Hm. apply ReFacts.matchHere_den in Hm as [rest Hd].
  cbn [Re.den] in Hd.
  destruct Hd as (c9 & Hd & ->).
  destruct Hd as (c1 & s1 & [Hl1 ->] & Hd).
  destruct Hd as (c4 & s4 & (c4' & [(h & Hh & -> & Hhs) ->] & ->) & Hd).
  destruct Hd as (c5 & s5 & [Hl5 ->] & Hd).
  destruct Hd as (c6 & s6 & (c6' & [(o & Ho & -> & Hos) ->] & ->) & Hd).
  destruct Hd as (c7 & s7 & [Hl7 ->] & Hd).
  destruct Hd as (c8 & s8 & (c8' & [(r & Hr & -> & Hrs) ->] & ->) & Hd).
  destruct Hd as (c10 & s10 & Hgit & (-> & -> & ->)).
  apply afterLit_exact in Hl1, Hl5, Hl7. subst.
  rewrite !ReFacts.consumed_append in Hgit.
  assert (Hsuf : (s8 = "" ∨ s8 = ".git") ∧
                 c10 = <[3%nat := r]> (<[2%nat := o]> (<[1%nat := h]> ∅))).
  { destruct Hgit as [[Hg ->]|[-> <-]]; [|by auto].
    apply afterLit_exact in Hg. rewrite append_nil_r in Hg. by auto. }
  destruct Hsuf as [Hs8 ->].
  exists h, o, r, s8. repeat split; auto; by simplify_map_eq.
Qed.

(** Both patterns always fill the three groups the parser reads. *)
Lemma httpsRe_groups (s : string) (m : Re.captures) :
  Re.exec httpsRe s = Some m →
  ∃ h o r, m !! 1%nat = Some h ∧ m !! 2%nat = Some o ∧ m !! 3%nat = Some r.
Proof. intros (_ & h & o & r & _ & _ & _ & _ & _ & _ & _ & ?)%httpsRe_inv. eauto. Qed.

Lemma sshRe_groups (s : string) (m : Re.captures) :
  Re.exec sshRe s = Some m →
  ∃ h o r, m !! 1%nat = Some h ∧ m !! 2%nat = Some o ∧ m !! 3%nat = Some r.
Proof. intros (h & o & r & _ & _ & _ & _ & _ & _ & ?)%sshRe_inv. eauto. Qed.

(** No URL fits both patterns: one starts with [http], the other with [git@]. *)
Lemma shapes_exclusive (s : string) (m1 m2 : Re.captures) :
  Re.exec httpsRe s = Some m1 → Re.exec sshRe s = Some m2 → False.
Proof.
  intros (sch & h & o & r & suf & Hsch & _ & -> & _)%httpsRe_inv
         (h' & o' & r' & suf' & _ & Heq & _)%sshRe_inv.
  destruct Hsch as [-> | ->]; discriminate Heq.
Qed.

(** What [parseGitRemoteUrl] returns is always built by [createPlatform]
    from a host, a one-segment owner and a one-segment repository name. *)
Lemma parse_created (url : string) (p : GitPlatform) :
  parseGitRemoteUrl url = Some p →
  ∃ h o r, p = createPlatform h o r ∧
           h ≠ "" ∧ (o ≠ "" ∧ noSlash o = true) ∧ (r ≠ "" ∧ noSlash r = true).
Proof.
  unfold parseGitRemoteUrl, platformOfMatch.
  destruct (Re.exec httpsRe (Js.trim url)) as [m|] eqn:Hh.
  - apply httpsRe_inv in Hh
      as (sch & h & o & r & suf & _ & _ & _ & [Hh _] & Ho & Hr & -> & -> & ->).
    intros [= <-]. by exists h, o, r.
  - destruct (Re.exec sshRe (Js.trim url)) as [m|] eqn:Hs; [|done].
    apply sshRe_inv in Hs
      as (h & o & r & suf & _ & _ & [Hh' _] & Ho & Hr & -> & -> & ->).
    intros [= <-]. by exists h, o, r.
Qed.

Lemma seq_eq (a b : string) : Js.seq a b = true ↔ a = b.
Proof. apply String.eqb_eq. Qed.

Lemma seq_neq (a b : string) : Js.seq a b = false ↔ a ≠ b.
Proof. apply String.eqb_neq. Qed.

(** The part of the descriptor invariant that [createPlatform] keeps for
    every host: [type] follows [isGitHub], a descriptor that is not GitHub
    is GitLab, and [fullName] is [owner/repo]. *)
Lemma createPlatform_invariant (h o r : string) :
  let p := createPlatform h o r in
  (type p = "github" ↔ isGitHub p = true) ∧
  (type p = "gitlab" ↔ isGitHub p = false) ∧
  (isGitHub p = false → isGitLab p = true) ∧
  fullName p = owner p ++ "/" ++ repo p.
Proof.
  unfold createPlatform. cbn [type isGitHub isGitLab fullName owner repo].
  set (g := Js.seq (Js.toLowerCase h) "github.com" || Js.includes (Js.toLowerCase h) "github").
  destruct g eqn:Hg; repeat split; try done.
  intros _. subst g. apply orb_false_elim in Hg as [-> _].
  by rewrite !orb_true_r.
Qed.

(** The two flags exclude each other whenever the host does not mention
    GitLab. *)
Lemma createPlatform_exclusive (h o r : string) :
  Js.includes (Js.toLowerCase h) "gitlab" = false →
  isGitHub (createPlatform h o r) = negb (isGitLab (createPlatform h o r)).
Proof.
  intros Hgl. unfold createPlatform. cbn [isGitHub isGitLab]. rewrite Hgl.
  destruct (Js.seq (Js.toLowerCase h) "gitlab.com") eqn:Hcom.
  { apply seq_eq in Hcom. rewrite Hcom in Hgl. discriminate Hgl. }
  destruct (Js.seq (Js.toLowerCase h) "github.com") eqn:Hhub; [done|].
  by destruct (Js.includes (Js.toLowerCase h) "github").
Qed.

(** C1. The parser has no nested namespaces: the remote
    [git@gitlab.com:group/subgroup/repo.git] that the repository's test
    suite expects to parse with owner [group/subgroup] is rejected. *)
Theorem parse_nested_groups_null :
  parseGitRemoteUrl "git@gitlab.com:group/subgroup/repo.git" = None ∧
  parseGitRemoteUrl "https://gitlab.com/group/subgroup/repo.git" = None.
Proof. split; vm_compute; reflexivity. Qed.

(** No returned descriptor has a [/] in its owner or its repository name. *)
Lemma parse_owner_one_segment (url : string) (p : GitPlatform) :
  parseGitRemoteUrl url = Some p →
  noSlash (owner p) = true ∧ noSlash (repo p) = true.
Proof.
  intros (h & o & r & -> & _ & [_ Ho] & [_ Hr])%parse_created.
  by split.
Qed.

(** C2. A host that mentions both platforms gets both flags: for
    [https://github.gitlab.example.com/owner/repo.git] the descriptor has
    type [github] with [isGitHub] and [isGitLab] both true. *)
Theorem parse_both_flags :
  parseGitRemoteUrl "https://github.gitlab.example.com/owner/repo.git" =
  Some (mkGitPlatform "github" "github.gitlab.example.com" "owner" "repo"
          "owner/repo" true true true).
Proof. vm_compute. reflexivity. Qed.

(** The rest of the invariant holds for whatever the parser returns. *)
Lemma parse_invariant (url : string) (p : GitPlatform) :
  parseGitRemoteUrl url = Some p →
  (type p = "github" ↔ isGitHub p = true) ∧
  (type p = "gitlab" ↔ isGitHub p = false) ∧
  (isGitHub p = false → isGitLab p = true) ∧
  fullName p = owner p ++ "/" ++ repo p.
Proof.
  intros (h & o & r & -> & _)%parse_created. apply createPlatform_invariant.
Qed.

(** A run of characters other than [c], then [c]: there is one way to
    cut a string like that. *)
Lemma split_unique (c : ascii) (a a' x x' : string) :
  allChars (Re.notChar c) a = true → allChars (Re.notChar c) a' = true →
  a ++ String c x = a' ++ String c x' → a = a' ∧ x = x'.
Proof.
  revert a'. induction a as [|y a IH]; intros [|y' a'] Ha Ha' Heq.
  - by injection Heq as ->.
  - rewrite append_cons in Heq. injection Heq as <- _.
    cbn in Ha'. unfold Re.notChar in Ha'. by rewrite Ascii.eqb_refl in Ha'.
  - rewrite append_cons in Heq. injection Heq as -> _.
    cbn in Ha. unfold Re.notChar in Ha. by rewrite Ascii.eqb_refl in Ha.
  - rewrite !append_cons in Heq. injection Heq as -> Heq.
    cbn in Ha, Ha'. apply andb_prop in Ha as [_ Ha]. apply andb_prop in Ha' as [_ Ha'].
    destruct (IH a' Ha Ha' Heq) as [-> ->]. done.
Qed.

(** One literal, and one captured run of a class, of a pattern that is a
    sequence. *)
Ltac den_lit :=
  eexists _, _; split; [split; [by apply afterLit_exact|done]|].
Ltac den_run :=
  eexists _, _; split; [eexists; split; [split; [by eauto|done]|done]|].

(** Every URL of the SSH shape is accepted by the SSH pattern. *)
Lemma sshRe_complete (h o r suffix : string) :
  h ≠ "" → allChars (Re.notChar ":") h = true →
  o ≠ "" → noSlash o = true → r ≠ "" → noSlash r = true →
  suffix = "" ∨ suffix = ".git" →
  is_Some (Re.exec sshRe ("git@" ++ h ++ ":" ++ o ++ "/" ++ r ++ suffix)).
Proof.
  intros Hh Hhs Ho Hos Hr Hrs Hsuf.
  unfold Re.exec, sshRe. cbn [Re.anchored Re.ignoreCase Re.body].
  destruct Hsuf as [-> | ->];
    eapply ReFacts.den_matchHere with (rest := ""); cbn [Re.den].
  - den_lit. den_run. den_lit. den_run. den_lit. den_run.
    eexists _, "". split; [by right|done].
  - den_lit. den_run. den_lit. den_run. den_lit. den_run.
    eexists _, "". split; [left|done]. split; [by apply afterLit_exact|done].
Qed.

(** Every URL of the HTTPS shape is accepted by the HTTPS pattern. *)
Lemma httpsRe_complete (scheme h o r suffix : string) :
  scheme = "http" ∨ scheme = "https" →
  h ≠ "" → noSlash h = true →
  o ≠ "" → noSlash o = true → r ≠ "" → noSlash r = true →
  suffix = "" ∨ suffix = ".git" →
  is_Some (Re.exec httpsRe (scheme ++ "://" ++ h ++ "/" ++ o ++ "/" ++ r ++ suffix)).
Proof.
  intros Hsch Hh Hhs Ho Hos Hr Hrs Hsuf.
  unfold Re.exec, httpsRe. cbn [Re.anchored Re.ignoreCase Re.body].
  destruct Hsch as [-> | ->], Hsuf as [-> | ->];
    eapply ReFacts.den_matchHere with (rest := ""); cbn [Re.den].
  - den_lit. eexists _, _. split; [by right|].
    den_lit. den_run. den_lit. den_run. den_lit. den_run.
    eexists _, "". split; [by right|done].
  - den_lit. eexists _, _. split; [by right|].
    den_lit. den_run. den_lit. den_run. den_lit. den_run.
    eexists _, "". split; [left|done]. split; [by apply afterLit_exact|done].
  - den_lit. eexists _, _. split; [left; split; [by apply afterLit_exact|done]|].
    den_lit. den_run. den_lit. den_run. den_lit. den_run.
    eexists _, "". split; [by right|done].
  - den_lit. eexists _, _. split; [left; split; [by apply afterLit_exact|done]|].
    den_lit. den_run. den_lit. den_run. den_lit. den_run.
    eexists _, "". split; [left|done]. split; [by apply afterLit_exact|done].
Qed.

(** Round trip for the SSH shape: the descriptor has the lower-cased host
    and the owner of the URL, and its repository name is the last segment
    up to the [.git] suffix. *)
Lemma parse_ssh_shape (url h o r suffix : string) :
  Js.trim url = "git@" ++ h ++ ":" ++ o ++ "/" ++ r ++ suffix →
  h ≠ "" → allChars (Re.notChar ":") h = true →
  o ≠ "" → noSlash o = true → r ≠ "" → noSlash r = true →
  suffix = "" ∨ suffix = ".git" →
  ∃ p suffix', parseGitRemoteUrl url = Some p ∧
    host p = Js.toLowerCase h ∧ owner p = o ∧
    repo p ++ suffix' = r ++ suffix ∧ fullName p = o ++ "/" ++ repo p.
Proof.
  intros Hurl Hh Hhs Ho Hos Hr Hrs Hsuf.
  destruct (sshRe_complete h o r suffix Hh Hhs Ho Hos Hr Hrs Hsuf) as [m Hm].
  rewrite <- Hurl in Hm.
  destruct (sshRe_inv _ _ Hm)
    as (h' & o' & r' & suffix' & _ & Heq & [_ Hhs'] & [_ Hos'] & _ & H1 & H2 & H3).
  rewrite Hurl in Heq. injection Heq as Heq.
  apply (split_unique ":") in Heq as [<- Heq]; [|done..].
  apply (split_unique "/") in Heq as [<- Heq]; [|done..].
  exists (createPlatform h o r'), suffix'. split; [|by split].
  unfold parseGitRemoteUrl, platformOfMatch.
  destruct (Re.exec httpsRe (Js.trim url)) as [m'|] eqn:Hhttps.
  { destruct (shapes_exclusive _ _ _ Hhttps Hm). }
  by rewrite Hm, H1, H2, H3.
Qed.

(** Round trip for the HTTPS shape. *)
Lemma parse_https_shape (url scheme h o r suffix : string) :
  Js.trim url = scheme ++ "://" ++ h ++ "/" ++ o ++ "/" ++ r ++ suffix →
  scheme = "http" ∨ scheme = "https" →
  h ≠ "" → noSlash h = true →
  o ≠ "" → noSlash o = true → r ≠ "" → noSlash r = true →
  suffix = "" ∨ suffix = ".git" →
  ∃ p suffix', parseGitRemoteUrl url = Some p ∧
    host p = Js.toLowerCase h ∧ owner p = o ∧
    repo p ++ suffix' = r ++ suffix ∧ fullName p = o ++ "/" ++ repo p.
Proof.
  intros Hurl Hsch Hh Hhs Ho Hos Hr Hrs Hsuf.
  destruct (httpsRe_complete scheme h o r suffix Hsch Hh Hhs Ho Hos Hr Hrs Hsuf)
    as [m Hm].
  rewrite <- Hurl in Hm.
  destruct (httpsRe_inv _ _ Hm)
    as (scheme' & h' & o' & r' & suffix' & Hsch' & _ & Heq & [_ Hhs'] & [_ Hos'] & _
        & H1 & H2 & H3).
  rewrite Hurl in Heq.
  assert (Hrest : h ++ "/" ++ o ++ "/" ++ r ++ suffix =
                  h' ++ "/" ++ o' ++ "/" ++ r' ++ suffix').
  { destruct Hsch as [-> | ->], Hsch' as [-> | ->];
      solve [by injection Heq | discriminate Heq]. }
  apply (split_unique "/") in Hrest as [<- Hrest]; [|done..].
  apply (split_unique "/") in Hrest as [<- Hrest]; [|done..].
  exists (createPlatform h o r'), suffix'. split; [|by split].
  unfold parseGitRemoteUrl, platformOfMatch.
  by rewrite Hm, H1, H2, H3.
Qed.

(** A URL of one of the two shapes is parsed, from its captures. *)
Lemma parse_of_match (url : string) (m : Re.captures) :
  Re.exec httpsRe (Js.trim url) = Some m ∨ Re.exec sshRe (Js.trim url) = Some m →
  ∃ h o r, m !! 1%nat = Some h ∧
           parseGitRemoteUrl url = Some (createPlatform h o r).
Proof.
  intros Hm. unfold parseGitRemoteUrl, platformOfMatch. destruct Hm as [Hm|Hm].
  - rewrite Hm. destruct (httpsRe_groups _ _ Hm) as (h & o & r & H1 & H2 & H3).
    rewrite H1, H2, H3. eauto.
  - destruct (Re.exec httpsRe (Js.trim url)) as [m'|] eqn:Hh.
    { destruct (shapes_exclusive _ _ _ Hh Hm). }
    rewrite Hm. destruct (sshRe_groups _ _ Hm) as (h & o & r & H1 & H2 & H3).
    rewrite H1, H2, H3. eauto.
Qed.

(** C3. For a URL of one of the two shapes the parser returns a descriptor
    for the lower-cased captured host; its type is [github] when that host
    is [github.com] or contains [github] and [gitlab] for any other host,
    and it is self-hosted exactly when the host is neither [github.com] nor
    [gitlab.com]. *)
Theorem parse_classification (url : string) (m : Re.captures) :
  Re.exec httpsRe (Js.trim url) = Some m ∨ Re.exec sshRe (Js.trim url) = Some m →
  ∃ h p,
    m !! 1%nat = Some h ∧ parseGitRemoteUrl url = Some p ∧
    host p = Js.toLowerCase h ∧
    (host p = "github.com" ∨ Js.includes (host p) "github" = true →
     type p = "github") ∧
    (¬ (host p = "github.com" ∨ Js.includes (host p) "github" = true) →
     type p = "gitlab") ∧
    (isSelfHosted p = true ↔ host p ≠ "github.com" ∧ host p ≠ "gitlab.com").
Proof.
  intros Hm. destruct (parse_of_match _ _ Hm) as (h & o & r & H1 & Hp).
  exists h, (createPlatform h o r). split; [done|]. split; [done|].
  unfold createPlatform. cbn [host type isSelfHosted].
  split; [done|]. split; [|split].
  - intros [Heq|Hinc].
    + by rewrite (proj2 (seq_eq _ _) Heq).
    + by rewrite Hinc, orb_true_r.
  - intros Hno.
    destruct (Js.seq (Js.toLowerCase h) "github.com") eqn:Heq.
    { exfalso. apply Hno. left. by apply seq_eq. }
    destruct (Js.includes (Js.toLowerCase h) "github") eqn:Hinc; [|done].
    exfalso. apply Hno. by right.
  - rewrite andb_true_iff, !negb_true_iff, !seq_neq. done.
Qed.

Lemma parse_classification_witness :
  ∃ h p,
    default ∅ (Re.exec sshRe "git@git.example.com:owner/repo.git") !! 1%nat = Some h ∧
    parseGitRemoteUrl "git@git.example.com:owner/repo.git" = Some p ∧
    host p = Js.toLowerCase h ∧
    (host p = "github.com" ∨ Js.includes (host p) "github" = true →
     type p = "github") ∧
    (¬ (host p = "github.com" ∨ Js.includes (host p) "github" = true) →
     type p = "gitlab") ∧
    (isSelfHosted p = true ↔ host p ≠ "github.com" ∧ host p ≠ "gitlab.com").
Proof.
  apply (parse_classification "git@git.example.com:owner/repo.git").
  right. vm_compute. reflexivity.
Defined.

(** C4. A Bitbucket remote of the HTTPS shape is not rejected: it comes
    back as a self-hosted GitLab descriptor, where the repository's test
    suite expects [null]. *)
Theorem parse_bitbucket_not_null :
  parseGitRemoteUrl "https://bitbucket.org/owner/repo.git" =
  Some (mkGitPlatform "gitlab" "bitbucket.org" "owner" "repo" "owner/repo"
          false true true).
Proof. vm_compute. reflexivity. Qed.

(** Only the two shapes are accepted. *)
Lemma parse_null_without_match (url : string) :
  Re.exec httpsRe (Js.trim url) = None →
  Re.exec sshRe (Js.trim url) = None →
  parseGitRemoteUrl url = None.
Proof. intros Hh Hs. unfold parseGitRemoteUrl. by rewrite Hh, Hs. Qed.

Lemma parse_null_iff (url : string) :
  parseGitRemoteUrl url = None ↔
  Re.exec httpsRe (Js.trim url) = None ∧ Re.exec sshRe (Js.trim url) = None.
Proof.
  split; [|intros [? ?]; by apply parse_null_without_match].
  intros Hn.
  destruct (Re.exec httpsRe (Js.trim url)) as [m|] eqn:Hh.
  { assert (Hm := or_introl Hh : _ ∨ Re.exec sshRe (Js.trim url) = Some m).
    apply parse_of_match in Hm as (? & ? & ? & _ & Hp). congruence. }
  destruct (Re.exec sshRe (Js.trim url)) as [m|] eqn:Hs; [|done].
  assert (Hm := or_intror Hs : Re.exec httpsRe (Js.trim url) = Some m ∨ _).
  apply parse_of_match in Hm as (? & ? & ? & _ & Hp). congruence.
Qed.

Example parse_empty_null : parseGitRemoteUrl "" = None.
Proof. vm_compute. reflexivity. Qed.

Example parse_invalid_null : parseGitRemoteUrl "invalid-url" = None.
Proof. vm_compute. reflexivity. Qed.

(** ** The detector and its cache *)

Section DetectorFacts.
Context `{Environment}.

(** A detection that does not answer from the cache starts exactly one
    process and records what it found, [null] included. *)
Lemma detect_miss (projectPath : string) (options : DetectOptions) (w : World) :
  flagSet (forceRefresh options) = true ∨
  platformCache w !! path_resolve projectPath = None →
  ∃ w',
    detectGitPlatform projectPath options w =
      (inr (detected (fst (runSync (remoteQuery projectPath options) w))), w') ∧
    trace w' = (trace w ++ [remoteQuery projectPath options])%list ∧
    platformCache w' =
      <[path_resolve projectPath :=
          detected (fst (runSync (remoteQuery projectPath options) w))]>
        (platformCache w) ∧
    projectIdCache w' = projectIdCache w.
Proof.
  intros Hmiss.
  unfold detectGitPlatform, bind, getWorld, flagSet in *.
  assert (Hcond : negb (default false (forceRefresh options)) &&
            bool_decide (is_Some (platformCache w !! path_resolve projectPath)) = false).
  { destruct Hmiss as [-> | ->]; [done|].
    rewrite bool_decide_eq_false_2; [by rewrite andb_false_r|]. by intros [? ?]. }
  rewrite Hcond.
  unfold getGitRemoteUrl, tryCatch, bind, execSync, ret, modify, remoteQuery.
  destruct (runSync _ w) as [[e|out] fs] eqn:Hrun; cbn [fst detected].
  - eexists. split; [reflexivity|]. done.
  - destruct (Js.truthy (Js.trim out)); eexists; (split; [reflexivity|]); done.
Qed.

(** A detection that finds its path in the cache answers from it and
    touches nothing. *)
Lemma detect_hit (projectPath : string) (options : DetectOptions) (w : World)
    (v : option GitPlatform) :
  flagSet (forceRefresh options) = false →
  platformCache w !! path_resolve projectPath = Some v →
  detectGitPlatform projectPath options w = (inr v, w).
Proof.
  intros Hf Hc. unfold detectGitPlatform, bind, getWorld, flagSet in *.
  rewrite Hf, Hc. rewrite bool_decide_eq_true_2 by eauto. done.
Qed.

(** A detection leaves the entries of other paths alone. *)
Lemma detect_frame (projectPath other : string) (options : DetectOptions) (w : World) :
  path_resolve other ≠ path_resolve projectPath →
  platformCache (snd (detectGitPlatform projectPath options w)) !! path_resolve other =
  platformCache w !! path_resolve other.
Proof.
  intros Hne.
  destruct (decide (flagSet (forceRefresh options) = true ∨
                    platformCache w !! path_resolve projectPath = None)) as [Hm|Hh].
  - destruct (detect_miss projectPath options w Hm) as (w' & Hrun & _ & Hc & _).
    rewrite Hrun. cbn [snd]. rewrite Hc. by rewrite lookup_insert_ne.
  - destruct (flagSet (forceRefresh options)) eqn:Hf; [by destruct Hh; left|].
    destruct (platformCache w !! path_resolve projectPath) as [v|] eqn:Hc;
      [|by destruct Hh; right].
    by rewrite (detect_hit _ _ _ v Hf Hc).
Qed.

Lemma clearPlatformCache_spec (w : World) :
  clearPlatformCache w = (inr tt, setPlatformCache ∅ w).
Proof. reflexivity. Qed.

Lemma clearProjectPlatformCache_spec (projectPath : string) (w : World) :
  clearProjectPlatformCache projectPath w =
  (inr tt, setPlatformCache (delete (path_resolve projectPath) (platformCache w)) w).
Proof. reflexivity. Qed.

(** C5. The first detection for a path (nothing cached under its resolved
    path) starts exactly one git process and caches what it found, [null]
    included and in particular when the git command throws.  From then on
    every detection for the same resolved path without [forceRefresh]
    starts no process, returns the cached value and leaves the world as it
    is, so this holds for any number of such calls.  After
    [clearPlatformCache], or [clearProjectPlatformCache] for that path, the
    next detection starts one process again. *)
Theorem detect_cache (projectPath : string) (options : DetectOptions) (w : World) :
  platformCache w !! path_resolve projectPath = None →
  ∃ r w1,
    detectGitPlatform projectPath options w = (inr r, w1) ∧
    trace w1 = (trace w ++ [remoteQuery projectPath options])%list ∧
    platformCache w1 !! path_resolve projectPath = Some r ∧
    (∀ e fs, runSync (remoteQuery projectPath options) w = (inl e, fs) → r = None) ∧
    (∀ again options',
       path_resolve again = path_resolve projectPath →
       flagSet (forceRefresh options') = false →
       detectGitPlatform again options' w1 = (inr r, w1)) ∧
    (∀ options' w2,
       clearPlatformCache w1 = (inr tt, w2) ∨
       clearProjectPlatformCache projectPath w1 = (inr tt, w2) →
       ∃ r' w3,
         detectGitPlatform projectPath options' w2 = (inr r', w3) ∧
         trace w3 = (trace w1 ++ [remoteQuery projectPath options'])%list).
Proof.
  intros Hnone.
  destruct (detect_miss projectPath options w (or_intror Hnone))
    as (w1 & Hrun & Htr & Hcache & _).
  eexists _, w1. split; [exact Hrun|]. split; [exact Htr|].
  assert (Hkey : platformCache w1 !! path_resolve projectPath =
                 Some (detected (fst (runSync (remoteQuery projectPath options) w)))).
  { rewrite Hcache. apply lookup_insert_eq. }
  split; [exact Hkey|]. split; [|split].
  - intros e fs ->. reflexivity.
  - intros again options' Hsame Hf. apply detect_hit; [done|]. by rewrite Hsame.
  - intros options' w2 Hclear.
    assert (Hgone : platformCache w2 !! path_resolve projectPath = None ∧
                    trace w2 = trace w1).
    { destruct Hclear as [Hc|Hc].
      - rewrite clearPlatformCache_spec in Hc. injection Hc as <-. done.
      - rewrite clearProjectPlatformCache_spec in Hc. injection Hc as <-.
        split; [apply lookup_delete_eq|done]. }
    destruct Hgone as [Hgone Htr2].
    destruct (detect_miss projectPath options' w2 (or_intror Hgone))
      as (w3 & Hrun3 & Htr3 & _).
    eexists _, w3. split; [exact Hrun3|]. by rewrite Htr3, Htr2.
Qed.

End DetectorFacts.

(** ** The factory *)

Section FactoryFacts.
Context `{Environment}.

Lemma getAdapter_unfold (projectPath : string) (w : World) :
  getAdapter projectPath w =
  match detectGitPlatform projectPath noOptions w with
  | (inr None, w') =>
      (inl (Error "Error"
         "Could not detect git platform. Make sure the project has a git remote configured."),
       w')
  | (inr (Some platform), w') => (createAdapter platform, w')
  | (inl e, w') => (inl e, w')
  end.
Proof.
  unfold getAdapter, bind.
  destruct (detectGitPlatform projectPath noOptions w) as [[e|[p|]] w']; reflexivity.
Qed.

(** C6. [createAdapter] builds a [GitHubAdapter] for type [github], a
    [GitLabAdapter] for type [gitlab], and throws "Unsupported platform
    type" for any other type; [getAdapter] throws when the detection
    yields [null], and otherwise is [createAdapter] on the descriptor
    detected. *)
Theorem factory_dispatch (platform : GitPlatform) (projectPath : string) (w : World) :
  (type platform = "github" → createAdapter platform = inr (GitHubAdapter platform)) ∧
  (type platform = "gitlab" → createAdapter platform = inr (GitLabAdapter platform)) ∧
  (type platform ≠ "github" → type platform ≠ "gitlab" →
   createAdapter platform =
     inl (Error "Error" ("Unsupported platform type: " ++ type platform))) ∧
  (∀ w', detectGitPlatform projectPath noOptions w = (inr None, w') →
         ∃ e, getAdapter projectPath w = (inl e, w')) ∧
  (∀ detectedPlatform w',
     detectGitPlatform projectPath noOptions w = (inr (Some detectedPlatform), w') →
     getAdapter projectPath w = (createAdapter detectedPlatform, w')).
Proof.
  unfold createAdapter. repeat split.
  - intros ->. reflexivity.
  - intros ->. reflexivity.
  - intros Hgh Hgl. apply seq_neq in Hgh, Hgl. by rewrite Hgh, Hgl.
  - intros w' Hd. rewrite getAdapter_unfold, Hd. eauto.
  - intros p w' Hd. by rewrite getAdapter_unfold, Hd.
Qed.

End FactoryFacts.

(** ** Adapter operations *)

Lemma tryCatch_wrap {A} (body : M A) (msg platformName : string) :
  throwsOnlyFor platformName
    (tryCatch body (fun error =>
       throw (PlatformAdapterError msg platformName (Some error)))).
Proof.
  intros w e w'. unfold tryCatch, throw.
  destruct (body w) as [[e0|a] w0]; intros [= <- <-]. eauto.
Qed.

Lemma tryCatch_swallow {A} (body : M A) (fallback : A) :
  neverThrows (tryCatch body (fun _ => ret fallback)).
Proof.
  intros w. unfold tryCatch, ret.
  destruct (body w) as [[e0|a] w0]; eauto.
Qed.

Lemma countChar_append (c : ascii) (a b : string) :
  countChar c (a ++ b) = (countChar c a + countChar c b)%nat.
Proof.
  induction a as [|x a IH]; [done|]. rewrite append_cons. simpl. rewrite IH. lia.
Qed.

Lemma nameChar_not_slash (c : ascii) : nameChar c = true → Ascii.eqb c "/" = false.
Proof.
  destruct (Ascii.eqb_spec c "/") as [->|]; [|done]. by vm_compute.
Qed.

Lemma countChar_names (s : string) :
  allChars nameChar s = true → countChar "/" s = 0%nat.
Proof.
  induction s as [|x s IH]; [done|]. simpl.
  intros [Hx Hs]%andb_prop. by rewrite (nameChar_not_slash _ Hx), IH.
Qed.

(** What the format check of the GitHub adapter accepts: two non-empty
    runs of name characters around one slash. *)
Lemma repoFormatRe_inv (repo : string) :
  Re.test repoFormatRe repo = true →
  ∃ a b, repo = a ++ "/" ++ b ∧
         (a ≠ "" ∧ allChars nameChar a = true) ∧
         (b ≠ "" ∧ allChars nameChar b = true).
Proof.
  unfold Re.test. intros [m Hm]%bool_decide_eq_true.
  unfold Re.exec, repoFormatRe in Hm. cbn [Re.anchored Re.ignoreCase Re.body] in Hm.
  apply ReFacts.matchHere_den in Hm as [rest Hd].
  cbn [Re.den] in Hd.
  destruct Hd as (c9 & Hd & ->).
  destruct Hd as (c1 & s1 & [(a & Ha & -> & Has) ->] & Hd).
  destruct Hd as (c2 & s2 & [Hl ->] & Hd).
  destruct Hd as (c3 & s3 & [(b & Hb & -> & Hbs) ->] & (-> & -> & ->)).
  apply afterLit_exact in Hl. subst s1.
  exists a, b. by rewrite append_nil_r.
Qed.

Lemma repoFormatRe_complete (a b : string) :
  a ≠ "" → allChars nameChar a = true →
  b ≠ "" → allChars nameChar b = true →
  Re.test repoFormatRe (a ++ "/" ++ b) = true.
Proof.
  intros Ha Has Hb Hbs. unfold Re.test. apply bool_decide_eq_true.
  unfold Re.exec, repoFormatRe. cbn [Re.anchored Re.ignoreCase Re.body].
  eapply ReFacts.den_matchHere with (rest := ""). cbn [Re.den].
  exists ∅, ("/" ++ b). split; [by eauto|].
  exists ∅, b. split; [split; [by apply afterLit_exact|done]|].
  exists ∅, "". split; [|done]. split; [|done].
  exists b. by rewrite append_nil_r.
Qed.

(** A name with a nested namespace (two slashes or more) fails the check. *)
Lemma nested_name_rejected (repo : string) :
  (2 ≤ countChar "/" repo)%nat → Re.test repoFormatRe repo = false.
Proof.
  intros Hcount. destruct (Re.test repoFormatRe repo) eqn:Ht; [|done].
  apply repoFormatRe_inv in Ht as (a & b & -> & [_ Ha] & [_ Hb]).
  rewrite !countChar_append, (countChar_names _ Ha), (countChar_names _ Hb) in Hcount.
  simpl in Hcount. lia.
Qed.

Section AdapterFacts.
Context `{Environment}.
Variable platform : GitPlatform.

(** *** Validation in the GitHub adapter *)

Lemma github_getBranches_invalid (repo : string) (w : World) :
  Re.test repoFormatRe repo = false →
  GitHub.getBranches repo w =
  (inl (PlatformAdapterError ("Failed to get branches for " ++ repo) "github"
          (Some invalidFormat)), w).
Proof.
  intros Ht. unfold GitHub.getBranches, tryCatch, throw. by rewrite Ht.
Qed.

Lemma github_addGitRemote_invalid (projectPath repoFullName : string) (w : World) :
  Re.test repoFormatRe repoFullName = false →
  GitHub.addGitRemote projectPath repoFullName w =
  (inl (PlatformAdapterError "Failed to add git remote" "github"
          (Some invalidFormat)), w).
Proof.
  intros Ht. unfold GitHub.addGitRemote, tryCatch, throw. by rewrite Ht.
Qed.

(** [GitLab.getBranches] starts a [glab] process whatever the repository
    name looks like. *)
Lemma gitlab_getBranches_calls (repo : string) (w : World) :
  ∃ later, trace (GitLab.getBranches platform repo w).2 =
           (trace w ++ gitlabFirstCall platform repo w :: later)%list.
Proof.
  unfold GitLab.getBranches, GitLab.getProjectId, gitlabFirstCall,
    tryCatch, bind, getWorld, execFileSync, throw, ret, modify.
  destruct (projectIdCache w !! repo) as [projectId|] eqn:Hc.
  - destruct (runSync _ w) as [[e|out] fs]; exists []; reflexivity.
  - destruct (runSync _ w) as [[e|out] fs]; cbn.
    + exists []. reflexivity.
    + match goal with |- context [runSync ?i ?w'] =>
        destruct (runSync i w') as [[e|out'] fs'] end;
      cbn; rewrite <- app_assoc; eexists; reflexivity.
Qed.

End AdapterFacts.

Ltac step_m :=
  unfold tryCatch, bind, throw, ret, liftResult, modify, getWorld,
    execSync, execFileSync, existsSync, readFileSync, after in *.

Section OperationFailures.
Context `{Environment}.
Variable platform : GitPlatform.

(** *** GitHub: getToken *)



(** *** GitHub: getUser *)




(** *** GitHub: getBranches *)


(** *** GitHub: createRepo *)




(** *** GitHub: addGitRemote *)


(** *** GitLab: getToken *)






(** *** GitLab: getUser *)




(** *** GitLab: getBranches *)




(** *** GitLab: createRepo *)



(** *** GitLab: addGitRemote *)



(** *** listOrganizations *)






End OperationFailures.

Section RepoFormat.
Context `{Environment}.
Variable platform : GitPlatform.

(** C10. [GitHubAdapter.getBranches] and [GitHubAdapter.addGitRemote]
    reject every repository name that does not match
    [^[A-Za-z0-9_.-]+/[A-Za-z0-9_.-]+$], names with two or more slashes
    among them: they throw a [PlatformAdapterError] and the world they
    return is the one they were called in, so no child process was
    started.  [GitLabAdapter.getBranches] has no such check: for the same
    name it goes on to start a [glab] process. *)
Theorem github_validates_repo_format (projectPath repo : string) (w : World) :
  Re.test repoFormatRe repo = false ∨ (2 ≤ countChar "/" repo)%nat →
  GitHub.getBranches repo w =
    (inl (PlatformAdapterError ("Failed to get branches for " ++ repo) "github"
            (Some invalidFormat)), w) ∧
  GitHub.addGitRemote projectPath repo w =
    (inl (PlatformAdapterError "Failed to add git remote" "github"
            (Some invalidFormat)), w) ∧
  ∃ later, trace (GitLab.getBranches platform repo w).2 =
           (trace w ++ gitlabFirstCall platform repo w :: later)%list.
Proof.
  intros Hbad.
  assert (Ht : Re.test repoFormatRe repo = false).
  { destruct Hbad as [?|?]; [done|by apply nested_name_rejected]. }
  split; [by apply github_getBranches_invalid|].
  split; [by apply github_addGitRemote_invalid|].
  apply gitlab_getBranches_calls.
Qed.

End RepoFormat.

(** ** Release creation in the GitLab adapter *)

Lemma append_inj_r (a b c : string) : a ++ c = b ++ c → a = b.
Proof.
  revert b. induction a as [|x a IH]; intros [|y b] Heq; [done| | |].
  - apply (f_equal String.length) in Heq. rewrite !length_append in Heq.
    simpl in Heq. lia.
  - apply (f_equal String.length) in Heq. rewrite !length_append in Heq.
    simpl in Heq. lia.
  - rewrite !append_cons in Heq. injection Heq as -> Heq. f_equal. by apply IH.
Qed.

(** Releases started at different times get different notes files. *)
Lemma notesFileName_inj (t1 t2 : N) :
  GitLab.notesFileName t1 = GitLab.notesFileName t2 → t1 = t2.
Proof.
  unfold GitLab.notesFileName, showZ. intros Heq.
  apply String.app_inj in Heq. apply append_inj_r in Heq.
  apply N2Z.inj, DecimalZ.to_int_inj.
  assert (Hs := f_equal NilEmpty.int_of_string Heq).
  rewrite !NilEmpty.isi in Hs. by injection Hs.
Qed.

Section ReleaseFacts.
Context `{Environment}.
Variable platform : GitPlatform.

Lemma traceGrows_ret {A} (a : A) : traceGrows (ret a).
Proof. intros w. exists []. by rewrite app_nil_r. Qed.

Lemma traceGrows_throw {A} (e : JsError) : traceGrows (@throw A e).
Proof. intros w. exists []. by rewrite app_nil_r. Qed.

Lemma traceGrows_liftResult {A} (r : Result A) : traceGrows (liftResult r).
Proof. intros w. exists []. by rewrite app_nil_r. Qed.

Lemma traceGrows_getWorld : traceGrows getWorld.
Proof. intros w. exists []. by rewrite app_nil_r. Qed.

Lemma traceGrows_setProjectId (k : string) (v : JsNumber) :
  traceGrows (modify (fun w => setProjectIdCache (<[k := v]> (projectIdCache w)) w)).
Proof. intros w. exists []. by rewrite app_nil_r. Qed.

Lemma traceGrows_bind {A B} (m : M A) (f : A → M B) :
  traceGrows m → (∀ a, traceGrows (f a)) → traceGrows (bind m f).
Proof.
  intros Hm Hf w. unfold bind. destruct (Hm w) as [l1 H1].
  destruct (m w) as [[e|a] w1]; cbn in *.
  - by exists l1.
  - destruct (Hf a w1) as [l2 H2]. exists (l1 ++ l2)%list.
    by rewrite H2, H1, app_assoc.
Qed.

Lemma traceGrows_tryCatch {A} (m : M A) (handler : JsError → M A) :
  traceGrows m → (∀ e, traceGrows (handler e)) → traceGrows (tryCatch m handler).
Proof.
  intros Hm Hh w. unfold tryCatch. destruct (Hm w) as [l1 H1].
  destruct (m w) as [[e|a] w1]; cbn in *.
  - destruct (Hh e w1) as [l2 H2]. exists (l1 ++ l2)%list.
    by rewrite H2, H1, app_assoc.
  - by exists l1.
Qed.

Lemma traceGrows_execSync (command : string) (cwd : option string) :
  traceGrows (execSync command cwd).
Proof.
  intros w. unfold execSync. destruct (runSync _ w) as [r fs]. by eexists.
Qed.

Lemma traceGrows_execFileSync (file : string) (args : list string) (cwd : option string) :
  traceGrows (execFileSync file args cwd).
Proof.
  intros w. unfold execFileSync. destruct (runSync _ w) as [r fs]. by eexists.
Qed.

Lemma traceGrows_getProjectId (fullPath : string) :
  traceGrows (GitLab.getProjectId platform fullPath).
Proof.
  unfold GitLab.getProjectId. apply traceGrows_bind; [apply traceGrows_getWorld|].
  intros w0. destruct (projectIdCache w0 !! fullPath); [apply traceGrows_ret|].
  apply traceGrows_tryCatch; [|intros; apply traceGrows_throw].
  apply traceGrows_bind; [apply traceGrows_execFileSync|]. intros out.
  apply traceGrows_bind; [apply traceGrows_setProjectId|]. intros _.
  apply traceGrows_ret.
Qed.

Lemma traceGrows_detectRepo (projectPath : string) :
  traceGrows (GitLab.detectRepo platform projectPath).
Proof.
  unfold GitLab.detectRepo.
  apply traceGrows_tryCatch; [|intros; apply traceGrows_ret].
  apply traceGrows_bind; [apply traceGrows_execSync|]. intros out.
  apply traceGrows_bind; [apply traceGrows_liftResult|]. intros re1.
  apply traceGrows_bind; [apply traceGrows_liftResult|]. intros re2.
  apply traceGrows_ret.
Qed.

Lemma traceGrows_getReleaseUrl (projectPath tagName : string) :
  traceGrows (GitLab.getReleaseUrl platform projectPath tagName).
Proof.
  unfold GitLab.getReleaseUrl.
  apply traceGrows_tryCatch; [|intros; apply traceGrows_ret].
  apply traceGrows_bind; [apply traceGrows_detectRepo|]. intros [repo|];
    [|apply traceGrows_ret].
  destruct (negb (Js.truthy repo)); [apply traceGrows_ret|].
  apply traceGrows_bind; [apply traceGrows_getProjectId|]. intros projectId.
  apply traceGrows_bind; [apply traceGrows_execFileSync|]. intros out.
  apply traceGrows_ret.
Qed.

(** [getReleaseUrl] never throws. *)
Lemma getReleaseUrl_returns (projectPath tagName : string) :
  neverThrows (GitLab.getReleaseUrl platform projectPath tagName).
Proof. apply tryCatch_swallow. Qed.

(** The [finally] block never throws, starts no process, and leaves no
    notes file behind unless the unlink fails. *)
Lemma cleanupNotes_spec (notesFile : string) (w : World) :
  notesFile ≠ "" →
  ∃ w', GitLab.cleanupNotes notesFile w = (inr tt, w') ∧
        trace w' = trace w ∧
        (unlinkError notesFile w = None → files w' !! notesFile = None) ∧
        (is_Some (unlinkError notesFile w) → w' = w).
Proof.
  intros Hne. unfold GitLab.cleanupNotes, Js.truthy. step_m.
  apply String.eqb_neq in Hne. rewrite Hne. cbn [negb].
  destruct (files w !! notesFile) as [data|] eqn:Hf.
  - rewrite bool_decide_eq_true_2 by eauto. unfold unlinkSync.
    destruct (unlinkError notesFile w) as [e|] eqn:Hu.
    + exists w. split; [done|]. split; [done|]. split; [done|]. done.
    + rewrite Hf. eexists. split; [done|]. split; [done|]. split.
      * intros _. apply lookup_delete_eq.
      * by intros [? ?].
  - rewrite bool_decide_eq_false_2 by (by intros [? ?]).
    exists w. split; [done|]. split; [done|]. split; [done|]. done.
Qed.

End ReleaseFacts.

Section ReleaseTheorem.
Context `{Environment}.
Variable platform : GitPlatform.

(** C7 (as amended). [createRelease] never throws.  When the notes file
    cannot be written it returns the failure with that error's message and
    starts no process.  Otherwise the release body is in the notes file
    when the [glab release create] child is started, and the result is the
    failure carrying the message of the child's error (its stderr, or
    "glab exited with code ..." or the spawn error's message) or, on exit
    code 0, a success with the tag name.  On each of these paths the notes
    file is gone when the call returns, provided unlinking it does not
    fail. *)
Theorem createRelease_cleanup (options : CreateReleaseOptions) (w : World) :
  let notesFile := notesFileOf w in
  let child := releaseInvocation platform options notesFile in
  ∃ r w',
    GitLab.createRelease platform options w = (inr r, w') ∧
    match writeError notesFile w with
    | Some e => r = releaseFailure (errorMessage e) ∧ trace w' = trace w
    | None =>
        let w1 := withFile notesFile (body options) w in
        files w1 !! notesFile = Some (body options) ∧
        (∃ later, trace w' = (trace w ++ child :: later)%list) ∧
        match childFailureMessage (runChild child w1).1 with
        | Some msg => r = releaseFailure msg
        | None =>
            success r = true ∧ releaseTagName r = Some (tagName options) ∧
            error r = None
        end
    end ∧
    ((∀ w'', unlinkError notesFile w'' = None) → files w' !! notesFile = None).
Proof.
  intros notesFile child.
  assert (Hne : notesFile ≠ "") by apply path_join_nonempty.
  unfold GitLab.createRelease. unfold bind at 1. unfold getWorld.
  fold (notesFileOf w). fold notesFile.
  unfold tryFinally, tryCatch. unfold bind at 1. unfold writeFileSync.
  destruct (writeError notesFile w) as [e|] eqn:Hw.
  - (* the notes file cannot be written *)
    unfold ret.
    destruct (cleanupNotes_spec notesFile w Hne) as (w' & -> & Htr & Hgone & _).
    exists (releaseFailure (errorMessage e)), w'.
    split; [done|]. split; [done|]. intros Hu. by apply Hgone.
  - fold (withFile notesFile (body options) w).
    set (w1 := withFile notesFile (body options) w).
    unfold bind at 1. unfold spawnAndWait.
    fold (releaseInvocation platform options notesFile). fold child.
    destruct (runChild child w1) as [ending fs] eqn:Hchild. cbn [fst].
    set (w2 := setFiles fs (logInvocation child w1)).
    assert (Htr2 : trace w2 = (trace w ++ [child])%list) by reflexivity.
    assert (Hfile : files w1 !! notesFile = Some (body options))
      by apply lookup_insert_eq.
    destruct (childFailureMessage ending) as [msg|] eqn:Hmsg.
    + (* the child failed *)
      assert (Hawait : GitLab.awaitChild ending w2 = (inl (Error "Error" msg), w2) ∨
                       ∃ e, GitLab.awaitChild ending w2 = (inl e, w2) ∧
                            errorMessage e = msg).
      { destruct ending as [[[| |]|] out err|e]; cbn in Hmsg; try discriminate Hmsg;
          injection Hmsg as <-; solve [by left | right; by eexists]. }
      assert (Hbody : ∃ e, GitLab.awaitChild ending w2 = (inl e, w2) ∧
                           errorMessage e = msg).
      { destruct Hawait as [Ha|Ha]; [|done]. by eexists. }
      destruct Hbody as (e & Ha & Hm).
      unfold bind at 1. rewrite Ha. unfold ret. rewrite Hm.
      destruct (cleanupNotes_spec notesFile w2 Hne) as (w' & -> & Htr & Hgone & _).
      exists (releaseFailure msg), w'.
      split; [done|]. split.
      * split; [done|]. split; [|done]. exists []. by rewrite Htr, Htr2.
      * intros Hu. by apply Hgone.
    + (* exit code 0 *)
      assert (Hawait : ∃ out, GitLab.awaitChild ending w2 = (inr out, w2)).
      { destruct ending as [[[| |]|] out err|e]; cbn in Hmsg; try discriminate Hmsg.
        by eexists. }
      destruct Hawait as [out Ha]. unfold bind at 1. rewrite Ha.
      unfold bind at 1.
      destruct (getReleaseUrl_returns platform (projectPath options) (tagName options) w2)
        as (url & w3 & Hurl).
      destruct (traceGrows_getReleaseUrl platform (projectPath options)
                  (tagName options) w2) as [later Htr3].
      rewrite Hurl in Htr3 |- *. cbn [snd] in Htr3. unfold ret.
      destruct (cleanupNotes_spec notesFile w3 Hne) as (w' & -> & Htr & Hgone & _).
      eexists _, w'. split; [done|]. split.
      * split; [done|]. split; [|done].
        exists later. by rewrite Htr, Htr3, Htr2, <- app_assoc.
      * intros Hu. by apply Hgone.
Qed.

End ReleaseTheorem.

(** ** The login flow *)

Lemma fold_left_invariant {S E} (I : S → Prop) (step : S → E → S) :
  (∀ s e, I s → I (step s e)) → ∀ evs s, I s → I (fold_left step evs s).
Proof.
  intros Hstep evs. induction evs as [|ev evs IH]; intros s Hs; [done|].
  cbn. apply IH. by apply Hstep.
Qed.

Section GitHubAuth.

Lemma github_extract_promise (st : GitHub.AuthState) :
  GitHub.promise (GitHub.tryExtractAndOpenBrowser st) = GitHub.promise st.
Proof.
  unfold GitHub.tryExtractAndOpenBrowser.
  destruct (GitHub.deviceCodeExtracted st || GitHub.extractionInProgress st); [done|].
  by destruct (Re.exec deviceCodeRe _).
Qed.

Lemma github_step_running (st : GitHub.AuthState) (ev : AuthEvent) :
  keepsRunning ev = true →
  GitHub.promise (GitHub.authStep st ev) = GitHub.promise st.
Proof.
  destruct ev; try done; intros _; cbn [GitHub.authStep].
  - by rewrite github_extract_promise.
  - by rewrite github_extract_promise.
  - unfold GitHub.afterOpen. by destruct (GitHub.awaitingOpen st).
Qed.

Lemma github_step_settled (st : GitHub.AuthState) (ev : AuthEvent) (r : AuthStartResult) :
  GitHub.promise st = Fulfilled r →
  GitHub.promise (GitHub.authStep st ev) = Fulfilled r.
Proof.
  intros Hp. destruct ev as [c|c|o|code|e].
  - by rewrite github_step_running.
  - by rewrite github_step_running.
  - by rewrite github_step_running.
  - cbn [GitHub.authStep]. unfold GitHub.onClose.
    destruct code as [[| |]|]; cbn; by rewrite Hp.
  - cbn. by rewrite Hp.
Qed.

Lemma github_run_running (evs : list AuthEvent) (st : GitHub.AuthState) :
  forallb keepsRunning evs = true →
  GitHub.promise (fold_left GitHub.authStep evs st) = GitHub.promise st.
Proof.
  revert st. induction evs as [|ev evs IH]; intros st; [done|].
  cbn. intros [Hev Hevs]%andb_prop. by rewrite IH, github_step_running.
Qed.

Lemma github_run_settled (evs : list AuthEvent) (st : GitHub.AuthState)
    (r : AuthStartResult) :
  GitHub.promise st = Fulfilled r →
  GitHub.promise (fold_left GitHub.authStep evs st) = Fulfilled r.
Proof.
  revert st. induction evs as [|ev evs IH]; intros st Hp; [done|].
  cbn. apply IH. by apply github_step_settled.
Qed.

Lemma github_step_not_rejected (st : GitHub.AuthState) (ev : AuthEvent) :
  (∀ e, GitHub.promise st ≠ Rejected e) →
  ∀ e, GitHub.promise (GitHub.authStep st ev) ≠ Rejected e.
Proof.
  intros Hp e. destruct ev as [c|c|o|code|err].
  - by rewrite github_step_running.
  - by rewrite github_step_running.
  - by rewrite github_step_running.
  - cbn [GitHub.authStep]. unfold GitHub.onClose.
    destruct code as [[| |]|]; cbn; destruct (GitHub.promise st) eqn:Hst;
      try done; try (intros [= ->]; by eapply Hp).
  - cbn. destruct (GitHub.promise st) eqn:Hst;
      try done; try (intros [= ->]; by eapply Hp).
Qed.

Lemma github_run_not_rejected (evs : list AuthEvent) (st : GitHub.AuthState) :
  (∀ e, GitHub.promise st ≠ Rejected e) →
  ∀ e, GitHub.promise (fold_left GitHub.authStep evs st) ≠ Rejected e.
Proof.
  revert st. induction evs as [|ev evs IH]; intros st Hp; [done|].
  cbn. apply IH. by apply github_step_not_rejected.
Qed.

Lemma github_close (code : option Z) (st : GitHub.AuthState) :
  GitHub.promise st = Pending →
  ∃ r, GitHub.promise (GitHub.onClose code st) = Fulfilled r ∧
       closeOutcome code (GitHub.browserOpenedSuccessfully st)
         (GitHub.extractedAuthUrl st) r.
Proof.
  intros Hp. unfold GitHub.onClose, closeOutcome.
  destruct code as [[| |]|]; cbn; rewrite Hp; cbn; eexists; (split; [done|]); cbn;
    repeat split; by destruct (GitHub.browserOpenedSuccessfully st).
Qed.

End GitHubAuth.

Section GitLabAuth.
Context `{Environment}.
Variable platform : GitPlatform.

Lemma gitlab_extract_promise (st : GitLab.AuthState) :
  GitLab.promise (GitLab.tryExtractAndOpenBrowser platform st) = GitLab.promise st.
Proof.
  unfold GitLab.tryExtractAndOpenBrowser.
  destruct (GitLab.authUrlExtracted st || GitLab.extractionInProgress st); [done|].
  destruct (newRegExp _ _) as [e|urlPattern]; [done|].
  by destruct (Re.exec urlPattern _).
Qed.

Lemma gitlab_step_running (st : GitLab.AuthState) (ev : AuthEvent) :
  keepsRunning ev = true →
  GitLab.promise (GitLab.authStep platform st ev) = GitLab.promise st.
Proof.
  destruct ev; try done; intros _; cbn [GitLab.authStep].
  - by rewrite gitlab_extract_promise.
  - by rewrite gitlab_extract_promise.
  - unfold GitLab.afterOpen. by destruct (GitLab.awaitingOpen st).
Qed.

Lemma gitlab_step_settled (st : GitLab.AuthState) (ev : AuthEvent) (r : AuthStartResult) :
  GitLab.promise st = Fulfilled r →
  GitLab.promise (GitLab.authStep platform st ev) = Fulfilled r.
Proof.
  intros Hp. destruct ev as [c|c|o|code|e].
  - by rewrite gitlab_step_running.
  - by rewrite gitlab_step_running.
  - by rewrite gitlab_step_running.
  - cbn [GitLab.authStep]. unfold GitLab.onClose.
    destruct code as [[| |]|]; cbn; by rewrite Hp.
  - cbn. by rewrite Hp.
Qed.

Lemma gitlab_run_running (evs : list AuthEvent) (st : GitLab.AuthState) :
  forallb keepsRunning evs = true →
  GitLab.promise (fold_left (GitLab.authStep platform) evs st) = GitLab.promise st.
Proof.
  revert st. induction evs as [|ev evs IH]; intros st; [done|].
  cbn. intros [Hev Hevs]%andb_prop. by rewrite IH, gitlab_step_running.
Qed.

Lemma gitlab_run_settled (evs : list AuthEvent) (st : GitLab.AuthState)
    (r : AuthStartResult) :
  GitLab.promise st = Fulfilled r →
  GitLab.promise (fold_left (GitLab.authStep platform) evs st) = Fulfilled r.
Proof.
  revert st. induction evs as [|ev evs IH]; intros st Hp; [done|].
  cbn. apply IH. by apply gitlab_step_settled.
Qed.

Lemma gitlab_step_not_rejected (st : GitLab.AuthState) (ev : AuthEvent) :
  (∀ e, GitLab.promise st ≠ Rejected e) →
  ∀ e, GitLab.promise (GitLab.authStep platform st ev) ≠ Rejected e.
Proof.
  intros Hp e. destruct ev as [c|c|o|code|err].
  - by rewrite gitlab_step_running.
  - by rewrite gitlab_step_running.
  - by rewrite gitlab_step_running.
  - cbn [GitLab.authStep]. unfold GitLab.onClose.
    destruct code as [[| |]|]; cbn; destruct (GitLab.promise st) eqn:Hst;
      try done; try (intros [= ->]; by eapply Hp).
  - cbn. destruct (GitLab.promise st) eqn:Hst;
      try done; try (intros [= ->]; by eapply Hp).
Qed.

Lemma gitlab_run_not_rejected (evs : list AuthEvent) (st : GitLab.AuthState) :
  (∀ e, GitLab.promise st ≠ Rejected e) →
  ∀ e, GitLab.promise (fold_left (GitLab.authStep platform) evs st) ≠ Rejected e.
Proof.
  revert st. induction evs as [|ev evs IH]; intros st Hp; [done|].
  cbn. apply IH. by apply gitlab_step_not_rejected.
Qed.

Lemma gitlab_close (code : option Z) (st : GitLab.AuthState) :
  GitLab.promise st = Pending →
  ∃ r, GitLab.promise (GitLab.onClose code st) = Fulfilled r ∧
       closeOutcome code (GitLab.browserOpenedSuccessfully st)
         (GitLab.extractedAuthUrl st) r.
Proof.
  intros Hp. unfold GitLab.onClose, closeOutcome.
  destruct code as [[| |]|]; cbn; rewrite Hp; cbn; eexists; (split; [done|]); cbn;
    repeat split; by destruct (GitLab.browserOpenedSuccessfully st).
Qed.

Lemma exitedCleanly_iff (code : option Z) : exitedCleanly code = true ↔ code = Some 0%Z.
Proof. destruct code as [[| |]|]; cbn; split; congruence. Qed.

(** *** How the browser launch goes *)

Lemma github_idle_step (st : GitHub.AuthState) (ev : AuthEvent) :
  githubIdle st →
  githubIdle (GitHub.authStep st ev) ∨ ∃ url, githubAwaiting url (GitHub.authStep st ev).
Proof.
  intros (Hx & Ha & Hb).
  assert (Hext : ∀ st', githubIdle st' →
            githubIdle (GitHub.tryExtractAndOpenBrowser st') ∨
            ∃ url, githubAwaiting url (GitHub.tryExtractAndOpenBrowser st')).
  { intros st' (Hx' & Ha' & Hb'). unfold GitHub.tryExtractAndOpenBrowser.
    destruct (GitHub.deviceCodeExtracted st' || GitHub.extractionInProgress st');
      [by left|].
    destruct (Re.exec deviceCodeRe _); [|by left].
    right. eexists. by repeat split. }
  destruct ev as [chunk|chunk|opened|code|e]; cbn [GitHub.authStep].
  - by apply Hext.
  - by apply Hext.
  - left. unfold GitHub.afterOpen. by rewrite Ha.
  - left. unfold GitHub.onClose. by destruct code as [[| |]|].
  - by left.
Qed.

Lemma github_awaiting_step (url : string) (st : GitHub.AuthState) (ev : AuthEvent) :
  githubAwaiting url st →
  match ev with
  | OpenSettled opened => githubLaunched opened url (GitHub.authStep st ev)
  | _ => githubAwaiting url (GitHub.authStep st ev)
  end.
Proof.
  intros (Hx & Ha & Hb & Hu).
  destruct ev as [chunk|chunk|opened|code|e]; cbn [GitHub.authStep].
  - unfold GitHub.tryExtractAndOpenBrowser. cbn. by rewrite Hx.
  - unfold GitHub.tryExtractAndOpenBrowser. cbn. by rewrite Hx.
  - unfold GitHub.afterOpen. rewrite Ha. by repeat split.
  - unfold GitHub.onClose. by destruct code as [[| |]|].
  - done.
Qed.

Lemma github_launched_step (opened : bool) (url : string) (st : GitHub.AuthState)
    (ev : AuthEvent) :
  githubLaunched opened url st → githubLaunched opened url (GitHub.authStep st ev).
Proof.
  intros (Hx & Ha & Hb & Hu).
  destruct ev as [chunk|chunk|o|code|e]; cbn [GitHub.authStep].
  - unfold GitHub.tryExtractAndOpenBrowser. cbn. by rewrite Hx.
  - unfold GitHub.tryExtractAndOpenBrowser. cbn. by rewrite Hx.
  - unfold GitHub.afterOpen. by rewrite Ha.
  - unfold GitHub.onClose. by destruct code as [[| |]|].
  - done.
Qed.

(** A login is always in one of the three phases. *)
Lemma github_phase (events : list AuthEvent) :
  let st := fold_left GitHub.authStep events GitHub.authInit in
  githubIdle st ∨ (∃ url, githubAwaiting url st) ∨
  ∃ opened url, githubLaunched opened url st.
Proof.
  apply (fold_left_invariant
           (fun st => githubIdle st ∨ (∃ url, githubAwaiting url st) ∨
                      ∃ opened url, githubLaunched opened url st)); [|by left].
  intros st ev [Hidle | [[url Hwait] | (opened & url & Hdone)]].
  - destruct (github_idle_step st ev Hidle) as [?|?]; auto.
  - pose proof (github_awaiting_step url st ev Hwait) as Hstep.
    destruct ev; eauto 6.
  - right. right. exists opened, url. by apply github_launched_step.
Qed.

Lemma github_launched_run (opened : bool) (url : string) (events : list AuthEvent)
    (st : GitHub.AuthState) :
  githubLaunched opened url st →
  githubLaunched opened url (fold_left GitHub.authStep events st).
Proof.
  apply fold_left_invariant. intros s e. apply github_launched_step.
Qed.

(** The flag is set exactly by an awaited launch that ended well. *)
Lemma github_flag_iff (events : list AuthEvent) :
  GitHub.browserOpenedSuccessfully (GitHub.startAuth None events) = true ↔
  launchEnded (GitHub.startAuth None) GitHub.awaitingOpen true events.
Proof.
  unfold launchEnded. cbn [GitHub.startAuth]. split.
  - induction events as [|ev events IH] using rev_ind; [done|].
    rewrite fold_left_app. cbn [fold_left]. intros Hflag.
    destruct (github_phase events) as [Hidle | [[url Hwait] | (opened & url & Hdone)]].
    + destruct (github_idle_step _ ev Hidle) as [(_ & _ & Hb) | [u (_ & _ & Hb & _)]];
        congruence.
    + pose proof (github_awaiting_step url _ ev Hwait) as Hstep.
      destruct ev as [chunk|chunk|o|code|e];
        try (destruct Hstep as (_ & _ & Hb & _); congruence).
      destruct Hstep as (_ & _ & Hb & _). rewrite Hb in Hflag. subst o.
      exists events, []. split; [done|]. by destruct Hwait as (_ & Ha & _).
    + pose proof (github_launched_step opened url _ ev Hdone) as (_ & _ & Hb & _).
      rewrite Hb in Hflag. subst opened. destruct Hdone as (_ & _ & Hb' & _).
      destruct (IH Hb') as (pre & post & -> & Hpre).
      exists pre, (post ++ [ev])%list. split; [|done].
      by rewrite <- app_assoc.
  - intros (pre & post & -> & Hpre).
    destruct (github_phase pre) as [Hidle | [[url Hwait] | (opened & url & Hdone)]].
    + destruct Hidle as (_ & Ha & _). congruence.
    + rewrite fold_left_app. cbn [fold_left].
      pose proof (github_awaiting_step url _ (OpenSettled true) Hwait) as Hstep.
      by destruct (github_launched_run true url post _ Hstep) as (_ & _ & Hb & _).
    + destruct Hdone as (_ & Ha & _). congruence.
Qed.

Lemma gitlab_idle_step (st : GitLab.AuthState) (ev : AuthEvent) :
  gitlabIdle st →
  gitlabIdle (GitLab.authStep platform st ev) ∨
  ∃ url, gitlabAwaiting url (GitLab.authStep platform st ev).
Proof.
  intros (Hx & Ha & Hb).
  assert (Hext : ∀ st', gitlabIdle st' →
            gitlabIdle (GitLab.tryExtractAndOpenBrowser platform st') ∨
            ∃ url, gitlabAwaiting url (GitLab.tryExtractAndOpenBrowser platform st')).
  { intros st' (Hx' & Ha' & Hb'). unfold GitLab.tryExtractAndOpenBrowser.
    destruct (GitLab.authUrlExtracted st' || GitLab.extractionInProgress st');
      [by left|].
    destruct (newRegExp _ _) as [e|urlPattern]; [by left|].
    destruct (Re.exec urlPattern _); [|by left].
    right. eexists. by repeat split. }
  destruct ev as [chunk|chunk|opened|code|e]; cbn [GitLab.authStep].
  - by apply Hext.
  - by apply Hext.
  - left. unfold GitLab.afterOpen. by rewrite Ha.
  - left. unfold GitLab.onClose. by destruct code as [[| |]|].
  - by left.
Qed.

Lemma gitlab_awaiting_step (url : string) (st : GitLab.AuthState) (ev : AuthEvent) :
  gitlabAwaiting url st →
  match ev with
  | OpenSettled opened => gitlabLaunched opened url (GitLab.authStep platform st ev)
  | _ => gitlabAwaiting url (GitLab.authStep platform st ev)
  end.
Proof.
  intros (Hx & Ha & Hb & Hu).
  destruct ev as [chunk|chunk|opened|code|e]; cbn [GitLab.authStep].
  - unfold GitLab.tryExtractAndOpenBrowser. cbn. by rewrite Hx.
  - unfold GitLab.tryExtractAndOpenBrowser. cbn. by rewrite Hx.
  - unfold GitLab.afterOpen. rewrite Ha. by repeat split.
  - unfold GitLab.onClose. by destruct code as [[| |]|].
  - done.
Qed.

Lemma gitlab_launched_step (opened : bool) (url : string) (st : GitLab.AuthState)
    (ev : AuthEvent) :
  gitlabLaunched opened url st →
  gitlabLaunched opened url (GitLab.authStep platform st ev).
Proof.
  intros (Hx & Ha & Hb & Hu).
  destruct ev as [chunk|chunk|o|code|e]; cbn [GitLab.authStep].
  - unfold GitLab.tryExtractAndOpenBrowser. cbn. by rewrite Hx.
  - unfold GitLab.tryExtractAndOpenBrowser. cbn. by rewrite Hx.
  - unfold GitLab.afterOpen. by rewrite Ha.
  - unfold GitLab.onClose. by destruct code as [[| |]|].
  - done.
Qed.

Lemma gitlab_phase (events : list AuthEvent) :
  let st := fold_left (GitLab.authStep platform) events (GitLab.authInit platform) in
  gitlabIdle st ∨ (∃ url, gitlabAwaiting url st) ∨
  ∃ opened url, gitlabLaunched opened url st.
Proof.
  apply (fold_left_invariant
           (fun st => gitlabIdle st ∨ (∃ url, gitlabAwaiting url st) ∨
                      ∃ opened url, gitlabLaunched opened url st)); [|by left].
  intros st ev [Hidle | [[url Hwait] | (opened & url & Hdone)]].
  - destruct (gitlab_idle_step st ev Hidle) as [?|?]; auto.
  - pose proof (gitlab_awaiting_step url st ev Hwait) as Hstep.
    destruct ev; eauto 6.
  - right. right. exists opened, url. by apply gitlab_launched_step.
Qed.

Lemma gitlab_launched_run (opened : bool) (url : string) (events : list AuthEvent)
    (st : GitLab.AuthState) :
  gitlabLaunched opened url st →
  gitlabLaunched opened url (fold_left (GitLab.authStep platform) events st).
Proof.
  apply fold_left_invariant. intros s e. apply gitlab_launched_step.
Qed.

Lemma gitlab_flag_iff (events : list AuthEvent) :
  GitLab.browserOpenedSuccessfully (GitLab.startAuth platform None events) = true ↔
  launchEnded (GitLab.startAuth platform None) GitLab.awaitingOpen true events.
Proof.
  unfold launchEnded. cbn [GitLab.startAuth]. split.
  - induction events as [|ev events IH] using rev_ind; [done|].
    rewrite fold_left_app. cbn [fold_left]. intros Hflag.
    destruct (gitlab_phase events) as [Hidle | [[url Hwait] | (opened & url & Hdone)]].
    + destruct (gitlab_idle_step _ ev Hidle) as [(_ & _ & Hb) | [u (_ & _ & Hb & _)]];
        congruence.
    + pose proof (gitlab_awaiting_step url _ ev Hwait) as Hstep.
      destruct ev as [chunk|chunk|o|code|e];
        try (destruct Hstep as (_ & _ & Hb & _); congruence).
      destruct Hstep as (_ & _ & Hb & _). rewrite Hb in Hflag. subst o.
      exists events, []. split; [done|]. by destruct Hwait as (_ & Ha & _).
    + pose proof (gitlab_launched_step opened url _ ev Hdone) as (_ & _ & Hb & _).
      rewrite Hb in Hflag. subst opened. destruct Hdone as (_ & _ & Hb' & _).
      destruct (IH Hb') as (pre & post & -> & Hpre).
      exists pre, (post ++ [ev])%list. split; [|done].
      by rewrite <- app_assoc.
  - intros (pre & post & -> & Hpre).
    destruct (gitlab_phase pre) as [Hidle | [[url Hwait] | (opened & url & Hdone)]].
    + destruct Hidle as (_ & Ha & _). congruence.
    + rewrite fold_left_app. cbn [fold_left].
      pose proof (gitlab_awaiting_step url _ (OpenSettled true) Hwait) as Hstep.
      by destruct (gitlab_launched_run true url post _ Hstep) as (_ & _ & Hb & _).
    + destruct Hdone as (_ & Ha & _). congruence.
Qed.

(** The awaited launch ends with [opened]; output goes on arriving and the
    child closes: what the login resolves with. *)
Lemma github_launch_close (pre between later : list AuthEvent) (opened : bool)
    (code : option Z) :
  forallb keepsRunning pre = true → forallb keepsRunning between = true →
  GitHub.awaitingOpen (GitHub.startAuth None pre) = true →
  ∃ r, GitHub.promise
         (GitHub.startAuth None
            (pre ++ OpenSettled opened :: between ++ Close code :: later)) = Fulfilled r ∧
       closeOutcome code opened (GitHub.extractedAuthUrl (GitHub.startAuth None pre)) r.
Proof.
  intros Hpre Hbetween Hwaiting. cbn [GitHub.startAuth] in *.
  destruct (github_phase pre) as [Hidle | [[url Hwait] | (o & url & Hdone)]].
  { destruct Hidle as (_ & Ha & _). congruence. }
  2: { destruct Hdone as (_ & Ha & _). congruence. }
  assert (Hurl : GitHub.extractedAuthUrl (fold_left GitHub.authStep pre GitHub.authInit)
                 = url) by apply Hwait.
  rewrite Hurl.
  replace (pre ++ OpenSettled opened :: between ++ Close code :: later)%list
    with ((pre ++ OpenSettled opened :: between) ++ Close code :: later)%list
    by (by rewrite <- app_assoc).
  rewrite fold_left_app. cbn [fold_left].
  set (st := fold_left GitHub.authStep (pre ++ OpenSettled opened :: between)
               GitHub.authInit).
  assert (Hst : githubLaunched opened url st).
  { subst st. rewrite fold_left_app. cbn [fold_left].
    apply github_launched_run.
    exact (github_awaiting_step url _ (OpenSettled opened) Hwait). }
  assert (Hpending : GitHub.promise st = Pending).
  { subst st. rewrite github_run_running; [done|].
    rewrite forallb_app. cbn. by rewrite Hpre, Hbetween. }
  destruct (github_close code st Hpending) as (r & Hr & Hout).
  destruct Hst as (_ & _ & Hb & Hu). rewrite Hb, Hu in Hout.
  exists r. split; [by apply github_run_settled|done].
Qed.

Lemma gitlab_launch_close (pre between later : list AuthEvent) (opened : bool)
    (code : option Z) :
  forallb keepsRunning pre = true → forallb keepsRunning between = true →
  GitLab.awaitingOpen (GitLab.startAuth platform None pre) = true →
  ∃ r, GitLab.promise
         (GitLab.startAuth platform None
            (pre ++ OpenSettled opened :: between ++ Close code :: later)) = Fulfilled r ∧
       closeOutcome code opened
         (GitLab.extractedAuthUrl (GitLab.startAuth platform None pre)) r.
Proof.
  intros Hpre Hbetween Hwaiting. cbn [GitLab.startAuth] in *.
  destruct (gitlab_phase pre) as [Hidle | [[url Hwait] | (o & url & Hdone)]].
  { destruct Hidle as (_ & Ha & _). congruence. }
  2: { destruct Hdone as (_ & Ha & _). congruence. }
  assert (Hurl : GitLab.extractedAuthUrl
                   (fold_left (GitLab.authStep platform) pre (GitLab.authInit platform))
                 = url) by apply Hwait.
  rewrite Hurl.
  replace (pre ++ OpenSettled opened :: between ++ Close code :: later)%list
    with ((pre ++ OpenSettled opened :: between) ++ Close code :: later)%list
    by (by rewrite <- app_assoc).
  rewrite fold_left_app. cbn [fold_left].
  set (st := fold_left (GitLab.authStep platform) (pre ++ OpenSettled opened :: between)
               (GitLab.authInit platform)).
  assert (Hst : gitlabLaunched opened url st).
  { subst st. rewrite fold_left_app. cbn [fold_left].
    apply gitlab_launched_run.
    exact (gitlab_awaiting_step url _ (OpenSettled opened) Hwait). }
  assert (Hpending : GitLab.promise st = Pending).
  { subst st. rewrite gitlab_run_running; [done|].
    rewrite forallb_app. cbn. by rewrite Hpre, Hbetween. }
  destruct (gitlab_close code st Hpending) as (r & Hr & Hout).
  destruct Hst as (_ & _ & Hb & Hu). rewrite Hb, Hu in Hout.
  exists r. split; [by apply gitlab_run_settled|done].
Qed.

(** C9. In both adapters the promise of [startAuth] is never rejected; it
    is fulfilled when [spawn] throws, when the child reports an error, and
    when the child closes.  Whatever output arrived and however the
    browser launch went before the child closed, the result then has
    [success] true exactly when the exit code is 0; the browser launch
    shows in [browserOpened] only, and whenever the browser was not opened
    the result carries the URL as [fallbackUrl].  The flag follows the
    launch: it is set exactly when the awaited [shell.openExternal] ended
    well, and a launch that ended with [opened] before the child closed
    gives [browserOpened] = [opened], with the URL as [fallbackUrl] unless
    the launch ended well and the exit code is 0. *)
Theorem startAuth_settles :
  (∀ spawnThrows events e,
     GitHub.promise (GitHub.startAuth spawnThrows events) ≠ Rejected e) ∧
  (∀ spawnThrows events e,
     GitLab.promise (GitLab.startAuth platform spawnThrows events) ≠ Rejected e) ∧
  (∀ thrown events,
     ∃ r, GitHub.promise (GitHub.startAuth (Some thrown) events) = Fulfilled r ∧
          authSuccess r = false) ∧
  (∀ thrown events,
     ∃ r, GitLab.promise (GitLab.startAuth platform (Some thrown) events) = Fulfilled r ∧
          authSuccess r = false) ∧
  (∀ before err later, forallb keepsRunning before = true →
     ∃ r, GitHub.promise (GitHub.startAuth None (before ++ ChildError err :: later))
            = Fulfilled r ∧ authSuccess r = false) ∧
  (∀ before err later, forallb keepsRunning before = true →
     ∃ r, GitLab.promise (GitLab.startAuth platform None (before ++ ChildError err :: later))
            = Fulfilled r ∧ authSuccess r = false) ∧
  (∀ before code later, forallb keepsRunning before = true →
     let st := GitHub.startAuth None before in
     ∃ r, GitHub.promise (GitHub.startAuth None (before ++ Close code :: later))
            = Fulfilled r ∧
          (authSuccess r = true ↔ code = Some 0%Z) ∧
          closeOutcome code (GitHub.browserOpenedSuccessfully st)
            (GitHub.extractedAuthUrl st) r ∧
          (GitHub.browserOpenedSuccessfully st = false →
           fallbackUrl r = Some (GitHub.extractedAuthUrl st))) ∧
  (∀ before code later, forallb keepsRunning before = true →
     let st := GitLab.startAuth platform None before in
     ∃ r, GitLab.promise (GitLab.startAuth platform None (before ++ Close code :: later))
            = Fulfilled r ∧
          (authSuccess r = true ↔ code = Some 0%Z) ∧
          closeOutcome code (GitLab.browserOpenedSuccessfully st)
            (GitLab.extractedAuthUrl st) r ∧
          (GitLab.browserOpenedSuccessfully st = false →
           fallbackUrl r = Some (GitLab.extractedAuthUrl st))) ∧
  (∀ events,
     GitHub.browserOpenedSuccessfully (GitHub.startAuth None events) = true ↔
     launchEnded (GitHub.startAuth None) GitHub.awaitingOpen true events) ∧
  (∀ events,
     GitLab.browserOpenedSuccessfully (GitLab.startAuth platform None events) = true ↔
     launchEnded (GitLab.startAuth platform None) GitLab.awaitingOpen true events) ∧
  (∀ pre opened between code later,
     forallb keepsRunning pre = true → forallb keepsRunning between = true →
     GitHub.awaitingOpen (GitHub.startAuth None pre) = true →
     ∃ r, GitHub.promise
            (GitHub.startAuth None
               (pre ++ OpenSettled opened :: between ++ Close code :: later))
            = Fulfilled r ∧
          (authSuccess r = true ↔ code = Some 0%Z) ∧
          browserOpened r = Some opened ∧
          fallbackUrl r =
            (if exitedCleanly code && opened then None
             else Some (GitHub.extractedAuthUrl (GitHub.startAuth None pre)))) ∧
  (∀ pre opened between code later,
     forallb keepsRunning pre = true → forallb keepsRunning between = true →
     GitLab.awaitingOpen (GitLab.startAuth platform None pre) = true →
     ∃ r, GitLab.promise
            (GitLab.startAuth platform None
               (pre ++ OpenSettled opened :: between ++ Close code :: later))
            = Fulfilled r ∧
          (authSuccess r = true ↔ code = Some 0%Z) ∧
          browserOpened r = Some opened ∧
          fallbackUrl r =
            (if exitedCleanly code && opened then None
             else Some (GitLab.extractedAuthUrl (GitLab.startAuth platform None pre)))).
Proof.
  split; [|split; [|split; [|split; [|split; [|split; [|split; [|split;
    [|split; [|split; [|split]]]]]]]]]].
  - intros [thrown|] events e; cbn; [done|].
    by apply github_run_not_rejected.
  - intros [thrown|] events e; cbn; [done|].
    by apply gitlab_run_not_rejected.
  - intros thrown events. cbn. eauto.
  - intros thrown events. cbn. eauto.
  - intros before err later Hrun. cbn. rewrite fold_left_app. cbn [fold_left].
    eexists. split.
    + apply github_run_settled. cbn.
      rewrite (github_run_running before GitHub.authInit Hrun). cbn. reflexivity.
    + reflexivity.
  - intros before err later Hrun. cbn. rewrite fold_left_app. cbn [fold_left].
    eexists. split.
    + apply gitlab_run_settled. cbn.
      rewrite (gitlab_run_running before (GitLab.authInit platform) Hrun). cbn.
      reflexivity.
    + reflexivity.
  - intros before code later Hrun st. cbn. rewrite fold_left_app. cbn [fold_left].
    destruct (github_close code (fold_left GitHub.authStep before GitHub.authInit))
      as (r & Hr & Hout).
    { by rewrite github_run_running. }
    exists r. split; [by apply github_run_settled|].
    split; [|split; [exact Hout|]].
    + destruct Hout as [-> _]. apply exitedCleanly_iff.
    + intros Hb. destruct Hout as (_ & _ & _ & ->). subst st. cbn.
      rewrite Hb. by rewrite andb_false_r.
  - intros before code later Hrun st. cbn. rewrite fold_left_app. cbn [fold_left].
    destruct (gitlab_close code
                (fold_left (GitLab.authStep platform) before (GitLab.authInit platform)))
      as (r & Hr & Hout).
    { by rewrite gitlab_run_running. }
    exists r. split; [by apply gitlab_run_settled|].
    split; [|split; [exact Hout|]].
    + destruct Hout as [-> _]. apply exitedCleanly_iff.
    + intros Hb. destruct Hout as (_ & _ & _ & ->). subst st. cbn.
      rewrite Hb. by rewrite andb_false_r.
  - apply github_flag_iff.
  - apply gitlab_flag_iff.
  - intros pre opened between code later Hpre Hbetween Hwaiting.
    destruct (github_launch_close pre between later opened code Hpre Hbetween Hwaiting)
      as (r & Hr & Hsucc & _ & Hopened & Hfall).
    exists r. split; [exact Hr|]. split; [|by split].
    rewrite Hsucc. apply exitedCleanly_iff.
  - intros pre opened between code later Hpre Hbetween Hwaiting.
    destruct (gitlab_launch_close pre between later opened code Hpre Hbetween Hwaiting)
      as (r & Hr & Hsucc & _ & Hopened & Hfall).
    exists r. split; [exact Hr|]. split; [|by split].
    rewrite Hsucc. apply exitedCleanly_iff.
Qed.

End GitLabAuth.

(** ** The theorems at concrete inputs *)

Lemma detect_cache_witness :
  platformCache emptyWorld !! @path_resolve answering "/repo" = None ∧
  ∃ r w1,
    @detectGitPlatform answering "/repo" noOptions emptyWorld = (inr r, w1) ∧
    trace w1 = [ExecSync "git remote get-url origin" (Some "/repo")] ∧
    platformCache w1 !! "/repo" = Some r ∧
    @detectGitPlatform answering "/repo" noOptions w1 = (inr r, w1).
Proof.
  split; [reflexivity|].
  destruct (detect_cache (H := answering) "/repo" noOptions emptyWorld eq_refl)
    as (r & w1 & Hrun & Htr & Hkey & _ & Hhit & _).
  exists r, w1. split; [exact Hrun|]. split; [exact Htr|]. split; [exact Hkey|].
  apply Hhit; reflexivity.
Defined.

Lemma factory_dispatch_witness :
  type githubSample = "github" ∧
  createAdapter githubSample = inr (GitHubAdapter githubSample).
Proof.
  split; [reflexivity|].
  apply (proj1 (factory_dispatch (H := answering) githubSample "/repo" emptyWorld)).
  reflexivity.
Defined.

Lemma createRelease_cleanup_witness :
  (∀ w, @unlinkError answering (@notesFileOf answering emptyWorld) w = None) ∧
  files (@GitLab.createRelease answering gitlabSample releaseSample emptyWorld).2
    !! @notesFileOf answering emptyWorld = None.
Proof.
  split; [reflexivity|].
  destruct (createRelease_cleanup (H := answering) gitlabSample releaseSample emptyWorld)
    as (r & w' & Hrun & _ & Hgone).
  rewrite Hrun. apply Hgone. reflexivity.
Defined.

(** With an unlink that fails, [createRelease] returns normally (here
    with success) and the notes file is still there. *)
Lemma createRelease_leaves_notes :
  (@GitLab.createRelease stuckNotes gitlabSample releaseSample emptyWorld).1 =
    inr (mkCreateReleaseResult true None (Some "v1.0.0") None) ∧
  files (@GitLab.createRelease stuckNotes gitlabSample releaseSample emptyWorld).2
    !! "/tmp/glab-release-notes-1700000000000.md" = Some "Release notes".
Proof. split; vm_compute; reflexivity. Qed.


Lemma startAuth_settles_witness :
  forallb keepsRunning
    [StdoutData "! First copy your one-time code: ABCD-1234"; OpenSettled false] = true ∧
  GitHub.awaitingOpen
    (GitHub.startAuth None [StdoutData "! First copy your one-time code: ABCD-1234"])
    = true ∧
  ∃ r, GitHub.promise
         (GitHub.startAuth None
            ([StdoutData "! First copy your one-time code: ABCD-1234"; OpenSettled false]
             ++ [Close (Some 0%Z)])) = Fulfilled r ∧
       authSuccess r = true ∧ browserOpened r = Some false ∧
       fallbackUrl r = Some "https://github.com/login/device".
Proof.
  split; [reflexivity|]. split; [vm_compute; reflexivity|].
  destruct (startAuth_settles (H := answering) gitlabSample)
    as (_ & _ & _ & _ & _ & _ & _ & _ & _ & _ & Hlaunch & _).
  destruct (Hlaunch
    [StdoutData "! First copy your one-time code: ABCD-1234"] false [] (Some 0%Z) []
    eq_refl eq_refl ltac:(vm_compute; reflexivity))
    as (r & Hr & Hsucc & Hopened & Hfall).
  exists r. split; [exact Hr|]. split; [by apply Hsucc|].
  split; [exact Hopened|]. rewrite Hfall. vm_compute. reflexivity.
Defined.

Lemma github_validates_repo_format_witness :
  (Re.test repoFormatRe "group/subgroup/repo" = false ∨
   (2 ≤ countChar "/" "group/subgroup/repo")%nat) ∧
  @GitHub.getBranches answering "group/subgroup/repo" emptyWorld =
    (inl (PlatformAdapterError "Failed to get branches for group/subgroup/repo" "github"
            (Some invalidFormat)), emptyWorld) ∧
  @GitHub.addGitRemote answering "/repo" "group/subgroup/repo" emptyWorld =
    (inl (PlatformAdapterError "Failed to add git remote" "github"
            (Some invalidFormat)), emptyWorld) ∧
  ∃ later,
    trace (@GitLab.getBranches answering gitlabSample "group/subgroup/repo" emptyWorld).2 =
    ([] ++ gitlabFirstCall gitlabSample "group/subgroup/repo" emptyWorld :: later)%list.
Proof.
  assert (Hbad : Re.test repoFormatRe "group/subgroup/repo" = false ∨
                 (2 ≤ countChar "/" "group/subgroup/repo")%nat).
  { right. cbn. lia. }
  split; [exact Hbad|].
  exact (github_validates_repo_format (H := answering) gitlabSample "/repo"
           "group/subgroup/repo" emptyWorld Hbad).
Defined.

(** The GitLab adapter lists the branches of the nested project the GitHub
    adapter refuses to look at. *)
Example gitlab_getBranches_nested :
  (@GitLab.getBranches answering gitlabSample "group/subgroup/repo" emptyWorld).1 =
  inr ["main"; "develop"].
Proof. vm_compute. reflexivity. Qed.

(** Spec section 8: a project whose remote is [git@gitlab.com:acme/widgets.git]
    gets a [GitLabAdapter] for [acme/widgets] that drives [glab]. *)
Example getAdapter_gitlab :
  ∃ a, (@getAdapter answering "/repo" emptyWorld).1 = inr a ∧
       getCliName a = "glab" ∧ fullName (getPlatform a) = "acme/widgets".
Proof. eexists. split; [vm_compute; reflexivity|]. by split. Qed.

(** * Further properties *)

(** ** Which match wins *)

Module RePriority.
Import Re.

Lemma run_seq (ci : bool) (r1 r2 : regex) (s : string) (c : captures) :
  run ci (Seq r1 r2) s c = run ci r1 s c ≫= (fun '(c1, s1) => run ci r2 s1 c1).
Proof. reflexivity. Qed.

Lemma run_grp (ci : bool) (i : nat) (r : regex) (s : string) (c : captures) :
  run ci (Grp i r) s c =
  (fun '(c1, s1) => (<[i := consumed s s1]> c1, s1)) <$> run ci r s c.
Proof. reflexivity. Qed.

Lemma head_bind_first {A B} (f : A → list B) (x : A) (l : list A) :
  f x ≠ [] → head ((x :: l) ≫= f) = head (f x).
Proof. intros Hne. cbn. by destruct (f x). Qed.

(** The longest run of class characters is tried first by a greedy [+]. *)
Lemma greedy_first (p : ascii → bool) (u : string) (c0 : ascii) (x : string) :
  u ≠ "" → allChars p u = true → p c0 = false →
  ∃ shorter, reverse (spans p (u ++ String c0 x)) = String c0 x :: shorter.
Proof.
  intros Hu Hall Hc0.
  assert (Hlast : last (spans p (u ++ String c0 x)) = Some (String c0 x)).
  { induction u as [|a u IH]; [done|].
    rewrite append_cons. cbn [spans]. cbn in Hall.
    apply andb_prop in Hall as [-> Hall].
    destruct u as [|b u].
    - change ("" ++ String c0 x) with (String c0 x). cbn [spans]. by rewrite Hc0.
    - specialize (IH ltac:(done) Hall).
      destruct (spans p (String b u ++ String c0 x)) as [|y l]; [done|].
      exact IH. }
  rewrite <- head_reverse in Hlast.
  by apply head_Some in Hlast.
Qed.

(** A literal at the front of a sequence. *)
Lemma head_seq_lit (l : string) (r2 : regex) (s : string) (c : captures) :
  head (run false (Seq (Lit l) r2) (l ++ s) c) = head (run false r2 s c).
Proof.
  rewrite run_seq. cbn [run].
  rewrite (proj2 (afterLit_exact l (l ++ s) s) eq_refl).
  cbn. by rewrite app_nil_r.
Qed.

(** A captured greedy run at the front of a sequence, when the rest of the
    pattern can go on after the whole run. *)
Lemma head_seq_greedy (i : nat) (p : ascii → bool) (r2 : regex) (u : string)
    (c0 : ascii) (x : string) (c : captures) :
  u ≠ "" → allChars p u = true → p c0 = false →
  run false r2 (String c0 x) (<[i := u]> c) ≠ [] →
  head (run false (Seq (Grp i (PlusG p)) r2) (u ++ String c0 x) c) =
  head (run false r2 (String c0 x) (<[i := u]> c)).
Proof.
  intros Hu Hall Hc0 Hne. rewrite run_seq. cbn [run].
  destruct (greedy_first p u c0 x Hu Hall Hc0) as [shorter ->].
  rewrite !fmap_cons. rewrite ReFacts.consumed_append.
  by rewrite head_bind_first.
Qed.

(** What is left for [(?:\.git)?$]: it matches [.git] and the empty rest,
    nothing else. *)
Lemma git_suffix_end (s : string) (c : captures) :
  run false (Seq (Opt (Lit ".git")) Eol) s c =
  if String.eqb s ".git" || String.eqb s "" then [(c, "")] else [].
Proof.
  rewrite run_seq. cbn [run].
  destruct (afterLit false ".git" s) as [rest|] eqn:Hlit.
  - apply afterLit_exact in Hlit. subst s.
    destruct rest as [|a rest]; [reflexivity|].
    cbn. by destruct (Ascii.eqb a "."), rest.
  - destruct s as [|a s]; [reflexivity|].
    assert (Hne : String.eqb (String a s) ".git" = false).
    { apply String.eqb_neq. intros Heq. rewrite Heq in Hlit. discriminate Hlit. }
    rewrite Hne. reflexivity.
Qed.

(** The lazy group in front of [(?:\.git)?$] captures [lazyCut]. *)
Lemma head_lazy_tail (i : nat) (p : ascii → bool) (pre seg : string) (c : captures) :
  seg ≠ "" → allChars p seg = true →
  head (((fun '(c1, s1) => (<[i := consumed (pre ++ seg) s1]> c1, s1)) <$>
           ((fun s' => (c, s')) <$> spans p seg))
        ≫= (fun '(c1, s1) => run false (Seq (Opt (Lit ".git")) Eol) s1 c1)) =
  Some (<[i := pre ++ lazyCut seg]> c, "").
Proof.
  revert pre. induction seg as [|a seg IH]; intros pre Hne Hall; [done|].
  cbn in Hall. apply andb_prop in Hall as [Ha Hall].
  cbn [spans lazyCut]. rewrite Ha. rewrite !fmap_cons.
  assert (Hpre : pre ++ String a seg = (pre ++ String a "") ++ seg).
  { by rewrite append_assoc. }
  rewrite bind_cons, git_suffix_end.
  destruct (String.eqb seg ".git" || String.eqb seg "") eqn:Hend.
  - cbn. rewrite Hpre, ReFacts.consumed_append. done.
  - cbn [app]. apply orb_false_elim in Hend as [_ Hnil].
    apply String.eqb_neq in Hnil.
    rewrite Hpre. rewrite (IH (pre ++ String a "") Hnil Hall).
    by rewrite append_assoc.
Qed.

Lemma head_seq_lazy_tail (i : nat) (p : ascii → bool) (seg : string) (c : captures) :
  seg ≠ "" → allChars p seg = true →
  head (run false (Seq (Grp i (PlusL p)) (Seq (Opt (Lit ".git")) Eol)) seg c) =
  Some (<[i := lazyCut seg]> c, "").
Proof.
  intros Hne Hall. rewrite run_seq. cbn [run].
  exact (head_lazy_tail i p "" seg c Hne Hall).
Qed.

End RePriority.

(** ** Round trips of the remote URL parser *)

Lemma head_nonempty {A} (l : list A) (x : A) : head l = Some x → l ≠ [].
Proof. by destruct l. Qed.

Lemma head_fmap_list {A B} (f : A → B) (l : list A) : head (f <$> l) = f <$> head l.
Proof. by destruct l. Qed.

(** The match of the SSH pattern on a URL of its shape, with [seg] the
    last path segment. *)
Lemma sshRe_exec_exact (h o seg : string) :
  h ≠ "" → allChars (Re.notChar ":") h = true →
  o ≠ "" → noSlash o = true → seg ≠ "" → noSlash seg = true →
  ∃ m, Re.exec sshRe ("git@" ++ h ++ ":" ++ o ++ "/" ++ seg) = Some m ∧
       m !! 1%nat = Some h ∧ m !! 2%nat = Some o ∧ m !! 3%nat = Some (lazyCut seg).
Proof.
  intros Hh Hhs Ho Hos Hseg Hsegs.
  unfold Re.exec, sshRe, Re.matchHere. cbn [Re.anchored Re.ignoreCase Re.body].
  rewrite (RePriority.run_grp false 0), head_fmap_list.
  set (c1 := <[1%nat := h]> (∅ : Re.captures)).
  set (c2 := <[2%nat := o]> c1).
  assert (H3 : head (Re.run false
      (Re.Seq (Re.Grp 3 (Re.PlusL (Re.notChar "/")))
         (Re.Seq (Re.Opt (Re.Lit ".git")) Re.Eol)) seg c2) =
      Some (<[3%nat := lazyCut seg]> c2, "")).
  { by apply RePriority.head_seq_lazy_tail. }
  assert (H2' : head (Re.run false
      (Re.Seq (Re.Lit "/")
      (Re.Seq (Re.Grp 3 (Re.PlusL (Re.notChar "/")))
         (Re.Seq (Re.Opt (Re.Lit ".git")) Re.Eol))) (String "/" seg) c2) =
      Some (<[3%nat := lazyCut seg]> c2, "")).
  { change (String "/" seg) with ("/" ++ seg). by rewrite RePriority.head_seq_lit. }
  assert (H2 : head (Re.run false
      (Re.Seq (Re.Grp 2 (Re.PlusG (Re.notChar "/")))
      (Re.Seq (Re.Lit "/")
      (Re.Seq (Re.Grp 3 (Re.PlusL (Re.notChar "/")))
         (Re.Seq (Re.Opt (Re.Lit ".git")) Re.Eol)))) (o ++ String "/" seg) c1) =
      Some (<[3%nat := lazyCut seg]> c2, "")).
  { rewrite RePriority.head_seq_greedy; [exact H2'|done|done|done|].
    by eapply head_nonempty. }
  assert (H1' : head (Re.run false
      (Re.Seq (Re.Lit ":")
      (Re.Seq (Re.Grp 2 (Re.PlusG (Re.notChar "/")))
      (Re.Seq (Re.Lit "/")
      (Re.Seq (Re.Grp 3 (Re.PlusL (Re.notChar "/")))
         (Re.Seq (Re.Opt (Re.Lit ".git")) Re.Eol)))))
      (String ":" (o ++ String "/" seg)) c1) =
      Some (<[3%nat := lazyCut seg]> c2, "")).
  { change (String ":" (o ++ String "/" seg)) with (":" ++ o ++ String "/" seg).
    by rewrite RePriority.head_seq_lit. }
  assert (H1 : head (Re.run false
      (Re.Seq (Re.Grp 1 (Re.PlusG (Re.notChar ":")))
      (Re.Seq (Re.Lit ":")
      (Re.Seq (Re.Grp 2 (Re.PlusG (Re.notChar "/")))
      (Re.Seq (Re.Lit "/")
      (Re.Seq (Re.Grp 3 (Re.PlusL (Re.notChar "/")))
         (Re.Seq (Re.Opt (Re.Lit ".git")) Re.Eol))))))
      (h ++ String ":" (o ++ String "/" seg)) ∅) =
      Some (<[3%nat := lazyCut seg]> c2, "")).
  { rewrite RePriority.head_seq_greedy; [exact H1'|done|done|done|].
    by eapply head_nonempty. }
  change ("git@" ++ h ++ ":" ++ o ++ "/" ++ seg)
    with ("git@" ++ (h ++ String ":" (o ++ String "/" seg))).
  rewrite RePriority.head_seq_lit, H1. cbn [fmap option_fmap option_map fst].
  eexists. split; [reflexivity|]. subst c1 c2. by simplify_map_eq.
Qed.

Lemma head_seq_opt_taken (l : string) (r2 : Re.regex) (s : string) (c : Re.captures) :
  Re.run false r2 s c ≠ [] →
  head (Re.run false (Re.Seq (Re.Opt (Re.Lit l)) r2) (l ++ s) c) =
  head (Re.run false r2 s c).
Proof.
  intros Hne. rewrite RePriority.run_seq. cbn [Re.run].
  rewrite (proj2 (afterLit_exact l (l ++ s) s) eq_refl).
  cbn [app]. by rewrite RePriority.head_bind_first.
Qed.

Lemma head_seq_opt_skipped (l : string) (r2 : Re.regex) (s : string) (c : Re.captures) :
  Re.afterLit false l s = None →
  head (Re.run false (Re.Seq (Re.Opt (Re.Lit l)) r2) s c) =
  head (Re.run false r2 s c).
Proof.
  intros Hno. rewrite RePriority.run_seq. cbn [Re.run]. rewrite Hno.
  cbn. by rewrite app_nil_r.
Qed.

(** The match of the HTTPS pattern on a URL of its shape. *)
Lemma httpsRe_exec_exact (scheme h o seg : string) :
  scheme = "http" ∨ scheme = "https" →
  h ≠ "" → noSlash h = true →
  o ≠ "" → noSlash o = true → seg ≠ "" → noSlash seg = true →
  ∃ m, Re.exec httpsRe (scheme ++ "://" ++ h ++ "/" ++ o ++ "/" ++ seg) = Some m ∧
       m !! 1%nat = Some h ∧ m !! 2%nat = Some o ∧ m !! 3%nat = Some (lazyCut seg).
Proof.
  intros Hsch Hh Hhs Ho Hos Hseg Hsegs.
  unfold Re.exec, httpsRe, Re.matchHere. cbn [Re.anchored Re.ignoreCase Re.body].
  rewrite (RePriority.run_grp false 0), head_fmap_list.
  set (c1 := <[1%nat := h]> (∅ : Re.captures)).
  set (c2 := <[2%nat := o]> c1).
  set (tail3 := Re.Seq (Re.Grp 3 (Re.PlusL (Re.notChar "/")))
                  (Re.Seq (Re.Opt (Re.Lit ".git")) Re.Eol)).
  set (tail2 := Re.Seq (Re.Grp 2 (Re.PlusG (Re.notChar "/")))
                  (Re.Seq (Re.Lit "/") tail3)).
  set (tail1 := Re.Seq (Re.Grp 1 (Re.PlusG (Re.notChar "/")))
                  (Re.Seq (Re.Lit "/") tail2)).
  assert (H3 : head (Re.run false tail3 seg c2) =
               Some (<[3%nat := lazyCut seg]> c2, "")).
  { by apply RePriority.head_seq_lazy_tail. }
  assert (H2' : head (Re.run false (Re.Seq (Re.Lit "/") tail3) (String "/" seg) c2) =
                Some (<[3%nat := lazyCut seg]> c2, "")).
  { change (String "/" seg) with ("/" ++ seg). by rewrite RePriority.head_seq_lit. }
  assert (H2 : head (Re.run false tail2 (o ++ String "/" seg) c1) =
               Some (<[3%nat := lazyCut seg]> c2, "")).
  { subst tail2. rewrite RePriority.head_seq_greedy; [exact H2'|done|done|done|].
    by eapply head_nonempty. }
  assert (H1' : head (Re.run false (Re.Seq (Re.Lit "/") tail2)
                        (String "/" (o ++ String "/" seg)) c1) =
                Some (<[3%nat := lazyCut seg]> c2, "")).
  { change (String "/" (o ++ String "/" seg)) with ("/" ++ o ++ String "/" seg).
    by rewrite RePriority.head_seq_lit. }
  assert (H1 : head (Re.run false tail1 (h ++ String "/" (o ++ String "/" seg)) ∅) =
               Some (<[3%nat := lazyCut seg]> c2, "")).
  { subst tail1. rewrite RePriority.head_seq_greedy; [exact H1'|done|done|done|].
    by eapply head_nonempty. }
  assert (H0 : head (Re.run false (Re.Seq (Re.Lit "://") tail1)
                       ("://" ++ h ++ String "/" (o ++ String "/" seg)) ∅) =
               Some (<[3%nat := lazyCut seg]> c2, "")).
  { by rewrite RePriority.head_seq_lit. }
  assert (Hhead : head (Re.run false
            (Re.Seq (Re.Lit "http")
               (Re.Seq (Re.Opt (Re.Lit "s")) (Re.Seq (Re.Lit "://") tail1)))
            (scheme ++ "://" ++ h ++ "/" ++ o ++ "/" ++ seg) ∅) =
          Some (<[3%nat := lazyCut seg]> c2, "")).
  { destruct Hsch as [-> | ->].
    - change ("http" ++ "://" ++ h ++ "/" ++ o ++ "/" ++ seg)
        with ("http" ++ ("://" ++ h ++ String "/" (o ++ String "/" seg))).
      rewrite RePriority.head_seq_lit.
      rewrite head_seq_opt_skipped by reflexivity. exact H0.
    - change ("https" ++ "://" ++ h ++ "/" ++ o ++ "/" ++ seg)
        with ("http" ++ ("s" ++ ("://" ++ h ++ String "/" (o ++ String "/" seg)))).
      rewrite RePriority.head_seq_lit.
      rewrite head_seq_opt_taken; [exact H0|]. by eapply head_nonempty. }
  subst tail1 tail2 tail3. rewrite Hhead. cbn [fmap option_fmap option_map fst].
  eexists. split; [reflexivity|]. subst c1 c2. by simplify_map_eq.
Qed.

Lemma lazyCut_git (r : string) : r ≠ "" → lazyCut (r ++ ".git") = r.
Proof.
  induction r as [|a r IH]; [done|]. intros _. rewrite append_cons. cbn [lazyCut].
  destruct r as [|b r]; [reflexivity|].
  assert (Hne : String.eqb (String b r ++ ".git") ".git" = false).
  { apply String.eqb_neq. intros Heq.
    apply (f_equal String.length) in Heq. rewrite length_append in Heq.
    cbn in Heq. lia. }
  rewrite Hne. rewrite append_cons at 1. cbn [String.eqb orb].
  by rewrite IH.
Qed.

Lemma lazyCut_plain (r : string) :
  (∀ x, x ≠ "" → r ≠ x ++ ".git") → lazyCut r = r.
Proof.
  induction r as [|a r IH]; [done|]. intros Hno. cbn [lazyCut].
  destruct (String.eqb_spec r ".git") as [->|Hgit].
  { destruct (Hno (String a "") ltac:(done)). reflexivity. }
  destruct (String.eqb_spec r "") as [->|Hnil]; [done|].
  cbn [orb]. rewrite IH; [done|].
  intros x Hx ->. apply (Hno (String a x)); done.
Qed.

Lemma noSlash_git (r : string) : noSlash r = true → noSlash (r ++ ".git") = true.
Proof. intros Hr. unfold noSlash in *. by rewrite allChars_append, Hr. Qed.

Lemma append_nonempty_l (a b : string) : a ≠ "" → a ++ b ≠ "".
Proof. by destruct a. Qed.

(** An SSH remote parses to the descriptor of its host, its owner and the
    cut of its last segment. *)
Lemma parse_ssh_cut (url h o seg : string) :
  h ≠ "" → allChars (Re.notChar ":") h = true →
  o ≠ "" → noSlash o = true → seg ≠ "" → noSlash seg = true →
  Js.trim url = "git@" ++ h ++ ":" ++ o ++ "/" ++ seg →
  parseGitRemoteUrl url = Some (createPlatform h o (lazyCut seg)).
Proof.
  intros Hh Hhs Ho Hos Hseg Hsegs Hurl.
  destruct (sshRe_exec_exact h o seg Hh Hhs Ho Hos Hseg Hsegs)
    as (m & Hm & H1 & H2 & H3).
  rewrite <- Hurl in Hm. unfold parseGitRemoteUrl, platformOfMatch.
  destruct (Re.exec httpsRe (Js.trim url)) as [m'|] eqn:Hhttps.
  { destruct (shapes_exclusive _ _ _ Hhttps Hm). }
  by rewrite Hm, H1, H2, H3.
Qed.

(** The same for an HTTP(S) remote. *)
Lemma parse_https_cut (url scheme h o seg : string) :
  scheme = "http" ∨ scheme = "https" →
  h ≠ "" → noSlash h = true →
  o ≠ "" → noSlash o = true → seg ≠ "" → noSlash seg = true →
  Js.trim url = scheme ++ "://" ++ h ++ "/" ++ o ++ "/" ++ seg →
  parseGitRemoteUrl url = Some (createPlatform h o (lazyCut seg)).
Proof.
  intros Hsch Hh Hhs Ho Hos Hseg Hsegs Hurl.
  destruct (httpsRe_exec_exact scheme h o seg Hsch Hh Hhs Ho Hos Hseg Hsegs)
    as (m & Hm & H1 & H2 & H3).
  rewrite <- Hurl in Hm. unfold parseGitRemoteUrl, platformOfMatch.
  by rewrite Hm, H1, H2, H3.
Qed.

(** X1. Round trip for SSH remotes: a trimmed remote
    [git@<host>:<owner>/<repo>.git], and one without [.git] whose last
    segment does not itself end in [.git], parses to the descriptor of
    exactly that host, owner and repository. *)
Theorem parse_ssh_roundtrip (url h o r : string) :
  h ≠ "" → allChars (Re.notChar ":") h = true →
  o ≠ "" → noSlash o = true → r ≠ "" → noSlash r = true →
  (Js.trim url = "git@" ++ h ++ ":" ++ o ++ "/" ++ r ++ ".git" →
   parseGitRemoteUrl url = Some (createPlatform h o r)) ∧
  (Js.trim url = "git@" ++ h ++ ":" ++ o ++ "/" ++ r →
   (∀ x, x ≠ "" → r ≠ x ++ ".git") →
   parseGitRemoteUrl url = Some (createPlatform h o r)).
Proof.
  intros Hh Hhs Ho Hos Hr Hrs. split.
  - intros Hurl.
    rewrite (parse_ssh_cut url h o (r ++ ".git"));
      [by rewrite lazyCut_git|done..| |by apply noSlash_git|done].
    by apply append_nonempty_l.
  - intros Hurl Hplain. rewrite (parse_ssh_cut url h o r) by done.
    by rewrite lazyCut_plain.
Qed.

(** X2. Round trip for HTTP(S) remotes: a trimmed remote
    [http(s)://<host>/<owner>/<repo>.git], and one without [.git] whose
    last segment does not itself end in [.git], parses to the descriptor
    of exactly that host, owner and repository. *)
Theorem parse_https_roundtrip (url scheme h o r : string) :
  scheme = "http" ∨ scheme = "https" →
  h ≠ "" → noSlash h = true →
  o ≠ "" → noSlash o = true → r ≠ "" → noSlash r = true →
  (Js.trim url = scheme ++ "://" ++ h ++ "/" ++ o ++ "/" ++ r ++ ".git" →
   parseGitRemoteUrl url = Some (createPlatform h o r)) ∧
  (Js.trim url = scheme ++ "://" ++ h ++ "/" ++ o ++ "/" ++ r →
   (∀ x, x ≠ "" → r ≠ x ++ ".git") →
   parseGitRemoteUrl url = Some (createPlatform h o r)).
Proof.
  intros Hsch Hh Hhs Ho Hos Hr Hrs. split.
  - intros Hurl.
    rewrite (parse_https_cut url scheme h o (r ++ ".git"));
      [by rewrite lazyCut_git|done..| |by apply noSlash_git|done].
    by apply append_nonempty_l.
  - intros Hurl Hplain. rewrite (parse_https_cut url scheme h o r) by done.
    by rewrite lazyCut_plain.
Qed.

Lemma parse_ssh_roundtrip_witness :
  parseGitRemoteUrl "  git@git.lazy-ants.de:owner/repo.git " =
    Some (createPlatform "git.lazy-ants.de" "owner" "repo") ∧
  parseGitRemoteUrl "git@github.com:owner/repo.github" =
    Some (createPlatform "github.com" "owner" "repo.github").
Proof.
  split.
  - apply (proj1 (parse_ssh_roundtrip "  git@git.lazy-ants.de:owner/repo.git "
                    "git.lazy-ants.de" "owner" "repo"
                    ltac:(done) eq_refl ltac:(done) eq_refl ltac:(done) eq_refl)).
    reflexivity.
  - apply (proj2 (parse_ssh_roundtrip "git@github.com:owner/repo.github"
                    "github.com" "owner" "repo.github"
                    ltac:(done) eq_refl ltac:(done) eq_refl ltac:(done) eq_refl)).
    + reflexivity.
    + intros x Hx Heq.
      assert (Hlen : String.length x = 7%nat).
      { apply (f_equal String.length) in Heq. rewrite length_append in Heq.
        cbn in Heq. lia. }
      do 8 (destruct x as [|? x]; try discriminate Hlen).
      discriminate Heq.
Defined.

Lemma parse_https_roundtrip_witness :
  parseGitRemoteUrl "https://gitlab.com/acme/widgets.git" =
    Some (createPlatform "gitlab.com" "acme" "widgets").
Proof.
  apply (proj1 (parse_https_roundtrip "https://gitlab.com/acme/widgets.git" "https"
                  "gitlab.com" "acme" "widgets" (or_intror eq_refl)
                  ltac:(done) eq_refl ltac:(done) eq_refl ltac:(done) eq_refl)).
  reflexivity.
Defined.

(** ** Blanks around a remote URL *)

Lemma trimStart_blank_app (pre s : string) :
  allChars Js.isSpace pre = true → Js.trimStart (pre ++ s) = Js.trimStart s.
Proof.
  induction pre as [|c pre IH]; [done|]. cbn [allChars].
  intros [Hc Hp]%andb_prop. rewrite append_cons. cbn [Js.trimStart].
  rewrite Hc. auto.
Qed.

Lemma trimStart_app_nonblank (u post : string) :
  allChars Js.isSpace u = false → Js.trimStart (u ++ post) = Js.trimStart u ++ post.
Proof.
  induction u as [|c u IH]; [done|]. cbn [allChars]. rewrite append_cons.
  cbn [Js.trimStart]. destruct (Js.isSpace c); cbn [andb]; [exact IH|].
  intros _. by rewrite append_cons.
Qed.

Lemma trimStart_blank (u : string) : allChars Js.isSpace u = true → Js.trimStart u = "".
Proof.
  induction u as [|c u IH]; [done|]. cbn [allChars Js.trimStart].
  intros [-> Hu]%andb_prop. auto.
Qed.

Lemma trimEnd_blank (u : string) : allChars Js.isSpace u = true → Js.trimEnd u = "".
Proof.
  induction u as [|c u IH]; [done|]. cbn [allChars Js.trimEnd].
  intros [-> Hu]%andb_prop. by rewrite IH.
Qed.

Lemma trimEnd_app_blank (s post : string) :
  allChars Js.isSpace post = true → Js.trimEnd (s ++ post) = Js.trimEnd s.
Proof.
  intros Hpost. induction s as [|c s IH].
  - change ("" ++ post) with post. by rewrite trimEnd_blank.
  - rewrite append_cons. cbn [Js.trimEnd]. by rewrite IH.
Qed.

Lemma trim_blanks (pre s post : string) :
  allChars Js.isSpace pre = true → allChars Js.isSpace post = true →
  Js.trim (pre ++ s ++ post) = Js.trim s.
Proof.
  intros Hpre Hpost. unfold Js.trim. rewrite trimStart_blank_app by done.
  destruct (allChars Js.isSpace s) eqn:Hs.
  - rewrite (trimStart_blank_app s post Hs).
    by rewrite (trimStart_blank post), (trimStart_blank s).
  - by rewrite trimStart_app_nonblank, trimEnd_app_blank.
Qed.

(** What [trimEnd] returns does not end in a blank, so trimming twice is
    trimming once. *)
Lemma trimEnd_idem (s : string) : Js.trimEnd (Js.trimEnd s) = Js.trimEnd s.
Proof.
  induction s as [|c s IH]; [done|]. cbn [Js.trimEnd].
  destruct (Js.trimEnd s) as [|d t] eqn:Ht.
  - destruct (Js.isSpace c) eqn:Hc; [done|]. cbn [Js.trimEnd]. by rewrite Hc.
  - cbn [Js.trimEnd] in *. destruct (Js.trimEnd t); by rewrite IH.
Qed.

Lemma trimStart_head (s : string) :
  match Js.trimStart s with
  | String c _ => Js.isSpace c = false
  | EmptyString => True
  end.
Proof.
  induction s as [|c s IH]; [done|]. cbn [Js.trimStart].
  by destruct (Js.isSpace c) eqn:Hc.
Qed.

Lemma trimEnd_head (s : string) :
  match s with
  | String c _ => Js.isSpace c = false → ∃ t, Js.trimEnd s = String c t
  | EmptyString => True
  end.
Proof.
  destruct s as [|c s]; [done|]. intros Hc. cbn [Js.trimEnd].
  rewrite Hc. destruct (Js.trimEnd s); eauto.
Qed.

Lemma trim_idem (s : string) : Js.trim (Js.trim s) = Js.trim s.
Proof.
  unfold Js.trim. pose proof (trimStart_head s) as Hh.
  destruct (Js.trimStart s) as [|c u] eqn:Hu; [done|].
  destruct (trimEnd_head (String c u) Hh) as [t Ht]. rewrite Ht.
  cbn [Js.trimStart]. rewrite Hh, <- Ht. apply trimEnd_idem.
Qed.

(** X3. The parser does not see blanks around a remote URL: spaces,
    tabs and line ends before and after it change nothing, and a URL
    that was trimmed already parses the same. *)
Theorem parse_ignores_blanks (pre url post : string) :
  allChars Js.isSpace pre = true → allChars Js.isSpace post = true →
  parseGitRemoteUrl (pre ++ url ++ post) = parseGitRemoteUrl url ∧
  parseGitRemoteUrl (Js.trim url) = parseGitRemoteUrl url.
Proof.
  intros Hpre Hpost. unfold parseGitRemoteUrl.
  by rewrite trim_blanks, trim_idem.
Qed.

Lemma parse_ignores_blanks_witness :
  parseGitRemoteUrl ("  " ++ "git@github.com:owner/repo.git" ++ String LF "") =
    parseGitRemoteUrl "git@github.com:owner/repo.git" ∧
  parseGitRemoteUrl (Js.trim "git@github.com:owner/repo.git") =
    parseGitRemoteUrl "git@github.com:owner/repo.git".
Proof.
  apply (parse_ignores_blanks "  " "git@github.com:owner/repo.git" (String LF ""));
    reflexivity.
Defined.

(** ** The shape of a parsed descriptor *)

Lemma lowerChar_idem (c : ascii) : Js.lowerChar (Js.lowerChar c) = Js.lowerChar c.
Proof. destruct c as [[] [] [] [] [] [] [] []]; vm_compute; reflexivity. Qed.

Lemma toLowerCase_idem (s : string) :
  Js.toLowerCase (Js.toLowerCase s) = Js.toLowerCase s.
Proof.
  induction s as [|c s IH]; [done|]. cbn [Js.toLowerCase].
  by rewrite lowerChar_idem, IH.
Qed.

Lemma toLowerCase_nonempty (s : string) : s ≠ "" → Js.toLowerCase s ≠ "".
Proof. by destruct s. Qed.

Lemma countChar_noSlash (s : string) : noSlash s = true → countChar "/" s = 0%nat.
Proof.
  induction s as [|c s IH]; [done|]. unfold noSlash in *. cbn [allChars countChar].
  intros [Hc Hs]%andb_prop. unfold Re.notChar in Hc.
  apply negb_true_iff in Hc. rewrite Hc. by rewrite IH.
Qed.

(** [createPlatform] sees a host only through its lower-case form. *)
Lemma createPlatform_lower (h o r : string) :
  createPlatform (Js.toLowerCase h) o r = createPlatform h o r.
Proof. unfold createPlatform. by rewrite toLowerCase_idem. Qed.

(** X4. Every descriptor the parser returns is well formed: the host is
    non-empty and already in lower case, owner and repository are
    non-empty, and [fullName] holds exactly one slash. *)
Theorem parse_wellformed (url : string) (p : GitPlatform) :
  parseGitRemoteUrl url = Some p →
  host p ≠ "" ∧ Js.toLowerCase (host p) = host p ∧
  owner p ≠ "" ∧ repo p ≠ "" ∧
  countChar "/" (fullName p) = 1%nat.
Proof.
  intros (h & o & r & -> & Hh & [Ho Hos] & [Hr Hrs])%parse_created.
  cbn [createPlatform host owner repo fullName].
  split; [by apply toLowerCase_nonempty|]. split; [apply toLowerCase_idem|].
  split; [done|]. split; [done|].
  rewrite countChar_append, append_cons, countChar_noSlash by done.
  cbn [countChar]. change ("" ++ r) with r. by rewrite countChar_noSlash.
Qed.

Lemma parse_wellformed_witness :
  host (createPlatform "GitHub.com" "owner" "repo") ≠ "" ∧
  Js.toLowerCase (host (createPlatform "GitHub.com" "owner" "repo")) =
    host (createPlatform "GitHub.com" "owner" "repo") ∧
  owner (createPlatform "GitHub.com" "owner" "repo") ≠ "" ∧
  repo (createPlatform "GitHub.com" "owner" "repo") ≠ "" ∧
  countChar "/" (fullName (createPlatform "GitHub.com" "owner" "repo")) = 1%nat.
Proof.
  apply (parse_wellformed "https://GitHub.com/owner/repo.git"). reflexivity.
Defined.

Lemma trimEnd_app_fixed (a b : string) :
  b ≠ "" ∧ Js.trimEnd b = b → a ++ b ≠ "" ∧ Js.trimEnd (a ++ b) = a ++ b.
Proof.
  intros [Hb Ht]. induction a as [|c a [IHn IH]]; [done|].
  rewrite append_cons. split; [done|]. cbn [Js.trimEnd]. rewrite IH.
  by destruct (a ++ b).
Qed.

Lemma trim_fixed (c : ascii) (s : string) :
  Js.isSpace c = false → Js.trimEnd (String c s) = String c s →
  Js.trim (String c s) = String c s.
Proof. intros Hc Ht. unfold Js.trim. cbn [Js.trimStart]. by rewrite Hc. Qed.

(** A text that starts and ends with a visible character is trimmed. *)
Ltac trimmed :=
  apply trim_fixed; [reflexivity|];
  change (String ?c (?a ++ ?b)) with (String c a ++ b);
  apply trimEnd_app_fixed;
  repeat (apply trimEnd_app_fixed);
  split; [done|reflexivity].

(** X5. A descriptor the parser returned is a fixed point: the HTTPS
    remote written from its host and [fullName] parses back to the same
    descriptor, and so does the SSH remote; the host must fit the shape
    (no slash for HTTPS, no colon for SSH). *)
Theorem parse_canonical (url : string) (p : GitPlatform) :
  parseGitRemoteUrl url = Some p →
  (noSlash (host p) = true →
   parseGitRemoteUrl ("https://" ++ host p ++ "/" ++ fullName p ++ ".git") = Some p) ∧
  (allChars (Re.notChar ":") (host p) = true →
   parseGitRemoteUrl ("git@" ++ host p ++ ":" ++ fullName p ++ ".git") = Some p).
Proof.
  intros (h & o & r & -> & Hh & [Ho Hos] & [Hr Hrs])%parse_created.
  cbn [createPlatform host fullName].
  assert (Hassoc : ∀ pre, pre ++ (o ++ "/" ++ r) ++ ".git" = pre ++ o ++ "/" ++ r ++ ".git").
  { intros pre. by rewrite !append_assoc. }
  pose proof (toLowerCase_nonempty h Hh) as Hl.
  pose proof (append_nonempty_l r ".git" Hr) as Hgit.
  split; intros Hhost.
  - rewrite (Hassoc "/").
    rewrite (parse_https_cut _ "https" (Js.toLowerCase h) o (r ++ ".git")
               (or_intror eq_refl) Hl Hhost Ho Hos Hgit (noSlash_git r Hrs)).
    + by rewrite lazyCut_git, createPlatform_lower.
    + change ("https://" ++ ?x) with (String "h" ("ttps://" ++ x)). trimmed.
  - rewrite (Hassoc ":").
    rewrite (parse_ssh_cut _ (Js.toLowerCase h) o (r ++ ".git")
               Hl Hhost Ho Hos Hgit (noSlash_git r Hrs)).
    + by rewrite lazyCut_git, createPlatform_lower.
    + change ("git@" ++ ?x) with (String "g" ("it@" ++ x)). trimmed.
Qed.

Lemma parse_canonical_witness :
  parseGitRemoteUrl
    ("https://" ++ host (createPlatform "GitLab.com" "acme" "widgets") ++ "/" ++
     fullName (createPlatform "GitLab.com" "acme" "widgets") ++ ".git") =
    Some (createPlatform "GitLab.com" "acme" "widgets") ∧
  parseGitRemoteUrl
    ("git@" ++ host (createPlatform "GitLab.com" "acme" "widgets") ++ ":" ++
     fullName (createPlatform "GitLab.com" "acme" "widgets") ++ ".git") =
    Some (createPlatform "GitLab.com" "acme" "widgets").
Proof.
  destruct (parse_canonical "git@GitLab.com:acme/widgets"
              (createPlatform "GitLab.com" "acme" "widgets") eq_refl) as [Hhttps Hssh].
  split; [apply Hhttps | apply Hssh]; reflexivity.
Defined.

(** ** More of the detector *)

Section DetectorMore.
Context `{Environment}.

Lemma detected_created (outcome : JsError + string) (p : GitPlatform) :
  detected outcome = Some p → ∃ h o r, p = createPlatform h o r.
Proof.
  destruct outcome as [e|out]; cbn [detected]; [done|].
  destruct (Js.truthy (Js.trim out)); [|done].
  intros (h & o & r & -> & _)%parse_created. eauto.
Qed.

(** A detection always returns, leaves its answer in the cache, and keeps
    the cache sound. *)
Lemma detect_returns (projectPath : string) (options : DetectOptions) (w : World) :
  ∃ r w1,
    detectGitPlatform projectPath options w = (inr r, w1) ∧
    platformCache w1 !! path_resolve projectPath = Some r ∧
    (cacheSound w → cacheSound w1).
Proof.
  destruct (decide (flagSet (forceRefresh options) = true ∨
                    platformCache w !! path_resolve projectPath = None)) as [Hm|Hh].
  - destruct (detect_miss projectPath options w Hm) as (w' & Hrun & _ & Hc & _).
    eexists _, w'. split; [exact Hrun|]. split; [rewrite Hc; apply lookup_insert_eq|].
    intros Hsound k p. rewrite Hc.
    destruct (decide (k = path_resolve projectPath)) as [->|Hk].
    + rewrite lookup_insert_eq. intros [= Hp]. by apply detected_created in Hp.
    + rewrite lookup_insert_ne by done. apply Hsound.
  - destruct (flagSet (forceRefresh options)) eqn:Hf; [by destruct Hh; left|].
    destruct (platformCache w !! path_resolve projectPath) as [v|] eqn:Hc;
      [|by destruct Hh; right].
    exists v, w. by rewrite (detect_hit _ _ _ v Hf Hc).
Qed.

(** X6. A detection with [forceRefresh] never answers from the cache: it
    starts the git process even when the path is cached, replaces the
    entry of that path and no other, and later detections without the
    flag return the refreshed value. *)
Theorem detect_force_refresh (projectPath : string) (options : DetectOptions)
    (w : World) :
  forceRefresh options = Some true →
  ∃ r w1,
    detectGitPlatform projectPath options w = (inr r, w1) ∧
    r = detected (fst (runSync (remoteQuery projectPath options) w)) ∧
    trace w1 = (trace w ++ [remoteQuery projectPath options])%list ∧
    platformCache w1 !! path_resolve projectPath = Some r ∧
    (∀ other, path_resolve other ≠ path_resolve projectPath →
       platformCache w1 !! path_resolve other = platformCache w !! path_resolve other) ∧
    (∀ again, path_resolve again = path_resolve projectPath →
       detectGitPlatform again noOptions w1 = (inr r, w1)).
Proof.
  intros Hforce.
  assert (Hm : flagSet (forceRefresh options) = true ∨
               platformCache w !! path_resolve projectPath = None).
  { left. by rewrite Hforce. }
  destruct (detect_miss projectPath options w Hm) as (w1 & Hrun & Htr & Hc & _).
  eexists _, w1. split; [exact Hrun|]. split; [done|]. split; [done|].
  assert (Hkey : platformCache w1 !! path_resolve projectPath =
                 Some (detected (fst (runSync (remoteQuery projectPath options) w)))).
  { rewrite Hc. apply lookup_insert_eq. }
  split; [done|]. split.
  - intros other Hne. rewrite Hc. by rewrite lookup_insert_ne.
  - intros again Hsame. apply detect_hit; [done|]. by rewrite Hsame.
Qed.

Lemma createPlatform_type (h o r : string) :
  type (createPlatform h o r) = "github" ∨ type (createPlatform h o r) = "gitlab".
Proof.
  unfold createPlatform. cbn [type].
  destruct (Js.seq _ "github.com" || Js.includes _ "github"); auto.
Qed.

Lemma cacheSound_empty : cacheSound emptyWorld.
Proof. intros k p Hk. cbn in Hk. by rewrite lookup_empty in Hk. Qed.

(** X7. The detection cache only ever holds descriptors built by
    [createPlatform]: this holds of the empty cache and every exported
    function that writes the cache keeps it; what a detection returns is
    such a descriptor too. *)
Theorem cache_stays_sound (projectPath : string) (options : DetectOptions)
    (w : World) :
  cacheSound emptyWorld ∧
  (cacheSound w →
   cacheSound (snd (detectGitPlatform projectPath options w)) ∧
   cacheSound (snd (clearPlatformCache w)) ∧
   cacheSound (snd (clearProjectPlatformCache projectPath w)) ∧
   ∀ p, fst (detectGitPlatform projectPath options w) = inr (Some p) →
        ∃ h o r, p = createPlatform h o r).
Proof.
  split; [apply cacheSound_empty|].
  intros Hsound.
  destruct (detect_returns projectPath options w) as (r & w1 & Hrun & Hkey & Hkeep).
  rewrite Hrun. cbn [fst snd]. split; [auto|]. split; [|split].
  - intros k p. cbn. by rewrite lookup_empty.
  - intros k p. cbn. intros [_ Hk]%lookup_delete_Some. by apply Hsound in Hk.
  - intros p [= ->]. by apply (Hkeep Hsound (path_resolve projectPath)).
Qed.

(** X8. On a sound cache [getAdapter] has one way to fail: the only
    error it throws is the one for a missing platform, never
    "Unsupported platform type"; the adapter it returns is of the type
    its descriptor names, and the cache stays sound. *)
Theorem getAdapter_supported (projectPath : string) (w : World) :
  cacheSound w →
  (∀ e w', getAdapter projectPath w = (inl e, w') → e = couldNotDetect) ∧
  (∀ a w', getAdapter projectPath w = (inr a, w') →
     getPlatformType a = type (getPlatform a) ∧
     getCliName a = getPlatformCliName (inr (getPlatform a)) ∧
     platformCache w' !! path_resolve projectPath = Some (Some (getPlatform a)) ∧
     cacheSound w').
Proof.
  intros Hsound.
  destruct (detect_returns projectPath noOptions w) as (r & w1 & Hrun & Hkey & Hkeep).
  rewrite getAdapter_unfold, Hrun. destruct r as [p|].
  - destruct (Hkeep Hsound _ _ Hkey) as (h & o & r & ->).
    unfold createAdapter, getPlatformCliName, typeOf.
    destruct (createPlatform_type h o r) as [Ht | Ht]; rewrite Ht; cbn.
    + split; [done|]. intros a w' [= <- <-].
      cbn [getPlatformType getCliName getPlatform]. rewrite Ht. auto.
    + split; [done|]. intros a w' [= <- <-].
      cbn [getPlatformType getCliName getPlatform]. rewrite Ht. auto.
  - split; [by intros e w' [= <- _]|]. done.
Qed.

(** X9. From any state [isGitHubProject] and [isGitLabProject] return
    without throwing and lead to the same state, with the detection
    cached.  They share that cache: in either order, the one that runs
    second starts no process, leaves the state alone and answers as it
    would have answered first.  Both are false when the remote cannot be
    read, and on a sound cache a project with a detected platform is
    GitLab whenever it is not GitHub. *)
Theorem project_queries (projectPath : string) (w : World) :
  ∃ gh gl w1,
    isGitHubProject projectPath w = (inr gh, w1) ∧
    isGitLabProject projectPath w = (inr gl, w1) ∧
    isGitLabProject projectPath w1 = (inr gl, w1) ∧
    isGitHubProject projectPath w1 = (inr gh, w1) ∧
    (platformCache w1 !! path_resolve projectPath = Some None →
     gh = false ∧ gl = false) ∧
    (cacheSound w → platformCache w1 !! path_resolve projectPath ≠ Some None →
     gh = false → gl = true).
Proof.
  destruct (detect_returns projectPath noOptions w) as (r & w1 & Hrun & Hkey & Hkeep).
  assert (Hhit : detectGitPlatform projectPath noOptions w1 = (inr r, w1)).
  { by apply detect_hit. }
  exists (default false (isGitHub <$> r)), (default false (isGitLab <$> r)), w1.
  unfold isGitHubProject, isGitLabProject, bind, ret. rewrite Hrun, Hhit.
  split; [done|]. split; [done|]. split; [done|]. split; [done|]. split.
  - rewrite Hkey. by intros [= ->].
  - intros Hsound Hsome. destruct r as [p|]; [|by rewrite Hkey in Hsome].
    destruct (Hkeep Hsound _ _ Hkey) as (h & o & r & ->).
    destruct (createPlatform_invariant h o r) as (_ & _ & Hinv & _). exact Hinv.
Qed.

End DetectorMore.

(** ** Names of the command-line tools *)

(** X10. The detector's name tables and the factory agree: when
    [createAdapter] builds an adapter, its [getCliName] is
    [getPlatformCliName] of the descriptor and its type is the
    descriptor's; [createAdapter] throws exactly for the descriptors whose
    CLI name is [unknown], which are those shown as "Git Platform". *)
Theorem cli_names_agree (platform : GitPlatform) :
  getPlatformCliName (inl (type platform)) = getPlatformCliName (inr platform) ∧
  match createAdapter platform with
  | inr adapter =>
      getCliName adapter = getPlatformCliName (inr platform) ∧
      getPlatformType adapter = type platform ∧
      getPlatform adapter = platform ∧
      getPlatformDisplayName (inr platform) ≠ "Git Platform"
  | inl e =>
      getPlatformCliName (inr platform) = "unknown" ∧
      getPlatformDisplayName (inr platform) = "Git Platform" ∧
      e = Error "Error" ("Unsupported platform type: " ++ type platform)
  end.
Proof.
  split; [done|].
  unfold createAdapter, getPlatformCliName, getPlatformDisplayName, typeOf.
  destruct (Js.seq (type platform) "github") eqn:Hgh.
  { apply seq_eq in Hgh. by cbn. }
  destruct (Js.seq (type platform) "gitlab") eqn:Hgl.
  { apply seq_eq in Hgl. by cbn. }
  done.
Qed.

(** X11. [createAdapterForType] with one of the two declared types never
    throws: the adapter is of the requested type whatever the host, its
    descriptor keeps the host as given, names [owner/repo], and has
    exactly one of the two platform flags; any other type is refused. *)
Theorem createAdapterForType_spec (platformType host' owner' repo' : string) :
  (platformType = "github" ∨ platformType = "gitlab" →
   ∃ adapter,
     createAdapterForType platformType host' owner' repo' = inr adapter ∧
     getPlatformType adapter = platformType ∧
     host (getPlatform adapter) = host' ∧
     fullName (getPlatform adapter) = owner' ++ "/" ++ repo' ∧
     isGitHub (getPlatform adapter) = negb (isGitLab (getPlatform adapter)) ∧
     (isSelfHosted (getPlatform adapter) = false ↔
      host' = "github.com" ∨ host' = "gitlab.com")) ∧
  (platformType ≠ "github" → platformType ≠ "gitlab" →
   createAdapterForType platformType host' owner' repo' =
     inl (Error "Error" ("Unsupported platform type: " ++ platformType))).
Proof.
  unfold createAdapterForType, createAdapter. cbn [type]. split.
  - assert (Hself : negb (Js.seq host' "github.com") && negb (Js.seq host' "gitlab.com")
                    = false ↔ host' = "github.com" ∨ host' = "gitlab.com").
    { rewrite andb_false_iff, !negb_false_iff, !seq_eq. done. }
    intros [-> | ->]; eexists; (split; [reflexivity|]); cbn; done.
  - intros Hgh Hgl. apply seq_neq in Hgh, Hgl. by rewrite Hgh, Hgl.
Qed.

(** ** The further properties at concrete inputs *)

(** A world in which [/repo] was detected as having no platform. *)
Lemma detect_force_refresh_witness :
  ∃ w1,
    @detectGitPlatform answering "/repo" (mkDetectOptions None (Some true))
      (setPlatformCache {[ "/repo" := None ]} emptyWorld) =
      (inr (Some (createPlatform "gitlab.com" "acme" "widgets")), w1) ∧
    trace w1 = [ExecSync "git remote get-url origin" (Some "/repo")] ∧
    @detectGitPlatform answering "/repo" noOptions w1 =
      (inr (Some (createPlatform "gitlab.com" "acme" "widgets")), w1).
Proof.
  destruct (detect_force_refresh (H := answering) "/repo"
              (mkDetectOptions None (Some true))
              (setPlatformCache {[ "/repo" := None ]} emptyWorld) eq_refl)
    as (r & w1 & Hrun & -> & Htr & _ & _ & Hagain).
  exists w1. split; [exact Hrun|]. split; [exact Htr|]. by apply Hagain.
Defined.

Lemma getAdapter_supported_witness :
  cacheSound emptyWorld ∧
  ∃ w', @getAdapter failing "/repo" emptyWorld = (inl couldNotDetect, w').
Proof.
  split; [apply cacheSound_empty|].
  destruct (@getAdapter failing "/repo" emptyWorld) as [[e|a] w'] eqn:Hrun.
  - exists w'.
    by rewrite (proj1 (getAdapter_supported (H := failing) "/repo" emptyWorld
                         cacheSound_empty) e w' Hrun).
  - vm_compute in Hrun. discriminate Hrun.
Defined.

(** ** Lines of output *)

Lemma splitLines_oneLine (s : string) : Forall (fun l => oneLine l = true) (splitLines s).
Proof.
  induction s as [|c s IH]; cbn [splitLines]; [by repeat constructor|].
  destruct (Ascii.eqb c LF) eqn:Hc; [by constructor|].
  destruct (splitLines s) as [|l ls].
  - repeat constructor. unfold oneLine, Re.notChar. cbn. by rewrite Hc.
  - inversion IH as [|? ? Hl Hls]; subst. constructor; [|done].
    unfold oneLine, Re.notChar in *. cbn. by rewrite Hc.
Qed.

Lemma startsWith_refl (s : string) : Js.startsWith s s = true.
Proof. induction s as [|c s IH]; [done|]. cbn. by rewrite Ascii.eqb_refl. Qed.


Lemma nonEmptyLines_spec (output : string) :
  Forall (fun b => b ≠ "" ∧ oneLine b = true) (nonEmptyLines output).
Proof.
  unfold nonEmptyLines. apply Forall_forall. intros b [Hlen Hin]%list_elem_of_filter.
  split.
  - intros ->. discriminate Hlen.
  - by apply (proj1 (Forall_forall _ _) (splitLines_oneLine (Js.trim output))).
Qed.

(** ** Probing the command-line tools *)

Section ProbeFacts.
Context `{Environment}.
Variable platform : GitPlatform.



Lemma auth_probe (first second : M string) (status user : Invocation) (w : World) :
  (∀ w0, first w0 = ((runSync status w0).1, after status (runSync status w0).2 w0)) →
  (∀ w0, second w0 = ((runSync user w0).1, after user (runSync user w0).2 w0)) →
  ∃ r w',
    tryCatch
      (first ;;;
       tryCatch
         (out <- second ;;
          let username := Js.trim out in
          ret (mkAuthCheckResult true (Some username)))
         (fun _ => ret (mkAuthCheckResult true None)))
      (fun _ => ret (mkAuthCheckResult false None)) w = (inr r, w') ∧
    authProbed status user w r.
Proof.
  intros Hfirst Hsecond. unfold authProbed, tryCatch, bind, ret.
  rewrite Hfirst. destruct (runSync status w) as [[e|out] fs] eqn:H1; cbn.
  { eexists _, _. split; [reflexivity|]. cbn. split.
    - split; [done|]. by intros (? & ? & [=]).
    - intros name. split; [done|]. by intros (? & ? & ? & ? & [=] & _). }
  rewrite Hsecond. destruct (runSync user _) as [[e|out'] fs'] eqn:H2; cbn.
  - eexists _, _. split; [reflexivity|]. cbn. split.
    + split; [eauto|done].
    + intros name. split; [done|].
      intros (? & ? & ? & ? & [= <- <-] & Hu & _). rewrite H2 in Hu. done.
  - eexists _, _. split; [reflexivity|]. cbn. split.
    + split; [eauto|done].
    + intros name. split.
      * intros [= <-]. by exists out, fs, out', fs'.
      * intros (? & ? & ? & ? & [= <- <-] & Hu & ->). rewrite H2 in Hu.
        by injection Hu as <- _.
Qed.

Lemma execSync_run (command : string) (cwd : option string) (w : World) :
  execSync command cwd w =
  ((runSync (ExecSync command cwd) w).1,
   after (ExecSync command cwd) (runSync (ExecSync command cwd) w).2 w).
Proof. unfold execSync, after. by destruct (runSync _ w). Qed.

Lemma execFileSync_run (file : string) (args : list string) (cwd : option string)
    (w : World) :
  execFileSync file args cwd w =
  ((runSync (ExecFileSync file args cwd) w).1,
   after (ExecFileSync file args cwd) (runSync (ExecFileSync file args cwd) w).2 w).
Proof. unfold execFileSync, after. by destruct (runSync _ w). Qed.

(** X13. [checkAuthentication] of either adapter never throws.  It
    reports authenticated exactly when the status command succeeds, also
    when the user query after it fails; a user name is reported exactly
    when both succeed and is the trimmed output of the query.  The GitLab
    commands carry the host arguments of a self-hosted instance. *)
Theorem checkAuthentication_spec (w : World) :
  (∃ r w', GitHub.checkAuthentication w = (inr r, w') ∧
           authProbed (ExecSync "gh auth status" None)
                      (ExecSync "gh api user --jq .login" None) w r) ∧
  (∃ r w', GitLab.checkAuthentication platform w = (inr r, w') ∧
           authProbed
             (ExecFileSync "glab" (GitLab.pushHostname platform ["auth"; "status"]) None)
             (ExecFileSync "glab"
                (GitLab.pushHostname platform ["api"; "/user"; "--jq"; ".username"]) None)
             w r).
Proof.
  split.
  - apply auth_probe; intros w0; apply execSync_run.
  - apply auth_probe; intros w0; apply execFileSync_run.
Qed.

End ProbeFacts.

(** ** Listings *)

Lemma tryCatch_rethrow_inr {A} (body : M A) (wrap : JsError → JsError) (w w' : World)
    (a : A) :
  tryCatch body (fun error => throw (wrap error)) w = (inr a, w') →
  body w = (inr a, w').
Proof. unfold tryCatch, throw. by destruct (body w) as [[e|a'] w1]. Qed.

Section ListingFacts.
Context `{Environment}.
Variable platform : GitPlatform.

(** X14. The branch names either adapter returns are non-empty single
    lines: no empty entry and no line feed survives the split and the
    filter. *)
Theorem getBranches_names (repo : string) (w w' : World) (branches : list string) :
  (GitHub.getBranches repo w = (inr branches, w') →
   Forall (fun b => b ≠ "" ∧ oneLine b = true) branches) ∧
  (GitLab.getBranches platform repo w = (inr branches, w') →
   Forall (fun b => b ≠ "" ∧ oneLine b = true) branches).
Proof.
  split; intros Hrun%tryCatch_rethrow_inr.
  - destruct (negb (Re.test repoFormatRe repo)); [discriminate Hrun|].
    unfold bind in Hrun. rewrite execFileSync_run in Hrun.
    destruct (runSync _ w) as [[e|out] fs]; [discriminate Hrun|].
    injection Hrun as <- _. apply nonEmptyLines_spec.
  - unfold bind in Hrun.
    destruct (GitLab.getProjectId platform repo w) as [[e|projectId] w1];
      [discriminate Hrun|].
    rewrite execFileSync_run in Hrun.
    destruct (runSync _ w1) as [[e|out] fs]; [discriminate Hrun|].
    injection Hrun as <- _. apply nonEmptyLines_spec.
Qed.

Lemma pushRepo_listed (lines : list string) (repos : list Repository) :
  Forall (listedFrom (host platform)) repos →
  Forall (listedFrom (host platform)) (fold_left (GitLab.pushRepo platform) lines repos) ∧
  (length (fold_left (GitLab.pushRepo platform) lines repos) ≤ length repos + length lines)%nat.
Proof.
  revert repos. induction lines as [|line lines IH]; intros repos Hrepos.
  { cbn. split; [done|lia]. }
  cbn [fold_left length].
  assert (Hstep : Forall (listedFrom (host platform)) (GitLab.pushRepo platform repos line) ∧
                  (length (GitLab.pushRepo platform repos line) ≤ S (length repos))%nat).
  { unfold GitLab.pushRepo.
    destruct (Js.truthy (Js.trim line)) eqn:Hne; cbn [andb]; [|split; [done|lia]].
    destruct (Js.includes (Js.trim line) "/") eqn:Hsl; [|split; [done|lia]].
    split; [|rewrite length_app; cbn; lia].
    apply Forall_app. split; [done|]. constructor; [|done].
    exists (Js.trim line). cbn. split; [done|]. split.
    { intros Hnil. rewrite Hnil in Hne. discriminate Hne. }
    split; [apply trim_idem|]. done. }
  destruct Hstep as [Hl Hlen]. destruct (IH _ Hl) as [IH1 IH2]. split; [done|lia].
Qed.

Lemma sliceTo_length {A} (limit : Z) (l : list A) :
  (0 ≤ limit)%Z → (length (sliceTo limit l) ≤ Z.to_nat limit)%nat.
Proof.
  intros Hpos. unfold sliceTo. destruct (Z.ltb_spec limit 0); [lia|].
  rewrite length_firstn. lia.
Qed.

(** X15. [GitLab.listRepos] fails only with a [PlatformAdapterError] for
    [gitlab] that carries the cause.  When it returns, it ran one [glab
    repo list]; every entry has a trimmed name that contains a slash, the
    URL of that name on the adapter's host, a null description and
    [isPrivate] false; and with a limit that is not negative there are at
    most [limit] entries (100 by default). *)
Theorem gitlab_listRepos_spec (limit : option Z) (w : World) :
  throwsOnlyFor "gitlab" (GitLab.listRepos platform limit) ∧
  ∀ repos w', GitLab.listRepos platform limit w = (inr repos, w') →
    Forall (listedFrom (host platform)) repos ∧
    ((0 ≤ default 100 limit)%Z → (length repos ≤ Z.to_nat (default 100%Z limit))%nat) ∧
    trace w' =
      (trace w ++ [ExecFileSync "glab" (GitLab.pushHostname platform ["repo"; "list"])
                     None])%list.
Proof.
  split; [apply tryCatch_wrap|].
  intros repos w' Hrun%tryCatch_rethrow_inr.
  unfold bind in Hrun. rewrite execFileSync_run in Hrun.
  destruct (runSync _ w) as [[e|out] fs]; [discriminate Hrun|].
  injection Hrun as <- <-.
  destruct (pushRepo_listed (sliceTo (default 100%Z limit) (nonBlankLines out)) [])
    as [Hl Hlen]; [done|].
  split; [done|]. split; [|done].
  intros Hpos. pose proof (sliceTo_length _ (nonBlankLines out) Hpos). cbn in Hlen. lia.
Qed.

Lemma toRepository_spec (item : Json) (w : World) :
  match GitHub.toRepository item w with
  | (inr r, w') => w' = w ∧ listedOf item r
  | (inl _, w') => w' = w ∧ item = JNull
  end.
Proof.
  unfold GitHub.toRepository, listedOf, bind, liftResult, ret, member.
  destruct item; done.
Qed.

Lemma mapM_toRepository (items : list Json) (w w' : World) (repos : list Repository) :
  mapM GitHub.toRepository items w = (inr repos, w') →
  w' = w ∧ Forall2 listedOf items repos.
Proof.
  revert repos w'. induction items as [|item items IH]; intros repos w'.
  { intros [= <- <-]. by split. }
  cbn [mapM]. unfold bind at 1. pose proof (toRepository_spec item w) as Hitem.
  destruct (GitHub.toRepository item w) as [[e|r] w1]; [done|].
  destruct Hitem as [-> Hr]. unfold bind at 1.
  destruct (mapM GitHub.toRepository items w) as [[e|rs] w2] eqn:Hrest; [done|].
  destruct (IH rs w2 eq_refl) as [-> Hrs]. intros [= <- <-]. split; [done|].
  by constructor.
Qed.

(** X16. [GitHub.listRepos] fails only with a [PlatformAdapterError] for
    [github] that carries the cause.  When it returns, the one [gh repo
    list] it ran (with the limit, 100 by default, in the command line)
    printed an array, and the result has one entry per element, in order:
    the element's [nameWithOwner], [description] and [isPrivate] as
    parsed, and the URL [https://github.com/<nameWithOwner>]. *)
Theorem github_listRepos_spec (limit : option Z) (w : World) :
  throwsOnlyFor "github" (GitHub.listRepos limit) ∧
  ∀ repos w', GitHub.listRepos limit w = (inr repos, w') →
    ∃ out fs items,
      runSync (ghListQuery limit) w = (inr out, fs) ∧
      JSON_parse out = inr (JArr items) ∧
      Forall2 listedOf items repos ∧
      w' = after (ghListQuery limit) fs w.
Proof.
  split; [apply tryCatch_wrap|].
  intros repos w' Hrun%tryCatch_rethrow_inr.
  unfold bind in Hrun. rewrite execSync_run in Hrun. fold (ghListQuery limit) in Hrun.
  destruct (runSync (ghListQuery limit) w) as [[e|out] fs]; [discriminate Hrun|].
  cbn [fst snd] in Hrun. unfold liftResult in Hrun.
  destruct (JSON_parse out) as [e|parsed] eqn:Hparse; [discriminate Hrun|].
  destruct parsed as [| | | |items|]; try discriminate Hrun.
  cbn [arrayMap] in Hrun. apply mapM_toRepository in Hrun as [-> Hall].
  by exists out, fs, items.
Qed.

End ListingFacts.

(** ** Releases through the GitHub adapter *)

Lemma orUndefined_spec (a : string) :
  orUndefined a ≠ Some "" ∧ ∀ u, orUndefined a = Some u → u = a.
Proof.
  unfold orUndefined, Js.truthy. destruct (String.eqb_spec a ""); cbn.
  - split; [done|]. by intros u [=].
  - split; [congruence|]. by intros u [= <-].
Qed.

Section GitHubRelease.
Context `{Environment}.
Variable platform : GitPlatform.

(** X17. [getReleaseUrl] of either adapter never throws, and what it
    returns is [undefined] or a non-empty trimmed text, never the empty
    string.  The GitHub one runs exactly one [gh release view]. *)
Theorem getReleaseUrl_spec (projectPath' tagName' : string) (w : World) :
  (∃ r w', GitHub.getReleaseUrl projectPath' tagName' w = (inr r, w') ∧
           r ≠ Some "" ∧ (∀ u, r = Some u → Js.trim u = u) ∧
           ∃ query, trace w' = (trace w ++ [query])%list) ∧
  (∃ r w', GitLab.getReleaseUrl platform projectPath' tagName' w = (inr r, w') ∧
           r ≠ Some "" ∧ (∀ u, r = Some u → Js.trim u = u)).
Proof.
  assert (Htrim : ∀ out u, orUndefined (Js.trim out) = Some u → Js.trim u = u).
  { intros out u ->%orUndefined_spec. apply trim_idem. }
  split.
  - unfold GitHub.getReleaseUrl, tryCatch, bind, ret. rewrite execSync_run.
    destruct (runSync _ w) as [[e|out] fs]; cbn [fst snd].
    + eexists _, _. split; [reflexivity|]. split; [done|]. split; [done|].
      by eexists.
    + eexists _, _. split; [reflexivity|]. split; [apply orUndefined_spec|].
      split; [apply Htrim|]. by eexists.
  - unfold GitLab.getReleaseUrl, tryCatch, bind, ret.
    destruct (GitLab.detectRepo platform projectPath' w) as [[e|[repo|]] w1];
      [by eexists _, _ | | by eexists _, _].
    destruct (negb (Js.truthy repo)); [by eexists _, _|].
    destruct (GitLab.getProjectId platform repo w1) as [[e|projectId] w2];
      [by eexists _, _|].
    rewrite execFileSync_run.
    destruct (runSync _ w2) as [[e|out] fs]; cbn [fst snd]; [by eexists _, _|].
    eexists _, _. split; [reflexivity|]. split; [apply orUndefined_spec|apply Htrim].
Qed.

(** X18. [GitHub.createRelease] never throws.  It succeeds exactly when
    the [gh release create] child exits with code 0; otherwise the result
    is a failure with the child's stderr (or "gh exited with code ...",
    or the spawn error's message) and nothing else was started.  On
    success the result names the tag, its URL is never the empty string,
    and the URL is the child's trimmed output when that starts with
    [http]; only otherwise is [gh release view] asked. *)
Theorem github_createRelease_spec (options : CreateReleaseOptions) (w : World) :
  ∃ r w',
    GitHub.createRelease options w = (inr r, w') ∧
    (success r = true ↔
     childFailure "gh" (runChild (ghReleaseInvocation options) w).1 = None) ∧
    (∀ msg, childFailure "gh" (runChild (ghReleaseInvocation options) w).1 = Some msg →
       r = releaseFailure msg ∧
       trace w' = (trace w ++ [ghReleaseInvocation options])%list) ∧
    (∀ stdout stderr,
       (runChild (ghReleaseInvocation options) w).1 = Exited (Some 0%Z) stdout stderr →
       releaseTagName r = Some (tagName options) ∧ error r = None ∧
       releaseUrl r ≠ Some "" ∧
       (Js.startsWith "http" (Js.trim stdout) = true →
        releaseUrl r = Some (Js.trim stdout) ∧
        trace w' = (trace w ++ [ghReleaseInvocation options])%list) ∧
       (Js.startsWith "http" (Js.trim stdout) = false →
        trace w' =
          (trace w ++ [ghReleaseInvocation options; ghReleaseQuery options])%list)).
Proof.
  unfold GitHub.createRelease, tryCatch, bind, spawnAndWait.
  fold (ghReleaseInvocation options).
  destruct (runChild (ghReleaseInvocation options) w) as [child fs] eqn:Hchild.
  cbn [fst].
  destruct child as [[[|code|code]|] stdout stderr | e];
    cbn [GitHub.awaitChild childFailure].
  2-5: (unfold throw, ret; eexists _, _; (split; [reflexivity|]);
        cbn [success]; (split; [done|]);
        (split; [by intros msg [= <-]|by intros so se [=]])).
  cbn [ret].
  destruct (Js.startsWith "http" (Js.trim stdout)) eqn:Hhttp; cbn [negb].
  - eexists _, _. split; [reflexivity|]. cbn [success releaseTagName error releaseUrl].
    split; [done|]. split; [done|]. intros so se [= <- <-].
    split; [done|]. split; [done|]. split; [apply orUndefined_spec|].
    rewrite Hhttp. split; [|done]. intros _. split; [|done].
    unfold orUndefined, Js.truthy. destruct (Js.trim stdout); [discriminate Hhttp|done].
  - unfold GitHub.getReleaseUrl, tryCatch, bind, ret. rewrite execSync_run.
    fold (ghReleaseQuery options).
    destruct (runSync (ghReleaseQuery options) _) as [[e|out] fs']; cbn [fst snd];
      (eexists _, _; (split; [reflexivity|]);
       cbn [success releaseTagName error releaseUrl];
       (split; [done|]); (split; [done|]); intros so se [= <- <-];
       (split; [done|]); (split; [done|]); (split; [apply orUndefined_spec|]);
       rewrite Hhttp; (split; [done|]); intros _; cbn; by rewrite <- app_assoc).
Qed.

End GitHubRelease.

(** ** Project ids of the GitLab adapter *)

Lemma encodeURIComponent_app (a b : string) :
  encodeURIComponent (a ++ b) = encodeURIComponent a ++ encodeURIComponent b.
Proof.
  induction a as [|c a IH]; [done|]. rewrite append_cons. cbn [encodeURIComponent].
  by rewrite IH, append_assoc.
Qed.

Lemma encode_char_noSlash (c : ascii) :
  noSlash (encodeURIComponent (String c "")) = true.
Proof. destruct c as [[] [] [] [] [] [] [] []]; vm_compute; reflexivity. Qed.

Lemma encode_char_unreserved (c : ascii) :
  uriUnreserved c = true → encodeURIComponent (String c "") = String c "".
Proof. intros Hc. cbn [encodeURIComponent]. by rewrite Hc. Qed.

Lemma nameChar_unreserved (c : ascii) : nameChar c = true → uriUnreserved c = true.
Proof. destruct c as [[] [] [] [] [] [] [] []]; vm_compute; done. Qed.

Lemma encodeURIComponent_noSlash (s : string) : noSlash (encodeURIComponent s) = true.
Proof.
  induction s as [|c s IH]; [done|].
  change (String c s) with (String c "" ++ s). rewrite encodeURIComponent_app.
  unfold noSlash in *. by rewrite allChars_append, IH, encode_char_noSlash.
Qed.

Lemma encodeURIComponent_names (s : string) :
  allChars nameChar s = true → encodeURIComponent s = s.
Proof.
  induction s as [|c s IH]; [done|]. cbn [allChars].
  intros [Hc Hs]%andb_prop. change (String c s) with (String c "" ++ s).
  rewrite encodeURIComponent_app, encode_char_unreserved, IH; [done..|].
  by apply nameChar_unreserved.
Qed.

(** ** Numbers *)

Lemma roundDouble_small (z : Z) : (z < 2 ^ 53)%Z → roundDouble z = z.
Proof. intros Hz. unfold roundDouble. by rewrite (proj2 (Z.ltb_lt _ _) Hz). Qed.

Lemma roundDouble_large (z : Z) : (2 ^ 53 ≤ z)%Z → (2 ^ 53 ≤ roundDouble z)%Z.
Proof.
  intros Hz. unfold roundDouble. rewrite (proj2 (Z.ltb_ge _ _) Hz).
  assert (Hpos : (0 < z)%Z). { pose proof (Z.pow_pos_nonneg 2 53). lia. }
  assert (Hlog : (53 ≤ Z.log2 z)%Z) by (by apply Z.log2_le_pow2).
  set (e := (Z.log2 z - 52)%Z).
  assert (He : (1 ≤ e)%Z) by lia.
  assert (Hq : (2 ^ 52 ≤ z / 2 ^ e)%Z).
  { apply Z.div_le_lower_bound; [apply Z.pow_pos_nonneg; lia|].
    rewrite <- Z.pow_add_r by lia. replace (e + 52)%Z with (Z.log2 z) by lia.
    by apply Z.log2_spec. }
  cbv zeta.
  match goal with |- (_ ≤ ?a * _)%Z => set (q' := a) end.
  assert (Hq' : (2 ^ 52 ≤ q')%Z).
  { subst q'. destruct (_ || _); lia. }
  assert (H2 : (2 ^ 1 ≤ 2 ^ e)%Z) by (apply Z.pow_le_mono_r; lia).
  change (2 ^ 53)%Z with (2 ^ 52 * 2 ^ 1)%Z.
  apply Z.mul_le_mono_nonneg; [|done| |done].
  - apply Z.lt_le_incl, Z.pow_pos_nonneg; lia.
  - apply Z.lt_le_incl, Z.pow_pos_nonneg; lia.
Qed.

(** Below 2^53 every integer is a Number of its own. *)
Lemma toNumber_exact (z : Z) : (Z.abs z < 2 ^ 53)%Z → toNumber z = Int z.
Proof.
  intros Hz. unfold toNumber. rewrite roundDouble_small by done.
  assert (Hmax : (2 ^ 53 < 2 ^ 1024)%Z) by (apply Z.pow_lt_mono_r; lia).
  rewrite (proj2 (Z.leb_gt _ _)) by lia.
  f_equal. rewrite Z.mul_comm. apply Z.abs_sgn.
Qed.

Lemma roundTrips_small (x v : Z) :
  (0 < x < 2 ^ 53)%Z → roundTrips x v = true → v = x.
Proof.
  intros Hx. unfold roundTrips, toNumber.
  destruct (2 ^ 1024 <=? _)%Z; [done|]. intros Hv%Z.eqb_eq.
  destruct (Z.lt_ge_cases (Z.abs v) (2 ^ 53)) as [Hs|Hl].
  - rewrite roundDouble_small in Hv by done.
    by rewrite Z.mul_comm, Z.abs_sgn in Hv.
  - apply roundDouble_large in Hl.
    assert (Hsgn : Z.sgn v = 1%Z ∨ Z.sgn v = (-1)%Z ∨ Z.sgn v = 0%Z) by lia.
    destruct Hsgn as [Hs|[Hs|Hs]]; rewrite Hs in Hv; lia.
Qed.

Lemma shortest_small (x : Z) : (0 < x < 2 ^ 53)%Z → shortest x = x.
Proof.
  intros Hx. unfold shortest. generalize 1%Z. generalize (String.length (showZ x)).
  intros fuel. induction fuel as [|fuel IH]; intros k; [done|].
  cbn [shortestFrom]. unfold shortestAt. cbv zeta.
  destruct (roundTrips x _) eqn:Hlo; destruct (roundTrips x (_ + _)) eqn:Hhi;
    try apply (roundTrips_small x _ Hx) in Hlo;
    try apply (roundTrips_small x _ Hx) in Hhi.
  - lia.
  - exact Hlo.
  - exact Hhi.
  - apply IH.
Qed.

(** Below 2^53 a number is written with the digits of the integer. *)
Lemma numberText_exact (z : Z) : (0 ≤ z < 2 ^ 53)%Z → numberText z = showZ z.
Proof.
  intros Hz. unfold numberText. rewrite toNumber_exact by lia.
  unfold showNumber. destruct (Z.eqb_spec z 0) as [->|Hne]; [done|].
  rewrite (proj2 (Z.ltb_ge _ _)) by lia.
  unfold showPositive. rewrite shortest_small by lia.
  assert (Hbig : (2 ^ 53 < 10 ^ 21)%Z) by done.
  by rewrite (proj2 (Z.ltb_lt _ _)) by lia.
Qed.

(** Beyond, [parseInt] gives the nearest double, and numbers from 1e21 on
    are written with an exponent. *)
Example parseInt_rounds :
  parseInt "9007199254740993" = Int 9007199254740992 ∧
  parseInt "9007199254740995" = Int 9007199254740996 ∧
  parseInt "  -0012abc" = Int (-12) ∧
  parseInt "abc" = NaN ∧
  showNumber (Int (2 ^ 60)) = "1152921504606847000" ∧
  numberText (10 ^ 21 - 1) = "1e+21" ∧
  numberText (2 ^ 70) = "1.1805916207174113e+21" ∧
  showNumber (parseInt (showZ (2 ^ 1024))) = "Infinity".
Proof. vm_compute. repeat split. Qed.

Section ProjectIds.
Context `{Environment}.
Variable platform : GitPlatform.

(** The endpoint of the query that looks a project up. *)
Lemma projectQuery_endpoint (fullPath : string) :
  ∃ later,
    glabProjectQuery platform fullPath =
    ExecFileSync "glab"
      ("api" :: ("projects/" ++ encodeURIComponent fullPath) :: "--jq" :: ".id" :: later)
      None.
Proof.
  unfold glabProjectQuery, GitLab.pushHostname.
  destruct (isSelfHosted platform); eexists; reflexivity.
Qed.

(** X19. [getProjectId] answers from its cache without starting a
    process.  On a miss it runs one [glab api projects/<path>] query: a
    failure is wrapped and leaves the cache as it was, so the next call
    asks again; a success caches [parseInt] of the trimmed output under
    the path, and the next call for the path returns it from the cache.
    What is cached is the Number [parseInt] gives, a double: [NaN], an
    infinity, or an integer that a double holds. *)
Theorem getProjectId_cache (fullPath : string) (w : World) :
  (∀ id, projectIdCache w !! fullPath = Some id →
     GitLab.getProjectId platform fullPath w = (inr id, w)) ∧
  (projectIdCache w !! fullPath = None →
   (∀ e fs, runSync (glabProjectQuery platform fullPath) w = (inl e, fs) →
      ∃ w',
        GitLab.getProjectId platform fullPath w =
          (inl (PlatformAdapterError ("Failed to get project ID for " ++ fullPath)
                  "gitlab" (Some e)), w') ∧
        projectIdCache w' = projectIdCache w ∧
        trace w' = (trace w ++ [glabProjectQuery platform fullPath])%list) ∧
   (∀ out fs, runSync (glabProjectQuery platform fullPath) w = (inr out, fs) →
      ∃ w',
        GitLab.getProjectId platform fullPath w = (inr (parseInt (Js.trim out)), w') ∧
        projectIdCache w' = <[fullPath := parseInt (Js.trim out)]> (projectIdCache w) ∧
        platformCache w' = platformCache w ∧
        trace w' = (trace w ++ [glabProjectQuery platform fullPath])%list ∧
        GitLab.getProjectId platform fullPath w' = (inr (parseInt (Js.trim out)), w'))).
Proof.
  unfold GitLab.getProjectId, bind, getWorld. split.
  - by intros id ->.
  - intros ->. unfold tryCatch, bind. rewrite execFileSync_run.
    fold (glabProjectQuery platform fullPath). split.
    + intros e fs ->. cbn [fst snd]. unfold throw. by eexists.
    + intros out fs ->. cbn [fst snd]. unfold modify, ret. eexists.
      split; [reflexivity|]. cbn [projectIdCache platformCache trace after setFiles
                                  logInvocation setProjectIdCache].
      split; [done|]. split; [done|]. split; [done|].
      by rewrite lookup_insert_eq.
Qed.

(** X20. The project path travels as one URL segment: the endpoint of
    the lookup query is [projects/] followed by a text without a slash,
    whatever the path; for an owner and a repository written with
    letters, digits, [-], [_] and [.] it is [projects/<owner>%2F<repo>]. *)
Theorem projectQuery_one_segment (fullPath o r : string) :
  (∃ segment later,
     glabProjectQuery platform fullPath =
       ExecFileSync "glab" ("api" :: ("projects/" ++ segment) :: later) None ∧
     noSlash segment = true) ∧
  (allChars nameChar o = true → allChars nameChar r = true →
   ∃ later,
     glabProjectQuery platform (o ++ "/" ++ r) =
       ExecFileSync "glab" ("api" :: ("projects/" ++ o ++ "%2F" ++ r) :: later) None).
Proof.
  split.
  - destruct (projectQuery_endpoint fullPath) as [later ->].
    eexists _, _. split; [reflexivity|]. apply encodeURIComponent_noSlash.
  - intros Ho Hr. destruct (projectQuery_endpoint (o ++ "/" ++ r)) as [later ->].
    eexists. rewrite !encodeURIComponent_app.
    rewrite (encodeURIComponent_names o), (encodeURIComponent_names r) by done.
    reflexivity.
Qed.

End ProjectIds.

(** ** Self-hosted instances *)

Section Starts.
Context `{Environment}.
Variable P : Invocation → Prop.

Lemma starts_quiet {A} (m : M A) :
  (∀ w, trace (m w).2 = trace w) → starts P m.
Proof. intros Hq w. exists []. by rewrite Hq, app_nil_r. Qed.

Lemma starts_ret {A} (a : A) : starts P (ret a).
Proof. by apply starts_quiet. Qed.

Lemma starts_throw {A} (e : JsError) : starts P (throw (A := A) e).
Proof. by apply starts_quiet. Qed.

Lemma starts_liftResult {A} (r : Result A) : starts P (liftResult r).
Proof. by apply starts_quiet. Qed.

Lemma starts_getWorld : starts P getWorld.
Proof. by apply starts_quiet. Qed.

Lemma starts_modify (f : World → World) :
  (∀ w, trace (f w) = trace w) → starts P (modify f).
Proof. intros Hf. apply starts_quiet. intros w. apply Hf. Qed.

Lemma starts_existsSync (path : string) : starts P (existsSync path).
Proof. by apply starts_quiet. Qed.

Lemma starts_writeFileSync (path data : string) : starts P (writeFileSync path data).
Proof.
  apply starts_quiet. intros w. unfold writeFileSync. by destruct (writeError path w).
Qed.

Lemma starts_unlinkSync (path : string) : starts P (unlinkSync path).
Proof.
  apply starts_quiet. intros w. unfold unlinkSync.
  destruct (unlinkError path w); [done|]. by destruct (files w !! path).
Qed.

Lemma starts_readFileSync (path : string) : starts P (readFileSync path).
Proof.
  apply starts_quiet. intros w. unfold readFileSync.
  destruct (readError path w); [done|]. by destruct (files w !! path).
Qed.

Lemma starts_bind {A B} (m : M A) (f : A → M B) :
  starts P m → (∀ a, starts P (f a)) → starts P (bind m f).
Proof.
  intros Hm Hf w. unfold bind. destruct (Hm w) as (l1 & H1 & HP1).
  destruct (m w) as [[e|a] w1]; cbn in *.
  - by exists l1.
  - destruct (Hf a w1) as (l2 & H2 & HP2). exists (l1 ++ l2)%list.
    split; [by rewrite H2, H1, app_assoc|]. by apply Forall_app.
Qed.

Lemma starts_tryCatch {A} (m : M A) (handler : JsError → M A) :
  starts P m → (∀ e, starts P (handler e)) → starts P (tryCatch m handler).
Proof.
  intros Hm Hh w. unfold tryCatch. destruct (Hm w) as (l1 & H1 & HP1).
  destruct (m w) as [[e|a] w1]; cbn in *.
  - destruct (Hh e w1) as (l2 & H2 & HP2). exists (l1 ++ l2)%list.
    split; [by rewrite H2, H1, app_assoc|]. by apply Forall_app.
  - by exists l1.
Qed.

Lemma starts_tryFinally {A} (m : M A) (cleanup : M unit) :
  starts P m → starts P cleanup → starts P (tryFinally m cleanup).
Proof.
  intros Hm Hc w. unfold tryFinally. destruct (Hm w) as (l1 & H1 & HP1).
  destruct (m w) as [r w1]; cbn in *.
  destruct (Hc w1) as (l2 & H2 & HP2).
  destruct (cleanup w1) as [[e|u] w2]; cbn in *;
    (exists (l1 ++ l2)%list; split; [by rewrite H2, H1, app_assoc|by apply Forall_app]).
Qed.

Lemma starts_execSync (command : string) (cwd : option string) :
  P (ExecSync command cwd) → starts P (execSync command cwd).
Proof.
  intros HP w. rewrite execSync_run. cbn. eexists. split; [reflexivity|].
  by repeat constructor.
Qed.

Lemma starts_execFileSync (file : string) (args : list string) (cwd : option string) :
  P (ExecFileSync file args cwd) → starts P (execFileSync file args cwd).
Proof.
  intros HP w. rewrite execFileSync_run. cbn. eexists. split; [reflexivity|].
  by repeat constructor.
Qed.

Lemma starts_spawnAndWait (file : string) (args : list string) (cwd : option string) :
  P (Spawn file args cwd) → starts P (spawnAndWait file args cwd).
Proof.
  intros HP w. unfold spawnAndWait. destruct (runChild _ w) as [child fs]. cbn.
  eexists. split; [reflexivity|]. by repeat constructor.
Qed.

End Starts.

(** Takes a computation apart along its binds, handlers and branches. *)
Ltac starts_auto :=
  repeat first
    [ progress intros
    | apply starts_ret | apply starts_throw | apply starts_liftResult
    | apply starts_getWorld | apply starts_existsSync | apply starts_writeFileSync
    | apply starts_unlinkSync | apply starts_readFileSync
    | apply starts_modify; reflexivity
    | match goal with Hk : ∀ _, starts _ _ |- _ => apply Hk end
    | match goal with Hk : ∀ _ _, starts _ _ |- _ => apply Hk end
    | match goal with Hk : starts _ _ |- _ => apply Hk end
    | apply starts_bind | apply starts_tryCatch | apply starts_tryFinally
    | apply starts_execSync | apply starts_execFileSync | apply starts_spawnAndWait
    | match goal with |- starts _ (if ?b then _ else _) => destruct b end
    | match goal with |- starts _ (match ?x with _ => _ end) => destruct x end ].

Section SelfHosted.
Context `{Environment}.
Variable platform : GitPlatform.
Hypothesis selfHosted : isSelfHosted platform = true.

Lemma pushHostname_names (args : list string) (cwd : option string) :
  namesHost platform (ExecFileSync "glab" (GitLab.pushHostname platform args) cwd) ∧
  namesHost platform (Spawn "glab" (GitLab.pushHostname platform args) cwd).
Proof.
  unfold namesHost, GitLab.pushHostname, GitLab.getHostnameArgs, GitLab.getHost.
  rewrite selfHosted. split; intros _; by exists args.
Qed.

Lemma git_names (args : list string) (cwd : option string) :
  namesHost platform (ExecFileSync "git" args cwd).
Proof. by intros [=]. Qed.

Ltac names_host :=
  starts_auto;
  first [ exact I | apply pushHostname_names | apply git_names ].

Lemma starts_getProjectId (fullPath : string) :
  starts (namesHost platform) (GitLab.getProjectId platform fullPath).
Proof. unfold GitLab.getProjectId. names_host. Qed.

Lemma starts_getUser : starts (namesHost platform) (GitLab.getUser platform).
Proof. unfold GitLab.getUser. names_host. Qed.

Lemma starts_detectRepo (projectPath' : string) :
  starts (namesHost platform) (GitLab.detectRepo platform projectPath').
Proof. unfold GitLab.detectRepo. names_host. Qed.

Lemma starts_collectOrgs (lines : list string) (orgs : list Organization) :
  starts (namesHost platform) (GitLab.collectOrgs orgs lines).
Proof.
  revert orgs. induction lines as [|line lines IH]; intros orgs; cbn [GitLab.collectOrgs].
  - apply starts_ret.
  - apply starts_bind; [|intros orgs'; apply IH]. unfold GitLab.pushOrg. names_host.
Qed.

Lemma starts_getReleaseUrl (projectPath' tagName' : string) :
  starts (namesHost platform) (GitLab.getReleaseUrl platform projectPath' tagName').
Proof.
  pose proof starts_getProjectId. pose proof starts_detectRepo.
  unfold GitLab.getReleaseUrl. names_host.
Qed.

(** X21. On a self-hosted instance every [glab] child the GitLab adapter
    starts with an argument list ends that list with [--hostname <host>]:
    the authentication check, the user, repository, branch and group
    queries, the project lookup, repository and release creation and the
    login, whatever their inputs and however the calls before them
    ended. *)
Theorem selfHosted_names_host :
  starts (namesHost platform) (GitLab.checkAuthentication platform) ∧
  starts (namesHost platform) (GitLab.getUser platform) ∧
  (∀ limit, starts (namesHost platform) (GitLab.listRepos platform limit)) ∧
  (∀ repo, starts (namesHost platform) (GitLab.getBranches platform repo)) ∧
  (∀ options, starts (namesHost platform) (GitLab.createRepo platform options)) ∧
  (∀ projectPath' repo,
     starts (namesHost platform) (GitLab.addGitRemote platform projectPath' repo)) ∧
  starts (namesHost platform) (GitLab.listOrganizations platform) ∧
  (∀ projectPath' tagName',
     starts (namesHost platform) (GitLab.getReleaseUrl platform projectPath' tagName')) ∧
  (∀ options, starts (namesHost platform) (GitLab.createRelease platform options)) ∧
  namesHost platform (GitLab.startAuthInvocation platform).
Proof.
  pose proof starts_getProjectId. pose proof starts_getUser.
  pose proof starts_collectOrgs. pose proof starts_getReleaseUrl.
  repeat split.
  - unfold GitLab.checkAuthentication. names_host.
  - done.
  - intros limit. unfold GitLab.listRepos. names_host.
  - intros repo. unfold GitLab.getBranches. names_host.
  - intros options. unfold GitLab.createRepo. names_host.
  - intros projectPath' repo. unfold GitLab.addGitRemote, GitLab.removeOrigin. names_host.
  - unfold GitLab.listOrganizations. names_host.
  - done.
  - intros options. unfold GitLab.createRelease, GitLab.awaitChild, GitLab.cleanupNotes.
    names_host.
  - apply pushHostname_names.
Qed.

End SelfHosted.

(** ** More of the login flow *)

Lemma search_den (ci : bool) (r : Re.regex) (s : string) (m : Re.captures) :
  Re.search ci r s = Some m →
  ∃ pre tail rest, s = pre ++ tail ∧ Re.den ci (Re.Grp 0 r) tail ∅ m rest.
Proof.
  induction s as [|c s IH]; cbn [Re.search].
  - destruct (Re.matchHere ci r "") as [m'|] eqn:Hm; [|done].
    intros [= <-]. apply ReFacts.matchHere_den in Hm as [rest Hd].
    by exists "", "", rest.
  - destruct (Re.matchHere ci r (String c s)) as [m'|] eqn:Hm.
    + intros [= <-]. apply ReFacts.matchHere_den in Hm as [rest Hd].
      by exists "", (String c s), rest.
    + intros (pre & tail & rest & -> & Hd)%IH.
      by exists (String c pre), tail, rest.
Qed.

Lemma afterLit_ci (l s rest : string) :
  Re.afterLit true l s = Some rest →
  ∃ u, s = u ++ rest ∧ Js.toLowerCase u = Js.toLowerCase l.
Proof.
  revert s. induction l as [|a l IH]; intros s; cbn [Re.afterLit].
  - intros [= <-]. by exists "".
  - destruct s as [|b s]; [done|]. unfold Re.sameChar.
    destruct (Ascii.eqb_spec (Js.lowerChar a) (Js.lowerChar b)) as [Hab|]; [|done].
    intros (u & -> & Hu)%IH. exists (String b u). split; [done|].
    cbn [Js.toLowerCase]. by rewrite Hu, Hab.
Qed.

(** The text [deviceUrlRe] finds is the device page. *)
Lemma deviceUrl_page (s : string) (m : Re.captures) :
  Re.exec deviceUrlRe s = Some m → devicePage (wholeMatch m).
Proof.
  unfold Re.exec, deviceUrlRe. cbn [Re.anchored Re.ignoreCase Re.body].
  intros (pre & tail & rest & -> & Hd)%search_den.
  cbn [Re.den] in Hd. destruct Hd as (c1 & [Hlit ->] & ->).
  apply afterLit_ci in Hlit as (u & -> & Hu).
  unfold wholeMatch, devicePage. rewrite lookup_insert_eq. cbn [default].
  by rewrite ReFacts.consumed_append.
Qed.

Lemma alnum_not_space (c : ascii) : alnumChar c = true → Ascii.eqb c " " = false.
Proof. destruct c as [[] [] [] [] [] [] [] []]; vm_compute; done. Qed.

Lemma replaceFirstSpace_alnum (a s : string) :
  allChars alnumChar a = true →
  replaceFirstSpace (a ++ s) = a ++ replaceFirstSpace s.
Proof.
  induction a as [|c a IH]; [done|]. cbn [allChars]. intros [Hc Ha]%andb_prop.
  rewrite append_cons. cbn [replaceFirstSpace].
  by rewrite (alnum_not_space c Hc), IH, append_cons.
Qed.

(** The code [deviceCodeRe] captures, once its first blank is replaced. *)
Lemma deviceCode_shape (s : string) (m : Re.captures) :
  Re.exec deviceCodeRe s = Some m →
  deviceCodeShape (replaceFirstSpace (default "" (m !! 1%nat))).
Proof.
  unfold Re.exec, deviceCodeRe. cbn [Re.anchored Re.ignoreCase Re.body].
  intros (pre & tail & rest & -> & Hd)%search_den.
  cbn [Re.den] in Hd.
  destruct Hd as (c0 & (c1 & s1 & Halt & c2 & s2 & [_ ->] & c3 & s3 & [_ ->] & Hgrp) & ->).
  assert (Hc1 : c1 = ∅).
  { destruct Halt as [[_ ->] | [[_ ->] | [_ ->]]]; done. }
  subst c1.
  destruct Hgrp as (c4 & Hbody & ->).
  destruct Hbody as (c5 & s5 & Hfour1 & c6 & s6 & [(sep & -> & Hsep) ->] & Hfour2).
  destruct Hfour1 as (? & ? & [(a1 & -> & Ha1) ->] & ? & ? & [(a2 & -> & Ha2) ->]
                        & ? & ? & [(a3 & -> & Ha3) ->] & [(a4 & -> & Ha4) ->]).
  destruct Hfour2 as (? & ? & [(b1 & -> & Hb1) ->] & ? & ? & [(b2 & -> & Hb2) ->]
                        & ? & ? & [(b3 & -> & Hb3) ->] & [(b4 & -> & Hb4) ->]).
  rewrite lookup_insert_ne by done. rewrite lookup_insert_eq. cbn [default].
  set (a := String a1 (String a2 (String a3 (String a4 "")))).
  set (b := String b1 (String b2 (String b3 (String b4 "")))).
  change (String a1 (String a2 (String a3 (String a4 (String sep
            (String b1 (String b2 (String b3 (String b4 rest)))))))))
    with ((a ++ String sep b) ++ rest).
  rewrite ReFacts.consumed_append.
  assert (Ha : allChars alnumChar a = true) by (cbn; by rewrite Ha1, Ha2, Ha3, Ha4).
  assert (Hb : allChars alnumChar b = true) by (cbn; by rewrite Hb1, Hb2, Hb3, Hb4).
  unfold id. rewrite replaceFirstSpace_alnum by done. cbn [replaceFirstSpace].
  assert (Hbb : replaceFirstSpace b = b).
  { rewrite <- (append_nil_r b) at 1. rewrite replaceFirstSpace_alnum by done.
    cbn [replaceFirstSpace]. apply append_nil_r. }
  destruct (Ascii.eqb_spec sep " ") as [->|Hne].
  - exists a, "-"%char, b. by repeat split.
  - exists a, sep, b. rewrite Hbb. by repeat split.
Qed.

Section LoginFacts.
Context `{Environment}.
Variable platform : GitPlatform.

Lemma github_step_opened (st : GitHub.AuthState) (ev : AuthEvent) :
  githubOpened st → githubOpened (GitHub.authStep st ev).
Proof.
  assert (Hext : ∀ st', githubOpened st' →
                        githubOpened (GitHub.tryExtractAndOpenBrowser st')).
  { intros st' Hst. unfold GitHub.tryExtractAndOpenBrowser.
    destruct (GitHub.deviceCodeExtracted st') eqn:Hx; cbn [orb]; [done|].
    destruct (GitHub.extractionInProgress st'); [done|].
    destruct (Re.exec deviceCodeRe _); [|done].
    destruct Hst as [[Ho _] | [_ Hc]]; [|congruence]. right. cbn. by rewrite Ho. }
  intros Hst. destruct ev as [chunk|chunk|opened|code|e]; cbn [GitHub.authStep].
  - by apply Hext.
  - by apply Hext.
  - unfold GitHub.afterOpen. by destruct (GitHub.awaitingOpen st).
  - unfold GitHub.onClose. by destruct code as [[| |]|].
  - done.
Qed.

Lemma gitlab_step_opened (st : GitLab.AuthState) (ev : AuthEvent) :
  gitlabOpened st → gitlabOpened (GitLab.authStep platform st ev).
Proof.
  assert (Hext : ∀ st', gitlabOpened st' →
                        gitlabOpened (GitLab.tryExtractAndOpenBrowser platform st')).
  { intros st' Hst. unfold GitLab.tryExtractAndOpenBrowser.
    destruct (GitLab.authUrlExtracted st') eqn:Hx; cbn [orb]; [done|].
    destruct (GitLab.extractionInProgress st'); [done|].
    destruct (newRegExp _ _) as [e|urlPattern].
    { destruct Hst as [[Ho _] | [_ Hc]]; [|congruence]. by left. }
    destruct (Re.exec urlPattern _); [|done].
    destruct Hst as [[Ho _] | [_ Hc]]; [|congruence]. right. cbn. by rewrite Ho. }
  intros Hst. destruct ev as [chunk|chunk|opened|code|e]; cbn [GitLab.authStep].
  - by apply Hext.
  - by apply Hext.
  - unfold GitLab.afterOpen. by destruct (GitLab.awaitingOpen st).
  - unfold GitLab.onClose. by destruct code as [[| |]|].
  - done.
Qed.

(** X22. A login opens the browser at most once, whatever events
    arrive and in whatever order: the list of URLs handed to
    [shell.openExternal] is empty as long as nothing was extracted, and
    from then on holds exactly the one URL the closure keeps as
    [extractedAuthUrl].  This holds for both adapters. *)
Theorem startAuth_opens_once (spawnThrows : option JsError) (events : list AuthEvent) :
  githubOpened (GitHub.startAuth spawnThrows events) ∧
  gitlabOpened (GitLab.startAuth platform spawnThrows events).
Proof.
  split.
  - unfold GitHub.startAuth. destruct spawnThrows; [by left|].
    apply fold_left_invariant; [apply github_step_opened|by left].
  - unfold GitLab.startAuth. destruct spawnThrows; [by left|].
    apply fold_left_invariant; [apply gitlab_step_opened|by left].
Qed.

Lemma github_settle_ok (r : AuthStartResult) (st : GitHub.AuthState) :
  githubLoginOk st →
  (∀ code, deviceCode r = Some code → deviceCodeShape code) →
  (∀ u, authUrl r = Some u → devicePage u) →
  (∀ u, fallbackUrl r = Some u → devicePage u) →
  githubLoginOk (GitHub.settle r st).
Proof.
  intros (Hurl & Hopened & Hcode & Hres) Hd Ha Hf.
  split; [done|]. split; [done|]. split; [done|].
  cbn. intros r'. destruct (GitHub.promise st) eqn:Hp; cbn.
  - by intros [= <-].
  - intros [= <-]. by apply Hres.
  - done.
Qed.

Lemma github_step_ok (st : GitHub.AuthState) (ev : AuthEvent) :
  githubLoginOk st → githubLoginOk (GitHub.authStep st ev).
Proof.
  assert (Hext : ∀ st', githubLoginOk st' →
                        githubLoginOk (GitHub.tryExtractAndOpenBrowser st')).
  { intros st' (Hurl & Hopened & Hcode & Hres). unfold GitHub.tryExtractAndOpenBrowser.
    destruct (GitHub.deviceCodeExtracted st' || GitHub.extractionInProgress st'); [done|].
    destruct (Re.exec deviceCodeRe _) as [m|] eqn:Hm; [|done].
    assert (Hnew : devicePage
              match Re.exec deviceUrlRe
                      (GitHub.output st' ++ String LF "" ++ GitHub.errorOutput st') with
              | Some u => wholeMatch u
              | None => GitHub.extractedAuthUrl st'
              end).
    { destruct (Re.exec deviceUrlRe _) as [u|] eqn:Hu; [|done].
      by apply deviceUrl_page in Hu. }
    split; [exact Hnew|]. cbn.
    split; [apply Forall_app; split; [done|by constructor]|].
    split; [|done]. intros code [= <-]. by apply deviceCode_shape in Hm. }
  intros Hst. destruct ev as [chunk|chunk|opened|code|e]; cbn [GitHub.authStep].
  - by apply Hext.
  - by apply Hext.
  - unfold GitHub.afterOpen. by destruct (GitHub.awaitingOpen st).
  - assert (Hd : ∀ code',
              GitHub.deviceCodeOrUndefined st = Some code' → deviceCodeShape code').
    { intros code'. unfold GitHub.deviceCodeOrUndefined.
      destruct (GitHub.extractedDeviceCode st) as [c|] eqn:Hc; [|done]. cbn.
      intros ->%orUndefined_spec. by apply Hst. }
    destruct Hst as (Hurl & Hrest). unfold GitHub.onClose.
    destruct code as [[| |]|]; apply github_settle_ok; cbn; try done;
      try (by intros u [= <-]).
    intros u. destruct (GitHub.browserOpenedSuccessfully st); cbn; [done|].
    by intros [= <-].
  - unfold GitHub.onError. apply github_settle_ok; cbn; try done.
    by intros u [= <-].
Qed.

(** X23. The GitHub login only ever points the browser at the device
    login page: every URL handed to [shell.openExternal], the URL the
    closure keeps, and the [authUrl] and [fallbackUrl] of the result are
    [https://github.com/login/device] up to letter case.  A device code
    it stores or reports has four letters or digits, a separator that is
    no plain space (a blank separator was replaced by a dash), and four
    more. *)
Theorem github_login_shapes (spawnThrows : option JsError) (events : list AuthEvent) :
  githubLoginOk (GitHub.startAuth spawnThrows events).
Proof.
  assert (Hinit : githubLoginOk GitHub.authInit).
  { split; [done|]. split; [constructor|]. split; [done|]. by intros r. }
  unfold GitHub.startAuth. destruct spawnThrows.
  - apply github_settle_ok; cbn; try done. by intros u [= <-].
  - by apply fold_left_invariant; [apply github_step_ok|].
Qed.

End LoginFacts.

(** ** Remotes the adapters write and read *)

Lemma names_noSlash (s : string) : allChars nameChar s = true → noSlash s = true.
Proof.
  induction s as [|c s IH]; [done|]. unfold noSlash in *. cbn [allChars].
  intros [Hc Hs]%andb_prop. unfold Re.notChar at 1.
  by rewrite (nameChar_not_slash c Hc), IH.
Qed.

Lemma head_app_Some {A} (l1 l2 : list A) (x : A) :
  head l1 = Some x → head (l1 ++ l2) = Some x.
Proof. by destruct l1. Qed.

Lemma head_seq_cls (p : ascii → bool) (r2 : Re.regex) (a : ascii) (s : string)
    (c : Re.captures) :
  p a = true →
  Re.run false (Re.Seq (Re.Cls p) r2) (String a s) c = Re.run false r2 s c.
Proof.
  intros Ha. rewrite RePriority.run_seq. cbn [Re.run]. rewrite Ha. cbn.
  by rewrite app_nil_r.
Qed.

(** A start position at which the literal that opens the pattern does not
    fit is passed over. *)
Lemma search_skip (l : string) (r : Re.regex) (a : ascii) (s : string) :
  Re.afterLit false l (String a s) = None →
  Re.search false (Re.Seq (Re.Lit l) r) (String a s) =
  Re.search false (Re.Seq (Re.Lit l) r) s.
Proof.
  intros Hno. cbn [Re.search]. unfold Re.matchHere.
  rewrite RePriority.run_grp, RePriority.run_seq. cbn [Re.run]. by rewrite Hno.
Qed.

(** An owner, a slash and something after it: the ways to read the part
    after the slash with the whole owner come first. *)
Lemma run_owner_repo (o seg : string) (c : Re.captures) :
  o ≠ "" → noSlash o = true →
  ∃ others,
    Re.run false
      (Re.Seq (Re.PlusG (Re.notChar "/"))
              (Re.Seq (Re.Lit "/") (Re.PlusL (Re.notChar "/"))))
      (o ++ String "/" seg) c =
    (((fun s' => (c, s')) <$> Re.spans (Re.notChar "/") seg) ++ others)%list.
Proof.
  intros Ho Hos. rewrite !RePriority.run_seq. cbn [Re.run].
  destruct (RePriority.greedy_first (Re.notChar "/") o "/" seg Ho Hos eq_refl)
    as [shorter ->].
  rewrite fmap_cons, bind_cons.
  change (Re.afterLit false "/" (String "/" seg)) with (Some seg).
  cbv iota. rewrite bind_singleton. by eexists.
Qed.

(** The match of [githubRepoRe] at a place where [github.com], a
    separator, an owner and a last segment stand. *)
Lemma githubRepoRe_here (sep : ascii) (o seg : string) :
  slashOrColon sep = true →
  o ≠ "" → noSlash o = true → seg ≠ "" → noSlash seg = true →
  ∃ m, Re.matchHere false (Re.body githubRepoRe)
         ("github.com" ++ String sep (o ++ "/" ++ seg)) = Some m ∧
       m !! 1%nat = Some (o ++ "/" ++ lazyCut seg).
Proof.
  intros Hsep Ho Hos Hseg Hsegs.
  unfold Re.matchHere, githubRepoRe. cbn [Re.body].
  rewrite (RePriority.run_grp false 0), head_fmap_list.
  rewrite RePriority.head_seq_lit, head_seq_cls by done.
  rewrite RePriority.run_seq, (RePriority.run_grp false 1).
  change (o ++ "/" ++ seg) with (o ++ String "/" seg).
  destruct (run_owner_repo o seg ∅ Ho Hos) as [others ->].
  rewrite fmap_app, bind_app.
  pose proof (RePriority.head_lazy_tail 1 (Re.notChar "/") (o ++ "/") seg ∅ Hseg Hsegs)
    as Hhead.
  rewrite append_assoc in Hhead. change ("/" ++ seg) with (String "/" seg) in Hhead.
  erewrite head_app_Some; [|exact Hhead].
  cbn [fmap option_fmap option_map fst].
  eexists. split; [reflexivity|]. rewrite lookup_insert_ne by done.
  by rewrite lookup_insert_eq, append_assoc.
Qed.

Section RemoteRoundTrip.
Context `{Environment}.
Variable platform : GitPlatform.

(** X24. The remote [addGitRemote] configures is one the detector reads
    back.  For GitHub the validated [owner/repo] comes back as a
    [github.com] descriptor with that [fullName]; for GitLab an
    [owner/repo] of two plain segments comes back with the adapter's host,
    that owner and that repository, provided the host is non-empty and has
    no slash. *)
Theorem addGitRemote_parses_back (projectPath' repoFullName remoteUrl : string)
    (w w' : World) :
  (GitHub.addGitRemote projectPath' repoFullName w = (inr remoteUrl, w') →
   ∃ o r,
     repoFullName = o ++ "/" ++ r ∧
     parseGitRemoteUrl remoteUrl = Some (createPlatform "github.com" o r) ∧
     fullName (createPlatform "github.com" o r) = repoFullName ∧
     type (createPlatform "github.com" o r) = "github") ∧
  (∀ o r,
     GitLab.addGitRemote platform projectPath' repoFullName w = (inr remoteUrl, w') →
     repoFullName = o ++ "/" ++ r →
     host platform ≠ "" → noSlash (host platform) = true →
     o ≠ "" → noSlash o = true → r ≠ "" → noSlash r = true →
     parseGitRemoteUrl remoteUrl = Some (createPlatform (host platform) o r)).
Proof.
  split.
  - intros Hrun%tryCatch_rethrow_inr.
    destruct (Re.test repoFormatRe repoFullName) eqn:Hfmt; [|discriminate Hrun].
    apply repoFormatRe_inv in Hfmt as (o & r & -> & [Ho Hos] & [Hr Hrs]).
    cbn [negb] in Hrun. unfold bind in Hrun.
    destruct (GitHub.removeOrigin projectPath' w) as [[e|[]] w1]; [discriminate Hrun|].
    rewrite execFileSync_run in Hrun.
    destruct (runSync _ w1) as [[e|out] fs]; [discriminate Hrun|].
    injection Hrun as <- _. exists o, r. split; [done|]. split; [|done].
    apply names_noSlash in Hos, Hrs.
    rewrite (parse_https_cut _ "https" "github.com" o (r ++ ".git")
               (or_intror eq_refl) ltac:(done) eq_refl Ho Hos
               (append_nonempty_l r ".git" Hr) (noSlash_git r Hrs)).
    + by rewrite lazyCut_git.
    + rewrite !append_assoc.
      change ("https://github.com/" ++ ?x) with (String "h" ("ttps://github.com/" ++ x)).
      trimmed.
  - intros o r Hrun%tryCatch_rethrow_inr -> Hh Hhs Ho Hos Hr Hrs.
    unfold bind in Hrun.
    destruct (GitLab.removeOrigin projectPath' w) as [[e|[]] w1]; [discriminate Hrun|].
    rewrite execFileSync_run in Hrun.
    destruct (runSync _ w1) as [[e|out] fs]; [discriminate Hrun|].
    injection Hrun as <- _. unfold GitLab.getHost.
    rewrite (parse_https_cut _ "https" (host platform) o (r ++ ".git")
               (or_intror eq_refl) Hh Hhs Ho Hos
               (append_nonempty_l r ".git" Hr) (noSlash_git r Hrs)).
    + by rewrite lazyCut_git.
    + rewrite !append_assoc.
      change ("https://" ++ ?x) with (String "h" ("ttps://" ++ x)).
      trimmed.
Qed.

(** X25. On [github.com] remotes [GitHub.detectRepo] and the detector
    agree: when [git remote get-url origin] prints an HTTPS or SSH remote
    of [github.com] with a one-segment owner and repository, the parser
    returns a GitHub descriptor and [detectRepo] returns the [fullName]
    of that descriptor. *)
Theorem github_detectRepo_agrees (projectPath' out o seg : string)
    (fs : gmap string string) (w : World) :
  runSync (ExecSync "git remote get-url origin" (Some projectPath')) w = (inr out, fs) →
  Js.trim out = "https://github.com/" ++ o ++ "/" ++ seg ∨
  Js.trim out = "git@github.com:" ++ o ++ "/" ++ seg →
  o ≠ "" → noSlash o = true → seg ≠ "" → noSlash seg = true →
  ∃ p w',
    parseGitRemoteUrl out = Some p ∧
    isGitHub p = true ∧
    GitHub.detectRepo projectPath' w = (inr (Some (fullName p)), w').
Proof.
  intros Hrun Hshape Ho Hos Hseg Hsegs.
  exists (createPlatform "github.com" o (lazyCut seg)).
  unfold GitHub.detectRepo, tryCatch, bind, ret. rewrite execSync_run, Hrun.
  cbn [fst snd].
  destruct (githubRepoRe_here "/" o seg eq_refl Ho Hos Hseg Hsegs)
    as (m1 & Hm1 & Hg1).
  destruct (githubRepoRe_here ":" o seg eq_refl Ho Hos Hseg Hsegs)
    as (m2 & Hm2 & Hg2).
  assert (Hexec : ∃ m, Re.exec githubRepoRe (Js.trim out) = Some m ∧
                       m !! 1%nat = Some (o ++ "/" ++ lazyCut seg)).
  { unfold Re.exec. change (Re.anchored githubRepoRe) with false.
    change (Re.ignoreCase githubRepoRe) with false.
    destruct Hshape as [-> | ->].
    - exists m1. split; [|done].
      change ("https://github.com/" ++ o ++ "/" ++ seg)
        with (String "h" (String "t" (String "t" (String "p" (String "s"
               (String ":" (String "/" (String "/"
                 ("github.com" ++ String "/" (o ++ "/" ++ seg)))))))))).
      unfold githubRepoRe at 1. cbn [Re.body].
      do 8 (rewrite search_skip by reflexivity).
      change (Re.Seq (Re.Lit "github.com") _) with (Re.body githubRepoRe).
      change ("github.com" ++ String "/" (o ++ "/" ++ seg))
        with (String "g" ("ithub.com" ++ String "/" (o ++ "/" ++ seg))) at 1.
      cbn [Re.search].
      change (String "g" ("ithub.com" ++ String "/" (o ++ "/" ++ seg)))
        with ("github.com" ++ String "/" (o ++ "/" ++ seg)).
      by rewrite Hm1.
    - exists m2. split; [|done].
      change ("git@github.com:" ++ o ++ "/" ++ seg)
        with (String "g" (String "i" (String "t" (String "@"
               ("github.com" ++ String ":" (o ++ "/" ++ seg)))))).
      unfold githubRepoRe at 1. cbn [Re.body].
      do 4 (rewrite search_skip by reflexivity).
      change (Re.Seq (Re.Lit "github.com") _) with (Re.body githubRepoRe).
      change ("github.com" ++ String ":" (o ++ "/" ++ seg))
        with (String "g" ("ithub.com" ++ String ":" (o ++ "/" ++ seg))) at 1.
      cbn [Re.search].
      change (String "g" ("ithub.com" ++ String ":" (o ++ "/" ++ seg)))
        with ("github.com" ++ String ":" (o ++ "/" ++ seg)).
      by rewrite Hm2. }
  destruct Hexec as (m & -> & ->). eexists. split; [|split; [reflexivity|reflexivity]].
  destruct Hshape as [Hurl | Hurl].
  - by apply (parse_https_cut out "https" "github.com" o seg (or_intror eq_refl)).
  - by apply (parse_ssh_cut out "github.com" o seg).
Qed.

End RemoteRoundTrip.

(** ** The release handler *)

Section HandlerFacts.
Context `{Environment}.
Variable process_platform : string.

Lemma starts_detect (projectPath' : string) (options : DetectOptions) :
  starts notSpawn (detectGitPlatform projectPath' options).
Proof.
  unfold detectGitPlatform, getGitRemoteUrl. starts_auto; exact I.
Qed.

Lemma starts_checkCli (adapter : PlatformAdapter) :
  starts notSpawn (adapterCheckCliInstalled process_platform adapter).
Proof.
  destruct adapter; cbn [adapterCheckCliInstalled];
    unfold GitHub.checkCliInstalled, GitLab.checkCliInstalled; starts_auto; exact I.
Qed.

Lemma starts_checkAuth (adapter : PlatformAdapter) :
  starts notSpawn (adapterCheckAuthentication adapter).
Proof.
  destruct adapter; cbn [adapterCheckAuthentication];
    unfold GitHub.checkAuthentication, GitLab.checkAuthentication; starts_auto; exact I.
Qed.

Lemma releaseTag_v (version : string) : Js.startsWith "v" (releaseTag version) = true.
Proof.
  unfold releaseTag. destruct (Js.startsWith "v" version) eqn:Hv; [done|].
  reflexivity.
Qed.

(** A step of the handler that ends it with a failure before any
    release was asked for. *)
Ltac handler_stops later :=
  eexists _, _; (split; [reflexivity|]);
  cbn [ipcSuccess ipcUrl ipcError];
  (split; [done|]); (split; [by eauto|]);
  intros _; exists later;
  (split; [by rewrite ?app_assoc, ?app_nil_r; congruence
          |by rewrite ?Forall_app]).

(** X26. The release handler never throws, and a failure carries a
    message and no URL.  It reports success only when the project is
    known, its platform was detected and has an adapter, that adapter
    found its tool installed and the user authenticated, and the
    adapter's [createRelease] then succeeded; the URL is that release's,
    or the empty string.  When the checks did not all pass, no process
    was started with [spawn]: the release was not attempted.  The tag
    asked for always starts with [v]. *)
Theorem release_handler_spec (project : option Project) (version releaseNotes : string)
    (options : option ReleaseOptions) (w : World) :
  ∃ r w',
    createReleaseHandler process_platform project version releaseNotes options w =
      (inr r, w') ∧
    (ipcSuccess r = true →
     ∃ known adapter w3 releaseResult,
       project = Some known ∧
       checksPassed process_platform project w w3 adapter ∧
       adapterCreateRelease adapter
         (releaseRequest known version releaseNotes options) w3 =
         (inr releaseResult, w') ∧
       success releaseResult = true ∧
       Js.startsWith "v" (tagName (releaseRequest known version releaseNotes options))
         = true ∧
       ipcUrl r = Some (orElse (releaseUrl releaseResult) "") ∧
       ipcError r = None) ∧
    (ipcSuccess r = false → ipcUrl r = None ∧ is_Some (ipcError r)) ∧
    ((∀ w3 adapter, ¬ checksPassed process_platform project w w3 adapter) →
     ∃ later, trace w' = (trace w ++ later)%list ∧ Forall notSpawn later).
Proof.
  destruct project as [known|]; cbn [createReleaseHandler].
  2: { unfold ret. handler_stops (@nil Invocation). }
  unfold tryCatch, bind, liftResult.
  destruct (starts_detect (path known) noOptions w) as (l1 & Ht1 & HP1).
  destruct (detectGitPlatform (path known) noOptions w) as [[e|[platform|]] w1] eqn:Hd;
    cbn [snd] in Ht1; unfold ret.
  { handler_stops l1. }
  2: { handler_stops l1. }
  destruct (createAdapter platform) as [e|adapter] eqn:Ha.
  { handler_stops l1. }
  destruct (starts_checkCli adapter w1) as (l2 & Ht2 & HP2).
  destruct (adapterCheckCliInstalled process_platform adapter w1)
    as [[e|cliCheck] w2] eqn:Hc; cbn [snd] in Ht2.
  { handler_stops (l1 ++ l2)%list. }
  destruct (installed cliCheck) eqn:Hi; cbn [negb].
  2: { handler_stops (l1 ++ l2)%list. }
  destruct (starts_checkAuth adapter w2) as (l3 & Ht3 & HP3).
  destruct (adapterCheckAuthentication adapter w2) as [[e|authCheck] w3] eqn:Hau;
    cbn [snd] in Ht3.
  { handler_stops ((l1 ++ l2) ++ l3)%list. }
  destruct (authenticated authCheck) eqn:Hat; cbn [negb].
  2: { handler_stops ((l1 ++ l2) ++ l3)%list. }
  assert (Hpassed : checksPassed process_platform (Some known) w w3 adapter).
  { by exists known, platform, w1, cliCheck, w2, authCheck. }
  destruct (adapterCreateRelease adapter _ w3) as [[e|releaseResult] w4] eqn:Hr.
  { eexists _, _. split; [reflexivity|]. cbn [ipcSuccess ipcUrl ipcError].
    split; [done|]. split; [by eauto|]. intros Hno. by destruct (Hno w3 adapter). }
  destruct (success releaseResult) eqn:Hs; cbn [negb].
  - eexists _, _. split; [reflexivity|]. cbn [ipcSuccess ipcUrl ipcError].
    split; [|split; [done|]].
    + intros _. exists known, adapter, w3, releaseResult.
      split; [done|]. split; [done|]. split; [done|]. split; [done|].
      split; [apply releaseTag_v|done].
    + intros Hno. by destruct (Hno w3 adapter).
  - eexists _, _. split; [reflexivity|]. cbn [ipcSuccess ipcUrl ipcError].
    split; [done|]. split; [by eauto|]. intros Hno. by destruct (Hno w3 adapter).
Qed.

End HandlerFacts.

(** ** Tokens *)

Section TokenFacts.
Context `{Environment}.
Variable platform : GitPlatform.

Lemma starts_nothing {A} (m : M A) (w : World) :
  starts (fun _ => False) m → trace (m w).2 = trace w.
Proof.
  intros Hm. destruct (Hm w) as (later & -> & Hnone).
  destruct later as [|i later]; [by rewrite app_nil_r|]. by inversion Hnone.
Qed.

(** X27. A token that [getToken] returns is never empty.  The GitHub
    one is the trimmed, non-empty output of the single [gh auth token] it
    ran.  The GitLab one is a truthy value read from the configuration
    file, and whether it succeeds or throws, [GitLab.getToken] starts no
    process at all. *)
Theorem getToken_spec (w : World) :
  (∀ token w', GitHub.getToken w = (inr token, w') →
     token ≠ "" ∧ Js.trim token = token ∧
     trace w' = (trace w ++ [ExecSync "gh auth token" None])%list) ∧
  (∀ token w', GitLab.getToken platform w = (inr token, w') →
     jsonTruthy (Some token) = true) ∧
  trace (GitLab.getToken platform w).2 = trace w.
Proof.
  split; [|split].
  - intros token w' Hrun%tryCatch_rethrow_inr. unfold bind in Hrun.
    rewrite execSync_run in Hrun.
    destruct (runSync _ w) as [[e|out] fs]; [discriminate Hrun|]. cbn [fst snd] in Hrun.
    destruct (Js.truthy (Js.trim out)) eqn:Hne; [|discriminate Hrun].
    injection Hrun as <- <-. split; [|split; [apply trim_idem|done]].
    intros Hnil. rewrite Hnil in Hne. discriminate Hne.
  - intros token w' Hrun%tryCatch_rethrow_inr.
    destruct (GitLab.homeDir) as [home|]; [|discriminate Hrun].
    unfold bind, existsSync in Hrun.
    destruct (bool_decide _); [|discriminate Hrun]. cbn [negb] in Hrun.
    destruct (readFileSync _ w) as [[e|content] w1]; [discriminate Hrun|].
    unfold liftResult in Hrun. destruct (loadYaml content) as [e|config];
      [discriminate Hrun|].
    destruct (optProp _ "token") as [t|]; [|discriminate Hrun].
    destruct (jsonTruthy (Some t)) eqn:Ht; [|discriminate Hrun].
    by injection Hrun as <- _.
  - apply starts_nothing. unfold GitLab.getToken. starts_auto.
Qed.

End TokenFacts.

(** ** Creating repositories *)

Section CreateRepoFacts.
Context `{Environment}.
Variable platform : GitPlatform.

(** Settles [statesVisibility] for a command whose arguments are
    written out. *)
Ltac visibility_stated :=
  unfold statesVisibility, visibilityFlag, GitLab.pushHostname, GitLab.getHostnameArgs;
  repeat match goal with
         | |- context [if ?b then _ else _] => destruct b
         end;
  cbn [app]; eauto.

(** X28. [createRepo] of either adapter never starts a [repo create]
    without stating the visibility: the command names the repository,
    [--source] and the project directory, and then [--private] when
    [options.isPrivate] is true and [--public] in every other case, a
    missing [isPrivate] included.  This holds of every process the call
    starts, however it ends. *)
Theorem createRepo_states_visibility (options : CreateRepoOptions) :
  starts (statesVisibility options) (GitHub.createRepo options) ∧
  starts (statesVisibility options) (GitLab.createRepo platform options) ∧
  (isPrivate options ≠ Some true → visibilityFlag options = "--public").
Proof.
  split; [|split].
  - unfold GitHub.createRepo. starts_auto; try exact I. all: visibility_stated.
  - unfold GitLab.createRepo, GitLab.getUser. starts_auto; try exact I.
    all: visibility_stated.
  - unfold visibilityFlag, flagSet. by destruct (isPrivate options) as [[]|].
Qed.

End CreateRepoFacts.

(** ** More properties at concrete inputs *)

Lemma selfHosted_names_host_witness :
  isSelfHosted selfHostedSample = true ∧
  ∃ w', @GitLab.getBranches answering selfHostedSample "owner/repo" emptyWorld =
          (inr ["main"; "develop"], w') ∧
        Forall (namesHost selfHostedSample) (trace w').
Proof.
  split; [reflexivity|].
  destruct (selfHosted_names_host (H := answering) selfHostedSample eq_refl)
    as (_ & _ & _ & Hbranches & _).
  destruct (Hbranches "owner/repo" emptyWorld) as (later & Htr & Hall).
  exists (@GitLab.getBranches answering selfHostedSample "owner/repo" emptyWorld).2.
  split; [reflexivity|]. rewrite Htr. exact Hall.
Defined.

Lemma github_detectRepo_agrees_witness :
  ∃ w', @GitHub.detectRepo githubOrigin "/repo" emptyWorld =
          (inr (Some "owner/repo"), w').
Proof.
  destruct (github_detectRepo_agrees (H := githubOrigin) "/repo"
              "git@github.com:owner/repo.git
" "owner" "repo.git" ∅ emptyWorld eq_refl (or_intror eq_refl)
              ltac:(done) eq_refl ltac:(done) eq_refl)
    as (p & w' & Hp & _ & Hrun).
  exists w'. vm_compute in Hp. injection Hp as <-. exact Hrun.
Defined.

(** The operations above do return: runs in an environment whose commands
    all succeed. *)

Example github_getToken_runs :
  ∃ w', @GitHub.getToken (printing "gho_token
") emptyWorld = (inr "gho_token", w').
Proof. eexists. vm_compute. reflexivity. Qed.

Example gitlab_getProjectId_rounds :
  ∃ w', @GitLab.getProjectId (printing "9007199254740993
") gitlabSample "acme/widgets" emptyWorld = (inr (Int 9007199254740992), w') ∧
        projectIdCache w' !! "acme/widgets" = Some (Int 9007199254740992).
Proof. eexists. vm_compute. split; reflexivity. Qed.

Example github_addGitRemote_runs :
  ∃ w', @GitHub.addGitRemote (printing "") "/repo" "owner/repo" emptyWorld =
          (inr "https://github.com/owner/repo.git", w').
Proof. eexists. vm_compute. reflexivity. Qed.

Example gitlab_listRepos_runs :
  ∃ w', @GitLab.listRepos (printing "acme/widgets
no-slash-here
acme/gadgets
") gitlabSample (Some 2%Z) emptyWorld =
          (inr [mkRepository (Some (JStr "acme/widgets")) (Some JNull) (Some (JBool false))
                  (Some "https://gitlab.com/acme/widgets")], w').
Proof. eexists. vm_compute. reflexivity. Qed.

Example github_createRelease_runs :
  ∃ w', @GitHub.createRelease
          (scripted (fun _ => inl commandFailed)
             (Exited (Some 0%Z) "https://github.com/owner/repo/releases/tag/v1.0.0
" "") false)
          releaseSample emptyWorld =
          (inr (mkCreateReleaseResult true
                  (Some "https://github.com/owner/repo/releases/tag/v1.0.0")
                  (Some "v1.0.0") None), w').
Proof. eexists. vm_compute. reflexivity. Qed.

Example release_handler_runs :
  ∃ w', @createReleaseHandler (printing "git@github.com:owner/repo.git
") "linux" (Some (mkProject "/repo")) "1.0.0" "Release notes" None emptyWorld =
          (inr (mkIPCResult true (Some "git@github.com:owner/repo.git") None), w') ∧
        last (trace w') =
          Some (ExecSync "gh release view v1.0.0 --json url -q .url 2>/dev/null"
                  (Some "/repo")).
Proof. eexists. vm_compute. split; reflexivity. Qed.

Example release_handler_stops :
  ∃ w', @createReleaseHandler failing "linux" (Some (mkProject "/repo")) "1.0.0"
          "Release notes" None emptyWorld =
          (inr (mkIPCResult false None
                  (Some "Could not detect platform. Make sure the project has a git remote configured.")),
           w') ∧
        trace w' = [ExecSync "git remote get-url origin" (Some "/repo")].
Proof. eexists. vm_compute. split; reflexivity. Qed.
